(** * av1_encoder/cli.py: transcode planning and transactional replacement

    A shallow embedding of the planning and file-replacement logic of
    [src/av1_encoder/cli.py], with the properties its specification states.

    Conventions of the embedding:
    - Python [str] values are [string]s of 8-bit characters; [str.lower] is
      lower-casing of the ASCII letters.
    - Python [int] is [Z]; [Optional[T]] is [option T]; the truth value of an
      optional string ([x or d], [if x:]) is written out by [or_str] and
      [truthy].
    - [print] is modelled by returning the printed lines next to the result.
    - The file system is a finite map from paths to file contents; every
      operation on it may be refused by the environment (it raises), which is
      an explicit input of the models. *)

From Stdlib Require Import ZArith String Ascii List Lia DecimalString DecimalZ.
From stdpp Require Import gmap strings list relations.

Open Scope string_scope.
Open Scope list_scope.

(** ** Python primitives *)

Module Py.

(** [x or d] for an [Optional[str]]: [None] and the empty string are falsy. *)
Definition or_str (x : option string) (d : string) : string :=
  match x with
  | Some EmptyString => d
  | Some s => s
  | None => d
  end.

(** Truth value of an [Optional[str]]. *)
Definition truthy (x : option string) : bool :=
  match x with
  | Some EmptyString => false
  | Some _ => true
  | None => false
  end.

(** [int(x or 0)] for an optional integer. *)
Definition int_or_0 (x : option Z) : Z :=
  match x with
  | Some n => n
  | None => 0%Z
  end.

(** [s.startswith(p)] *)
Definition startswith (s p : string) : bool := String.prefix p s.

Definition lower_ascii (c : ascii) : ascii :=
  let n := N_of_ascii c in
  if ((65 <=? n) && (n <=? 90))%N then ascii_of_N (n + 32) else c.

(** [s.lower()] *)
Fixpoint lower (s : string) : string :=
  match s with
  | EmptyString => EmptyString
  | String c r => String (lower_ascii c) (lower r)
  end.

(** [str(n)] for an integer: decimal digits, a leading minus sign when
    negative. *)
Definition str_of_int (n : Z) : string := NilZero.string_of_int (Z.to_int n).

(** [s in {..}] for a set literal of strings. *)
Definition str_in (s : string) (l : list string) : bool :=
  existsb (String.eqb s) l.

End Py.

(** ** pathlib *)

Module PathLib.

(** A pure path: the directory part and the final component. *)
Record Path : Type := mkPath { parent : string; name : string }.

#[export] Instance Path_eq_dec : EqDecision Path.
Proof. solve_decision. Defined.

#[export] Instance Path_countable : Countable Path.
Proof.
  refine (inj_countable' (fun p => (parent p, name p))
                         (fun q => mkPath q.1 q.2) _).
  intros []; reflexivity.
Defined.

(** [str(p)] *)
Definition str (p : Path) : string := parent p +:+ "/" +:+ name p.

(** [name.rfind('.')]: the index of the last dot, if there is one. *)
Fixpoint rfind_dot (s : string) : option nat :=
  match s with
  | EmptyString => None
  | String c r =>
      match rfind_dot r with
      | Some i => Some (S i)
      | None => if Ascii.eqb c "." then Some 0 else None
      end
  end.

Fixpoint take (n : nat) (s : string) : string :=
  match n, s with
  | S m, String c r => String c (take m r)
  | _, _ => EmptyString
  end.

Fixpoint drop (n : nat) (s : string) : string :=
  match n, s with
  | S m, String _ r => drop m r
  | _, _ => s
  end.

(** [PurePath.suffix]: the part of the name from its last dot on, empty when
    there is no dot, when the only dot is the first character, or when the
    name ends with the dot. *)
Definition suffix_of (nm : string) : string :=
  match rfind_dot nm with
  | Some i =>
      if ((0 <? i) && (i <? String.length nm - 1))%nat then drop i nm
      else EmptyString
  | None => EmptyString
  end.

Definition suffix (p : Path) : string := suffix_of (name p).

(** [PurePath.stem] *)
Definition stem (p : Path) : string :=
  take (String.length (name p) - String.length (suffix p)) (name p).

(** [PurePath.with_suffix(suf)], for a non-empty name and a well-formed
    suffix (the only way it is called here): the old suffix, if any, is
    cut off and the new one appended. *)
Definition with_suffix (p : Path) (suf : string) : Path :=
  mkPath (parent p) (stem p +:+ suf).

End PathLib.

Import PathLib.

(** ** MediaInfo and the compliance test *)

(** One entry of [MediaInfo.audio_streams]: the dictionary built by
    [probe_media], whose three values can each be missing. *)
Record AudioStream : Type := mkAudioStream {
  a_index : option Z;
  a_channels : option Z;
  a_channel_layout : option string
}.

Record MediaInfo : Type := mkMediaInfo {
  has_video : bool;
  all_video_av1 : bool;
  audio_codecs : list string;
  audio_streams : list AudioStream;
  subtitle_streams : Z;
  attachments : Z;
  colorspace : option string;
  color_primaries : option string;
  color_trc : option string;
  pix_fmt : option string
}.

(** [all(ac == "opus" for ac in codecs if ac)]: the generator keeps the
    non-empty names, [all] tests each of them. *)
Definition nonempty (s : string) : bool :=
  match s with
  | EmptyString => false
  | _ => true
  end.

Definition all_opus (codecs : list string) : bool :=
  forallb (fun ac => String.eqb ac "opus") (List.filter nonempty codecs).

Definition already_compliant (info : option MediaInfo) : bool :=
  match info with
  | None => false
  | Some i =>
      if negb (has_video i) then false
      else if negb (all_video_av1 i) then false
      else if all_opus (audio_codecs i) then true
      else false
  end.

(** [info] with the codec name of audio stream [k] replaced by [c]. *)
Definition set_audio_codec (k : nat) (c : string) (i : MediaInfo) : MediaInfo :=
  mkMediaInfo (has_video i) (all_video_av1 i) (<[k := c]> (audio_codecs i))
    (audio_streams i) (subtitle_streams i) (attachments i) (colorspace i)
    (color_primaries i) (color_trc i) (pix_fmt i).

(** ** build_ffmpeg_cmd *)

(** The body of the loop over [enumerate(info.audio_streams)]: the arguments
    it appends to [cmd] and the lines it prints, for the stream at list
    position [a_idx]. (The local [codec] of line 333 is never read and is
    left out.) *)
Definition audio_stream_args (a_idx : nat) (a : AudioStream)
  : list string * list string :=
  let idx := Py.str_of_int (Z.of_nat a_idx) in
  let ch := Py.int_or_0 (a_channels a) in
  let layout := Py.lower (Py.or_str (a_channel_layout a) "") in
  if (ch <=? 2)%Z then
    (["-mapping_family:a:" +:+ idx; "0"], [])
  else if (ch =? 6)%Z && String.eqb layout "5.1(side)" then
    (["-mapping_family:a:" +:+ idx; "1";
      "-filter:a:" +:+ idx;
      "channelmap=map=FL-FL|FR-FR|FC-FC|LFE-LFE|SL-BL|SR-BR"], [])
  else if (ch =? 6)%Z && Py.str_in layout ["5.1"; "5.1(back)"] then
    (["-mapping_family:a:" +:+ idx; "1"], [])
  else if (ch =? 8)%Z
          && Py.str_in layout ["7.1"; "7.1(wide)"; "7.1(wide-side)"; "7.1(rear)"] then
    (["-mapping_family:a:" +:+ idx; "1"], [])
  else if (ch =? 4)%Z && Py.str_in layout ["quad"; "4.0"] then
    (["-mapping_family:a:" +:+ idx; "1"], [])
  else if (ch =? 3)%Z || (ch =? 4)%Z || (ch =? 5)%Z || (ch =? 7)%Z then
    (["-mapping_family:a:" +:+ idx; "1"],
     ["[WARN] Audio stream " +:+ idx +:+ ": " +:+ Py.str_of_int ch
      +:+ "ch layout '" +:+ layout
      +:+ "' may not be Opus standard; check output."])
  else
    (["-ac:a:" +:+ idx; "2"; "-mapping_family:a:" +:+ idx; "0"],
     ["[WARN] Audio stream " +:+ idx +:+ ": " +:+ Py.str_of_int ch
      +:+ "ch layout '" +:+ layout
      +:+ "' not recognized, downmixing to stereo."]).

(** The loop itself, threading [cmd] and the printed lines. *)
Fixpoint audio_loop (a_idx : nat) (streams : list AudioStream)
    (st : list string * list string) : list string * list string :=
  match streams with
  | [] => st
  | a :: rest =>
      let r := audio_stream_args a_idx a in
      audio_loop (S a_idx) rest (st.1 ++ r.1, st.2 ++ r.2)
  end.

(** The HDR heuristic of lines 242-248. *)
Definition hdr_of (info : MediaInfo) : bool :=
  if Py.truthy (color_primaries info) || Py.truthy (color_trc info)
     || Py.truthy (colorspace info)
  then
    if Py.startswith (Py.or_str (color_primaries info) "") "bt2020"
       || Py.startswith (Py.or_str (colorspace info) "") "bt2020"
    then true else false
  else false.

(** [v_pix] as it stands when it is appended to [v_args]. *)
Definition v_pix_of (info : MediaInfo) : string :=
  let v_pix := Py.or_str (pix_fmt info) "yuv420p" in
  if hdr_of info then "p010le" else v_pix.

(** [v_args] just before [v_args += extra_video_args]: everything the
    function itself emits for the video stream.  [nvenc_opts] is the value of
    [get_av1_nvenc_options(ffmpeg_bin)], the set of encoder options reported
    by the installed ffmpeg. *)
Definition builtin_v_args (nvenc_opts : gset string) (info : MediaInfo)
    (cq : option Z) (target_bitrate : option string)
    (extra_video_args : list string) : list string :=
  let v_pix := v_pix_of info in
  let v_args := ["-c:v"; "av1_nvenc"] in
  let v_args :=
    if negb (existsb (fun a => String.eqb a "-preset") extra_video_args)
    then v_args ++ ["-preset"; "p7"] else v_args in
  let v_args :=
    if Py.truthy target_bitrate then
      let tb := Py.or_str target_bitrate "" in
      v_args ++ ["-rc"; "vbr"; "-b:v"; tb; "-maxrate"; tb; "-b_ref_mode"; "middle"]
    else
      let eff_cq := match cq with Some c => c | None => 30%Z end in
      v_args ++ ["-cq"; Py.str_of_int eff_cq; "-rc"; "vbr"; "-b_ref_mode"; "middle"] in
  let v_args :=
    if decide ("spatial_aq" ∈ nvenc_opts) then v_args ++ ["-spatial_aq"; "1"]
    else v_args in
  let v_args :=
    if decide ("temporal_aq" ∈ nvenc_opts) then v_args ++ ["-temporal_aq"; "1"]
    else v_args in
  let v_args := v_args ++ ["-bf"; "3"; "-pix_fmt"; v_pix] in
  let v_args :=
    if Py.truthy (color_primaries info)
    then v_args ++ ["-color_primaries"; Py.or_str (color_primaries info) ""]
    else v_args in
  let v_args :=
    if Py.truthy (color_trc info)
    then v_args ++ ["-color_trc"; Py.or_str (color_trc info) ""]
    else v_args in
  let v_args :=
    if Py.truthy (colorspace info)
    then v_args ++ ["-colorspace"; Py.or_str (colorspace info) ""]
    else v_args in
  v_args.

(** [build_ffmpeg_cmd]: the argument vector and the printed warnings. *)
Definition build_ffmpeg_cmd (nvenc_opts : gset string) (src dst : Path)
    (info : MediaInfo) (cq : option Z) (target_bitrate : option string)
    (audio_bitrate : string) (extra_video_args : list string)
    (ffmpeg_bin : string) : list string * list string :=
  let cmd := [ffmpeg_bin; "-hide_banner"; "-y"; "-nostdin"; "-i"; str src] in
  let cmd := cmd ++ ["-map_metadata"; "0"; "-map_chapters"; "0"] in
  let cmd := cmd ++ ["-map"; "0:v?"; "-map"; "0:a?"; "-map"; "0:s?"; "-map"; "0:t?"] in
  let v_args := builtin_v_args nvenc_opts info cq target_bitrate extra_video_args in
  let v_args := v_args ++ extra_video_args in
  let cmd := cmd ++ v_args in
  let cmd := cmd ++ ["-c:a"; "libopus"; "-b:a"; audio_bitrate; "-vbr"; "on";
                     "-application"; "audio"] in
  let cmd := cmd ++ ["-c:s"; "copy"; "-c:t"; "copy"] in
  let r := audio_loop 0 (audio_streams info) (cmd, []) in
  (r.1 ++ [str dst], r.2).

(** ** process_file: the container choice *)

(** [choose_ext], the local function of [process_file]. *)
Definition choose_ext (p : Path) : string :=
  let src_ext := Py.lower (suffix p) in
  if Py.str_in src_ext [".mkv"; ".webm"] then src_ext else ".mkv".

(** [dest_path] of line 498. *)
Definition dest_path_of (path : Path) (chosen_ext : string) : Path :=
  if String.eqb chosen_ext (Py.lower (suffix path)) then path
  else with_suffix path chosen_ext.

(** [tmp_name] of line 435; [pid] and [rnd] stand for [os.getpid()] and the
    first eight hexadecimal digits of [uuid.uuid4()]. *)
Definition tmp_name (path : Path) (pid rnd chosen_ext : string) : string :=
  stem path +:+ ".av1." +:+ pid +:+ "." +:+ rnd +:+ ".tmp" +:+ chosen_ext.

(** ** The file system

    A file system maps paths to file contents, and a path names a file by
    its exact spelling. Where the file system identifies spellings (letter
    case on Windows), two spellings of one file are one key of the map; the
    statements that depend on it say so, by a hypothesis on the spellings or
    by the map [key] of [no_replace_on]. *)

Module FS.

(** The content of a file. *)
Definition File : Type := string.

(** What the environment does with one request: carry it out, or refuse it
    (the call raises and changes nothing). *)
Inductive verdict : Type := Succeed | Raise.

(** [p.exists()] *)
Definition exists_ (p : Path) (fs : gmap Path File) : bool :=
  bool_decide (is_Some (fs !! p)).

(** [p.unlink()]: raises when there is no such file. *)
Definition unlink (p : Path) (fs : gmap Path File) : option (gmap Path File) :=
  match fs !! p with
  | Some _ => Some (delete p fs)
  | None => None
  end.

(** [a.replace(b)], that is [os.replace]: an atomic rename that overwrites
    [b]; raises when [a] does not exist. *)
Definition replace (a b : Path) (fs : gmap Path File) : option (gmap Path File) :=
  match fs !! a with
  | Some f => Some (<[b := f]> (delete a fs))
  | None => None
  end.

(** An operation under the environment's verdict. *)
Definition attempt (v : verdict) (r : option (gmap Path File))
  : option (gmap Path File) :=
  match v with
  | Succeed => r
  | Raise => None
  end.

(** What [shutil.move] can do: rename, raise without effect, or (when it
    falls back to copying) raise after it has written [partial] to the
    target while the source is still there. *)
Inductive move_verdict : Type :=
| MoveOk
| MoveRaise
| MoveRaiseWritten (partial : File).

(** [shutil.move(a, b)] for two file paths: the new file system and
    whether the call returned ([true]) or raised ([false]). *)
Definition move (v : move_verdict) (a b : Path) (fs : gmap Path File)
  : gmap Path File * bool :=
  match v with
  | MoveOk =>
      match replace a b fs with
      | Some fs' => (fs', true)
      | None => (fs, false)
      end
  | MoveRaise => (fs, false)
  | MoveRaiseWritten g =>
      match fs !! a with
      | Some _ => (<[b := g]> fs, false)
      | None => (fs, false)
      end
  end.

End FS.

Import FS.

(** ** replace_file *)

(** [backup = src.with_suffix(src.suffix + ".bak")] *)
Definition backup_of (src : Path) : Path :=
  with_suffix src (suffix src +:+ ".bak").

(** The points of [replace_file] at which the file system can be observed:
    before each statement that touches it, and after the call has returned or
    raised. *)
Inductive pc : Type :=
| AtStaleBackup   (* line 375: if backup.exists(): backup.unlink()  *)
| AtBackup        (* line 378: if src.exists(): src.replace(backup) *)
| AtClearDest     (* line 381: if dest.exists(): dest.unlink()      *)
| AtPromote       (* line 383: tmp_out.replace(dest)                *)
| AtDropBackup    (* line 385: if backup.exists(): backup.unlink()  *)
| AtRestore       (* line 390: the handler's restore, then raise    *)
| Returned
| Raised.

#[export] Instance pc_eq_dec : EqDecision pc.
Proof. solve_decision. Defined.

Record state : Type := mkState { at_ : pc; fs : gmap Path File }.

(** One statement of [replace_file] under the verdict [v] of the environment
    on the file operation it makes, if it makes one. The first two statements
    are outside the [try]: when they raise, the exception leaves the function
    at once. The tests [p.exists()] only read the file system and are taken
    to answer; a test that raised would leave the file system as it is and
    follow the edge of the refused operation it guards. *)
Definition step (v : verdict) (src tmp_out dest : Path) (s : state) : state :=
  let backup := backup_of src in
  let f := fs s in
  match at_ s with
  | AtStaleBackup =>
      if exists_ backup f then
        match attempt v (unlink backup f) with
        | Some f' => mkState AtBackup f'
        | None => mkState Raised f
        end
      else mkState AtBackup f
  | AtBackup =>
      if exists_ src f then
        match attempt v (replace src backup f) with
        | Some f' => mkState AtClearDest f'
        | None => mkState Raised f
        end
      else mkState AtClearDest f
  | AtClearDest =>
      if exists_ dest f then
        match attempt v (unlink dest f) with
        | Some f' => mkState AtPromote f'
        | None => mkState AtRestore f
        end
      else mkState AtPromote f
  | AtPromote =>
      match attempt v (replace tmp_out dest f) with
      | Some f' => mkState AtDropBackup f'
      | None => mkState AtRestore f
      end
  | AtDropBackup =>
      if exists_ backup f then
        match attempt v (unlink backup f) with
        | Some f' => mkState Returned f'
        | None => mkState AtRestore f
        end
      else mkState Returned f
  | AtRestore =>
      if negb (exists_ src f) && exists_ backup f then
        match attempt v (replace backup src f) with
        | Some f' => mkState Raised f'
        | None => mkState Raised f
        end
      else mkState Raised f
  | Returned => s
  | Raised => s
  end.

Definition final (p : pc) : bool :=
  match p with
  | Returned | Raised => true
  | _ => false
  end.

(** The number of statements that can still be executed from a point. *)
Definition rank (p : pc) : nat :=
  match p with
  | AtStaleBackup => 6
  | AtBackup => 5
  | AtClearDest => 4
  | AtPromote => 3
  | AtDropBackup => 2
  | AtRestore => 1
  | Returned | Raised => 0
  end.

(** The step relation: any verdict of the environment, at any point that is
    not final. *)
Definition step_rel (src tmp_out dest : Path) (s s' : state) : Prop :=
  final (at_ s) = false ∧ ∃ v, s' = step v src tmp_out dest s.

(** The states [replace_file] can go through when it is called on [fs0]. *)
Definition reachable (src tmp_out dest : Path) (fs0 : gmap Path File)
    (s : state) : Prop :=
  rtc (step_rel src tmp_out dest) (mkState AtStaleBackup fs0) s.

(** A whole call under an environment that fixes its verdict per statement
    (each statement is executed at most once). Six steps reach a final point
    from the entry. *)
Fixpoint run (n : nat) (env : pc → verdict) (src tmp_out dest : Path)
    (s : state) : state :=
  match n with
  | O => s
  | S m => run m env src tmp_out dest (step (env (at_ s)) src tmp_out dest s)
  end.

Definition replace_file (env : pc → verdict) (src tmp_out dest : Path)
    (fs0 : gmap Path File) : state :=
  run 6 env src tmp_out dest (mkState AtStaleBackup fs0).

(** ** process_file after a successful encode *)

(** Lines 498-510: the in-place replacement and the report. [cleanup] is the
    verdict on the handler's [tmp_out.unlink()], whose failure is ignored. *)
Definition in_place (env : pc → verdict) (cleanup : verdict)
    (path tmp_out : Path) (chosen_ext : string) (fs0 : gmap Path File)
  : gmap Path File * bool :=
  let dest_path := dest_path_of path chosen_ext in
  let s := replace_file env path tmp_out dest_path fs0 in
  match at_ s with
  | Returned => (fs s, true)
  | _ =>
      if exists_ tmp_out (fs s) then
        match attempt cleanup (unlink tmp_out (fs s)) with
        | Some f' => (f', false)
        | None => (fs s, false)
        end
      else (fs s, false)
  end.

(** The environment of the no-replace branch. *)
Record nr_env : Type := mkNrEnv {
  nr_clear : verdict;        (* final_out.unlink(), line 485          *)
  nr_move : move_verdict;    (* shutil.move, line 486                 *)
  nr_cleanup : verdict       (* tmp_out.unlink() in the handler, 491  *)
}.

(** Lines 480-495: the no-replace branch. The result is the list of file
    systems it goes through, first to last, and the reported success. *)
Definition no_replace (env : nr_env) (path tmp_out : Path)
    (chosen_ext : string) (fs0 : gmap Path File)
  : list (gmap Path File) * bool :=
  let final_out := with_suffix path chosen_ext in
  let handler (seen : list (gmap Path File)) (f : gmap Path File) :=
    if exists_ tmp_out f then
      match attempt (nr_cleanup env) (unlink tmp_out f) with
      | Some f' => (seen ++ [f'], false)
      | None => (seen, false)
      end
    else (seen, false) in
  let cleared :=
    if exists_ final_out fs0
    then attempt (nr_clear env) (unlink final_out fs0)
    else Some fs0 in
  match cleared with
  | None => handler [fs0] fs0
  | Some fs1 =>
      match move (nr_move env) tmp_out final_out fs1 with
      | (fs2, true) => ([fs0; fs1; fs2], true)
      | (fs2, false) => handler [fs0; fs1; fs2] fs2
      end
  end.

(** ** The no-replace branch where spellings are identified

    [key p] is the form under which the file system knows the spelling [p]:
    the identity where letter case is distinguished, a case folding where it
    is not. The file system maps such forms to files, and every operation on
    a spelling acts on its form. *)

(** The spelling of a path with its letters in lower case. *)
Definition fold_case (p : Path) : Path :=
  mkPath (Py.lower (parent p)) (Py.lower (name p)).

(** Lines 480-495 on a file system that identifies spellings by [key]. *)
Definition no_replace_on (key : Path → Path) (env : nr_env)
    (path tmp_out : Path) (chosen_ext : string) (fs0 : gmap Path File)
  : list (gmap Path File) * bool :=
  let final_out := key (with_suffix path chosen_ext) in
  let tmp := key tmp_out in
  let handler (seen : list (gmap Path File)) (f : gmap Path File) :=
    if exists_ tmp f then
      match attempt (nr_cleanup env) (unlink tmp f) with
      | Some f' => (seen ++ [f'], false)
      | None => (seen, false)
      end
    else (seen, false) in
  let cleared :=
    if exists_ final_out fs0
    then attempt (nr_clear env) (unlink final_out fs0)
    else Some fs0 in
  match cleared with
  | None => handler [fs0] fs0
  | Some fs1 =>
      match move (nr_move env) tmp final_out fs1 with
      | (fs2, true) => ([fs0; fs1; fs2], true)
      | (fs2, false) => handler [fs0; fs1; fs2] fs2
      end
  end.

(** ** The specification's channel-mapping table

    The table as the specification words it, on a channel count and a layout
    label, to be compared with [audio_stream_args]. *)

Inductive AudioAction : Type :=
| Family0        (* mapping family 0, no remap filter            *)
| Family1Remap   (* mapping family 1 and the channelmap filter   *)
| Family1        (* mapping family 1, no remap filter            *)
| Family1Warn    (* mapping family 1, no remap filter, a warning *)
| DownmixWarn.   (* downmix to 2 channels, family 0, a warning   *)

Definition spec_audio_table (ch : Z) (label : string) : AudioAction :=
  if (ch <=? 2)%Z then Family0
  else if (ch =? 6)%Z && String.eqb label "5.1(side)" then Family1Remap
  else if (ch =? 6)%Z && (String.eqb label "5.1" || String.eqb label "5.1(back)")
  then Family1
  else if (ch =? 8)%Z
          && (String.eqb label "7.1" || String.eqb label "7.1(wide)"
              || String.eqb label "7.1(wide-side)" || String.eqb label "7.1(rear)")
  then Family1
  else if (ch =? 4)%Z && (String.eqb label "quad" || String.eqb label "4.0")
  then Family1
  else if (ch =? 3)%Z || (ch =? 4)%Z || (ch =? 5)%Z || (ch =? 7)%Z then Family1Warn
  else DownmixWarn.

(** The per-stream arguments an action stands for, for the stream at list
    position [i]. *)
Definition action_args (i : nat) (a : AudioAction) : list string :=
  let idx := Py.str_of_int (Z.of_nat i) in
  match a with
  | Family0 => ["-mapping_family:a:" +:+ idx; "0"]
  | Family1Remap =>
      ["-mapping_family:a:" +:+ idx; "1"; "-filter:a:" +:+ idx;
       "channelmap=map=FL-FL|FR-FR|FC-FC|LFE-LFE|SL-BL|SR-BR"]
  | Family1 | Family1Warn => ["-mapping_family:a:" +:+ idx; "1"]
  | DownmixWarn => ["-ac:a:" +:+ idx; "2"; "-mapping_family:a:" +:+ idx; "0"]
  end.

(** The number of warnings an action prints. *)
Definition action_warnings (a : AudioAction) : nat :=
  match a with
  | Family1Warn | DownmixWarn => 1
  | _ => 0
  end.

(** The strings of an argument vector that come from the caller or from the
    probed file, as opposed to the tokens [build_ffmpeg_cmd] writes itself. *)
Definition caller_strings (src dst : Path) (info : MediaInfo)
    (target_bitrate : option string) (audio_bitrate : string)
    (extra_video_args : list string) (ffmpeg_bin : string) : list string :=
  [ffmpeg_bin; str src; str dst; audio_bitrate;
   Py.or_str target_bitrate ""; Py.or_str (pix_fmt info) "";
   Py.or_str (color_primaries info) ""; Py.or_str (color_trc info) "";
   Py.or_str (colorspace info) ""] ++ extra_video_args.

(** The wide-gamut marker test on a description. *)
Definition has_bt2020_marker (info : MediaInfo) : Prop :=
  Py.startswith (Py.or_str (color_primaries info) "") "bt2020" = true
  ∨ Py.startswith (Py.or_str (colorspace info) "") "bt2020" = true.

(** The parts of the argument vector, in the order in which
    [build_ffmpeg_cmd] appends them. *)
Definition input_args (ffmpeg_bin : string) (src : Path) : list string :=
  [ffmpeg_bin; "-hide_banner"; "-y"; "-nostdin"; "-i"; str src;
   "-map_metadata"; "0"; "-map_chapters"; "0";
   "-map"; "0:v?"; "-map"; "0:a?"; "-map"; "0:s?"; "-map"; "0:t?"].

Definition codec_args (audio_bitrate : string) : list string :=
  ["-c:a"; "libopus"; "-b:a"; audio_bitrate; "-vbr"; "on";
   "-application"; "audio"; "-c:s"; "copy"; "-c:t"; "copy"].

Definition audio_args (streams : list AudioStream) : list string :=
  concat (imap (fun i a => (audio_stream_args i a).1) streams).

Definition audio_warnings (streams : list AudioStream) : list string :=
  concat (imap (fun i a => (audio_stream_args i a).2) streams).

(** The three option names that are written per audio stream. *)
Definition per_stream_options : list string :=
  ["-mapping_family:a:"; "-filter:a:"; "-ac:a:"].

(** An argument vector contains the default preset arguments: the two
    tokens, one after the other. *)
Definition contains_preset_p7 (cmd : list string) : Prop :=
  ∃ pre post, cmd = pre ++ ["-preset"; "p7"] ++ post.

(** The row of the table for a stream: on the label as it is stored in the
    description ([stated_action], the specification's reading), and on the
    label as the loop body normalises it ([stream_action]). *)
Definition stated_action (a : AudioStream) : AudioAction :=
  spec_audio_table (Py.int_or_0 (a_channels a)) (Py.or_str (a_channel_layout a) "").

Definition stream_action (a : AudioStream) : AudioAction :=
  spec_audio_table (Py.int_or_0 (a_channels a))
    (Py.lower (Py.or_str (a_channel_layout a) "")).

(** The optional segments of [v_args], each as the list it contributes. *)
Definition preset_args (extra_video_args : list string) : list string :=
  if negb (existsb (fun a => String.eqb a "-preset") extra_video_args)
  then ["-preset"; "p7"] else [].

Definition aq_args (nvenc_opts : gset string) : list string :=
  (if decide ("spatial_aq" ∈ nvenc_opts) then ["-spatial_aq"; "1"] else [])
  ++ (if decide ("temporal_aq" ∈ nvenc_opts) then ["-temporal_aq"; "1"] else []).

Definition color_args (info : MediaInfo) : list string :=
  (if Py.truthy (color_primaries info)
   then ["-color_primaries"; Py.or_str (color_primaries info) ""] else [])
  ++ (if Py.truthy (color_trc info)
      then ["-color_trc"; Py.or_str (color_trc info) ""] else [])
  ++ (if Py.truthy (colorspace info)
      then ["-colorspace"; Py.or_str (colorspace info) ""] else []).

(** The rate-control arguments of the two modes. *)
Definition bitrate_mode_args (b : string) : list string :=
  ["-rc"; "vbr"; "-b:v"; b; "-maxrate"; b; "-b_ref_mode"; "middle"].

Definition quality_mode_args (cq : option Z) : list string :=
  ["-cq"; Py.str_of_int (default 30%Z cq); "-rc"; "vbr"; "-b_ref_mode"; "middle"].

(** The tokens [build_ffmpeg_cmd] writes in every mode, apart from the
    per-stream option names. *)
Definition common_tokens : list string :=
  ["-hide_banner"; "-y"; "-nostdin"; "-i"; "-map_metadata"; "0";
   "-map_chapters"; "-map"; "0:v?"; "0:a?"; "0:s?"; "0:t?";
   "-c:v"; "av1_nvenc"; "-preset"; "p7"; "-rc"; "vbr"; "-b_ref_mode"; "middle";
   "-spatial_aq"; "1"; "-temporal_aq"; "-bf"; "3"; "-pix_fmt"; "p010le";
   "yuv420p"; "-color_primaries"; "-color_trc"; "-colorspace";
   "-c:a"; "libopus"; "-b:a"; "-vbr"; "on"; "-application"; "audio";
   "-c:s"; "copy"; "-c:t"; "2";
   "channelmap=map=FL-FL|FR-FR|FC-FC|LFE-LFE|SL-BL|SR-BR"].

(** Where the tokens of the argument vector come from. *)
Definition token_origin (caller : list string) (bitrate_mode : bool)
    (cq : option Z) (x : string) : Prop :=
  x ∈ caller
  ∨ x ∈ common_tokens
  ∨ (bitrate_mode = true ∧ (x = "-b:v" ∨ x = "-maxrate"))
  ∨ (bitrate_mode = false ∧ (x = "-cq" ∨ x = Py.str_of_int (default 30%Z cq)))
  ∨ (∃ opt i, opt ∈ per_stream_options ∧ x = opt +:+ Py.str_of_int (Z.of_nat i)).

Ltac literal_token :=
  right; left; apply (bool_decide_unpack _); vm_compute; exact I.

Ltac caller_token :=
  left; unfold caller_strings; rewrite ?elem_of_app, ?elem_of_cons; tauto.

(** The three cases of the specification's invariant, on a file system. *)
Definition original_in_place (src : Path) (f : gmap Path File) : Prop :=
  is_Some (f !! src).

Definition backup_without_dest (src dest : Path) (f : gmap Path File) : Prop :=
  is_Some (f !! backup_of src) ∧ f !! dest = None.

Definition dest_alone (src dest : Path) (f : gmap Path File) : Prop :=
  is_Some (f !! dest) ∧ f !! backup_of src = None ∧ f !! src = None.

(** What holds at each point of [replace_file] when it is entered on [fs0]
    with the file [orig] at [src]. *)
Definition replace_inv (src tmp_out dest : Path) (fs0 : gmap Path File)
    (orig : File) (s : state) : Prop :=
  let f := fs s in
  let backup := backup_of src in
  match at_ s with
  | AtStaleBackup => f = fs0
  | AtBackup =>
      f !! src = Some orig ∧ f !! backup = None ∧ f !! tmp_out = fs0 !! tmp_out
  | AtClearDest =>
      f !! src = None ∧ f !! backup = Some orig ∧ f !! tmp_out = fs0 !! tmp_out
  | AtPromote =>
      f !! src = None ∧ f !! backup = Some orig ∧ f !! dest = None
      ∧ f !! tmp_out = fs0 !! tmp_out
  | AtDropBackup =>
      f !! backup = Some orig ∧ is_Some (f !! dest) ∧ f !! dest = fs0 !! tmp_out
      ∧ f !! tmp_out = None ∧ (dest ≠ src → f !! src = None)
  | Returned =>
      f !! backup = None ∧ is_Some (f !! dest) ∧ f !! dest = fs0 !! tmp_out
      ∧ f !! tmp_out = None ∧ (dest ≠ src → f !! src = None)
  | AtRestore =>
      f !! backup = Some orig ∧ (f !! src = None ∨ dest = src)
  | Raised =>
      f = fs0
      ∨ (f !! src = Some orig ∧ f !! backup = None)
      ∨ (f !! backup = Some orig ∧ (f !! src = None ∨ dest = src))
  end.

(** A source, the output beside it, and a temporary file of the encoder,
    used in the examples below. *)
Definition movie_mp4 : Path := mkPath "videos" "movie.mp4".
Definition movie_mkv : Path := mkPath "videos" "movie.mkv".
Definition movie_tmp : Path :=
  mkPath "videos" (tmp_name movie_mp4 "4242" "0a1b2c3d" ".mkv").

(** An environment that refuses the file operation at one point only. *)
Definition refuse_at (p : pc) : pc → verdict :=
  fun q => if decide (q = p) then Raise else Succeed.

(** ** More of Python's [str] *)

Module PyText.

(** [c.isspace()] for a character below 256. *)
Definition isspace (c : ascii) : bool :=
  let n := N_of_ascii c in
  (((9 <=? n) && (n <=? 13)) || ((28 <=? n) && (n <=? 32))
   || (n =? 133) || (n =? 160))%N.

(** The line boundaries of [str.splitlines] below 256. *)
Definition is_linebreak (c : ascii) : bool :=
  let n := N_of_ascii c in
  (((10 <=? n) && (n <=? 13)) || ((28 <=? n) && (n <=? 30)) || (n =? 133))%N.

Definition newline : string := String (ascii_of_N 10) EmptyString.

(** [s.lstrip()] *)
Fixpoint lstrip (s : string) : string :=
  match s with
  | EmptyString => EmptyString
  | String c r => if isspace c then lstrip r else s
  end.

(** [s.rstrip()] *)
Fixpoint rstrip (s : string) : string :=
  match s with
  | EmptyString => EmptyString
  | String c r =>
      match rstrip r with
      | EmptyString => if isspace c then EmptyString else String c EmptyString
      | r' => String c r'
      end
  end.

(** [s.strip()] *)
Definition strip (s : string) : string := rstrip (lstrip s).

(** [s.splitlines()]: the lines without their boundaries; a carriage return
    followed by a line feed is one boundary; no empty last line. *)
Fixpoint splitlines (s : string) : list string :=
  match s with
  | EmptyString => []
  | String c r =>
      if is_linebreak c then
        match r with
        | String c' r' =>
            if (N_of_ascii c =? 13)%N && (N_of_ascii c' =? 10)%N
            then EmptyString :: splitlines r'
            else EmptyString :: splitlines r
        | EmptyString => [EmptyString]
        end
      else
        match splitlines r with
        | [] => [String c EmptyString]
        | l :: ls => String c l :: ls
        end
  end.

(** The characters of [s] up to its first white space. *)
Fixpoint first_word (s : string) : string :=
  match s with
  | EmptyString => EmptyString
  | String c r => if isspace c then EmptyString else String c (first_word r)
  end.

(** [s.split()[0]]: the first word of [s], [None] for the [IndexError] when
    [s] has no word. *)
Definition split_head (s : string) : option string :=
  match lstrip s with
  | EmptyString => None
  | t => Some (first_word t)
  end.

(** [s.lstrip(x)] for a single character [x]. *)
Fixpoint lstrip_char (x : ascii) (s : string) : string :=
  match s with
  | EmptyString => EmptyString
  | String c r => if Ascii.eqb c x then lstrip_char x r else s
  end.

(** [s.replace(a, b)] for single characters [a] and [b]. *)
Fixpoint replace_char (a b : ascii) (s : string) : string :=
  match s with
  | EmptyString => EmptyString
  | String c r =>
      String (if Ascii.eqb c a then b else c) (replace_char a b r)
  end.

(** [c in s] for a character. *)
Fixpoint has_char (c : ascii) (s : string) : bool :=
  match s with
  | EmptyString => false
  | String x r => Ascii.eqb x c || has_char c r
  end.

(** Every character of [s] passes the test [P]. *)
Fixpoint all_chars (P : ascii → bool) (s : string) : bool :=
  match s with
  | EmptyString => true
  | String x r => P x && all_chars P r
  end.

(** The last character of a string. *)
Fixpoint last_char (s : string) : option ascii :=
  match s with
  | EmptyString => None
  | String c r =>
      match last_char r with
      | Some l => Some l
      | None => Some c
      end
  end.

End PyText.

(** A string that is empty or begins with white space. *)
Definition space_led (r : string) : Prop :=
  r = "" ∨ ∃ w r', r = String w r' ∧ PyText.isspace w = true.

(** ** get_av1_nvenc_options *)

(** What one line of the encoder's help does to the set of options. *)
Inductive line_result : Type :=
| LineSkip
| LineAdd (name : string)
| LineRaise.

(** The body of the loop over [out.splitlines()]. *)
Definition scan_line (line : string) : line_result :=
  let s := PyText.strip line in
  if Py.startswith s "-" && negb (Py.startswith s "--") then
    match PyText.split_head s with
    | None => LineRaise
    | Some word =>
        let name := PyText.lstrip_char "-" word in
        let name := PyText.replace_char "-" "_" name in
        if nonempty name then LineAdd name else LineSkip
    end
  else LineSkip.

(** The loop; an exception leaves it with the options found so far, which
    the [except] clause keeps. *)
Fixpoint scan_lines (lines : list string) (opts : gset string) : gset string :=
  match lines with
  | [] => opts
  | line :: rest =>
      match scan_line line with
      | LineSkip => scan_lines rest opts
      | LineAdd name => scan_lines rest ({[ name ]} ∪ opts)
      | LineRaise => opts
      end
  end.

(** [(res.stdout or "") + "\n" + (res.stderr or "")] *)
Definition help_text (stdout stderr : option string) : string :=
  Py.or_str stdout "" +:+ PyText.newline +:+ Py.or_str stderr "".

(** [get_av1_nvenc_options]. [cache] is the global [_AV1_NVENC_OPTIONS];
    [help ffmpeg_bin] is what running the encoder's help gives: its standard
    output and standard error, or [None] when the call raises. The result is
    the set returned and the new value of the global. *)
Definition get_av1_nvenc_options (cache : option (gset string))
    (help : string → option (option string * option string))
    (ffmpeg_bin : string) : gset string * option (gset string) :=
  match cache with
  | Some opts => (opts, Some opts)
  | None =>
      let opts :=
        match help ffmpeg_bin with
        | Some (out, err) => scan_lines (PyText.splitlines (help_text out err)) ∅
        | None => ∅
        end in
      (opts, Some opts)
  end.

(** ** probe_media *)

(** One element of the ["streams"] array of ffprobe's JSON output, with the
    keys [probe_media] reads; a key that is missing is [None]. *)
Record StreamDict : Type := mkStreamDict {
  st_codec_type : option string;
  st_codec_name : option string;
  st_index : option Z;
  st_channels : option Z;
  st_channel_layout : option string;
  st_channel_layouts : option string;
  st_color_space : option string;
  st_color_transfer : option string;
  st_color_primaries : option string;
  st_pix_fmt : option string
}.

(** The JSON object returned by [run_ffprobe]: its ["streams"] array, if it
    has one, and whether it has any other key. *)
Record ProbeData : Type := mkProbeData {
  pd_streams : option (list StreamDict);
  pd_other_keys : bool
}.

(** [a or b] on optional strings: [a] when it is truthy, else [b]. *)
Definition or_opt (a b : option string) : option string :=
  if Py.truthy a then a else b.

(** [ctype == k] for the optional codec type. *)
Definition has_type (k : string) (st : StreamDict) : bool :=
  match st_codec_type st with
  | Some t => String.eqb t k
  | None => false
  end.

(** [st.get("codec_name") == k] *)
Definition has_codec (k : string) (st : StreamDict) : bool :=
  match st_codec_name st with
  | Some c => String.eqb c k
  | None => false
  end.

(** The audio entry [probe_media] records for a stream. *)
Definition audio_entry (st : StreamDict) : AudioStream :=
  mkAudioStream (st_index st) (st_channels st)
    (or_opt (st_channel_layout st) (st_channel_layouts st)).

(** The first truthy value of a list of optional strings. *)
Definition first_truthy (l : list (option string)) : option (option string) :=
  head (List.filter Py.truthy l).

(** The local variables of [probe_media]. *)
Record ProbeAcc : Type := mkProbeAcc {
  acc_has_video : bool;
  acc_all_video_av1 : bool;
  acc_audio_codecs : list string;
  acc_audio_streams : list AudioStream;
  acc_subtitle_streams : Z;
  acc_attachments : Z;
  acc_colorspace : option string;
  acc_color_primaries : option string;
  acc_color_trc : option string;
  acc_pix_fmt : option string
}.

Definition probe_init : ProbeAcc :=
  mkProbeAcc false true [] [] 0 0 None None None None.

(** The body of the loop over the streams. *)
Definition probe_stream (acc : ProbeAcc) (st : StreamDict) : ProbeAcc :=
  if has_type "video" st then
    mkProbeAcc true
      (match st_codec_name st with
       | Some c => if String.eqb c "av1" then acc_all_video_av1 acc else false
       | None => false
       end)
      (acc_audio_codecs acc) (acc_audio_streams acc)
      (acc_subtitle_streams acc) (acc_attachments acc)
      (or_opt (acc_colorspace acc) (st_color_space st))
      (or_opt (acc_color_primaries acc) (st_color_primaries st))
      (or_opt (acc_color_trc acc) (st_color_transfer st))
      (or_opt (acc_pix_fmt acc) (st_pix_fmt st))
  else if has_type "audio" st then
    mkProbeAcc (acc_has_video acc) (acc_all_video_av1 acc)
      (acc_audio_codecs acc ++ [Py.or_str (st_codec_name st) ""])
      (acc_audio_streams acc
       ++ [mkAudioStream (st_index st) (st_channels st)
             (or_opt (st_channel_layout st) (st_channel_layouts st))])
      (acc_subtitle_streams acc) (acc_attachments acc)
      (acc_colorspace acc) (acc_color_primaries acc) (acc_color_trc acc)
      (acc_pix_fmt acc)
  else if has_type "subtitle" st then
    mkProbeAcc (acc_has_video acc) (acc_all_video_av1 acc)
      (acc_audio_codecs acc) (acc_audio_streams acc)
      (acc_subtitle_streams acc + 1) (acc_attachments acc)
      (acc_colorspace acc) (acc_color_primaries acc) (acc_color_trc acc)
      (acc_pix_fmt acc)
  else if has_type "attachment" st then
    mkProbeAcc (acc_has_video acc) (acc_all_video_av1 acc)
      (acc_audio_codecs acc) (acc_audio_streams acc)
      (acc_subtitle_streams acc) (acc_attachments acc + 1)
      (acc_colorspace acc) (acc_color_primaries acc) (acc_color_trc acc)
      (acc_pix_fmt acc)
  else acc.

(** [probe_media], from the result of [run_ffprobe]: [None] when the
    prober failed, and [None] again for an object without any key. The
    function is modelled on the outputs over which its loop runs: an object
    whose ["streams"], when present, is a list of objects with values as
    ffprobe writes them. On another output (["streams"] null, an entry that
    is no object) the loop raises at line 164 and the exception leaves
    [process_file] at line 420; such outputs are no values of [ProbeData],
    and what is stated about the exceptions of [process_file] is stated for
    calls whose probe returned. *)
Definition probe_media (data : option ProbeData) : option MediaInfo :=
  match data with
  | None => None
  | Some d =>
      match pd_streams d, pd_other_keys d with
      | None, false => None
      | streams, _ =>
          let acc := fold_left probe_stream (default [] streams) probe_init in
          Some (mkMediaInfo (acc_has_video acc)
                  (if acc_has_video acc then acc_all_video_av1 acc else false)
                  (acc_audio_codecs acc) (acc_audio_streams acc)
                  (acc_subtitle_streams acc) (acc_attachments acc)
                  (acc_colorspace acc) (acc_color_primaries acc)
                  (acc_color_trc acc) (acc_pix_fmt acc))
      end
  end.

(** ** is_media_file and the extension whitelist *)

Definition VIDEO_EXTS : gset string :=
  list_to_set [".mp4"; ".mkv"; ".mov"; ".avi"; ".m4v"; ".ts"; ".m2ts"; ".webm"].

(** [is_media_file]; an empty whitelist is falsy, like a missing one. The
    file system holds regular files only, so [is_file] is [exists]. *)
Definition is_media_file (path : Path) (allowed_exts : option (gset string))
    (f : gmap Path File) : bool :=
  let exts :=
    match allowed_exts with
    | Some a => if decide (a = ∅) then VIDEO_EXTS else a
    | None => VIDEO_EXTS
    end in
  exists_ path f && bool_decide (Py.lower (suffix path) ∈ exts).

(** One element of the set comprehension of line 527. *)
Definition normalize_ext (e : string) : string :=
  if Py.startswith e "." then Py.lower e else "." +:+ Py.lower e.

(** [allowed] of line 527. *)
Definition allowed_of (exts : option (list string)) : option (gset string) :=
  match exts with
  | Some (e :: es) => Some (list_to_set (map normalize_ext (e :: es)))
  | _ => None
  end.

(** ** process_file *)

(** What running the encoder gives: it exits with a code, having left
    [written] at the temporary path when that is [Some]; or the call raises
    [FileNotFoundError]; or it raises another exception with text [e]. *)
Inductive ffmpeg_outcome : Type :=
| FfExit (code : Z) (written : option File)
| FfNotFound
| FfError (e : string).

(** The environment of one call of [process_file]. *)
Record pf_env : Type := mkPfEnv {
  pf_probe : option ProbeData;   (* run_ffprobe(path, ffprobe_bin)           *)
  pf_nvenc : gset string;        (* get_av1_nvenc_options(ffmpeg_bin)        *)
  pf_pid : string;               (* os.getpid()                              *)
  pf_rnd : string;               (* uuid.uuid4().hex[:8]                     *)
  pf_mkdir : verdict;            (* chosen_tmp_dir.mkdir, line 451           *)
  pf_ffmpeg : ffmpeg_outcome;    (* subprocess.run(cmd), line 462            *)
  pf_cleanup : verdict;          (* tmp_out.unlink() in a handler            *)
  pf_replace : pc → verdict;     (* the file operations of replace_file      *)
  pf_nr : nr_env;                (* the file operations of the no-replace branch *)
  pf_err : string                (* the text of the exception caught at 487 or 501 *)
}.

(** How a call ends: it returns [(ok, msg)], or an exception leaves it. *)
Inductive pf_result : Type :=
| PfReturn (ok : bool) (msg : string)
| PfRaise.

(** The file system after the call, the lines printed by [process_file] and
    [build_ffmpeg_cmd] (what [run_ffprobe] prints belongs to the
    environment), and how the call ends. *)
Record pf_out : Type := mkPfOut {
  out_fs : gmap Path File;
  out_printed : list string;
  out_result : pf_result
}.

(** [chosen_tmp_dir] of lines 438-450. [drive_of d] stands for
    [getattr(d, "drive", "") or getattr(d, "anchor", "")]. *)
Definition chosen_tmp_dir (drive_of : string → string)
    (temp_dir : option string) (dest_dir : string) : string :=
  match temp_dir with
  | Some td =>
      if String.eqb (drive_of td) (drive_of dest_dir) then td else dest_dir
  | None => dest_dir
  end.

(** [tmp_out] of line 452. *)
Definition tmp_out_of (drive_of : string → string) (env : pf_env)
    (path : Path) (temp_dir : option string) : Path :=
  mkPath (chosen_tmp_dir drive_of temp_dir (parent path))
    (tmp_name path (pf_pid env) (pf_rnd env) (choose_ext path)).

(** The two ways the temporary file is removed after a failed encode: inside
    [try ... finally: return] (line 465), where a refusal is dropped, and
    bare in an [except] clause (lines 472 and 476), where it leaves
    [process_file] as an exception. *)
Definition cleanup_quiet (v : verdict) (tmp_out : Path) (f : gmap Path File)
  : gmap Path File :=
  if exists_ tmp_out f then
    match attempt v (unlink tmp_out f) with
    | Some f' => f'
    | None => f
    end
  else f.

Definition cleanup_bare (v : verdict) (tmp_out : Path) (f : gmap Path File)
  : option (gmap Path File) :=
  if exists_ tmp_out f then attempt v (unlink tmp_out f) else Some f.

Definition process_file (drive_of : string → string) (env : pf_env)
    (path : Path) (cq : option Z) (target_bitrate : option string)
    (audio_bitrate : string) (dry_run no_repl : bool)
    (extra_video_args : list string) (force : bool)
    (temp_dir : option string) (ffmpeg_bin : string)
    (fs0 : gmap Path File) : pf_out :=
  match probe_media (pf_probe env) with
  | None => mkPfOut fs0 [] (PfReturn false ("Probe failed: " +:+ str path))
  | Some info =>
  if already_compliant (Some info) && negb force then
    mkPfOut fs0 [] (PfReturn true ("Skip (already AV1 + Opus): " +:+ str path))
  else
  let chosen_ext := choose_ext path in
  match pf_mkdir env with
  | Raise => mkPfOut fs0 [] PfRaise
  | Succeed =>
  let tmp_out := tmp_out_of drive_of env path temp_dir in
  let built := build_ffmpeg_cmd (pf_nvenc env) path tmp_out info cq
                 target_bitrate audio_bitrate extra_video_args ffmpeg_bin in
  let cmd := built.1 in
  if dry_run then
    mkPfOut fs0 built.2
      (PfReturn true ("DRY-RUN ffmpeg " +:+ String.concat " " (tail cmd)))
  else
  let printed := built.2 ++ ["Running: " +:+ String.concat " " cmd] in
  match pf_ffmpeg env with
  | FfNotFound =>
      match cleanup_bare (pf_cleanup env) tmp_out fs0 with
      | Some f' =>
          mkPfOut f' printed
            (PfReturn false "ffmpeg not found; ensure ffmpeg.exe is in PATH")
      | None => mkPfOut fs0 printed PfRaise
      end
  | FfError e =>
      match cleanup_bare (pf_cleanup env) tmp_out fs0 with
      | Some f' => mkPfOut f' printed (PfReturn false ("Error: " +:+ e))
      | None => mkPfOut fs0 printed PfRaise
      end
  | FfExit code written =>
      let fs1 := match written with
                 | Some w => <[tmp_out := w]> fs0
                 | None => fs0
                 end in
      if negb (code =? 0)%Z then
        mkPfOut (cleanup_quiet (pf_cleanup env) tmp_out fs1) printed
          (PfReturn false ("ffmpeg failed: " +:+ str path))
      else if no_repl then
        let r := no_replace (pf_nr env) path tmp_out chosen_ext fs1 in
        mkPfOut (List.last r.1 fs1) printed
          (if r.2
           then PfReturn true ("Wrote: " +:+ str (with_suffix path chosen_ext))
           else PfReturn false ("Move failed: " +:+ pf_err env))
      else
        let r := in_place (pf_replace env) (pf_cleanup env) path tmp_out
                   chosen_ext fs1 in
        mkPfOut r.1 printed
          (if r.2
           then PfReturn true
                  ("Replaced: " +:+ str (dest_path_of path chosen_ext))
           else PfReturn false ("Replace failed: " +:+ pf_err env))
  end
  end
  end.

(** ** walk_and_process and main *)

(** The loop of [walk_and_process] over the files [os.walk] yields, each
    with the environment of its processing. The result is the final file
    system, the lines printed, the list [results], and whether an exception
    left the loop. *)
Fixpoint walk_files (drive_of : string → string)
    (listing : list (Path * pf_env)) (allowed : option (gset string))
    (cq : option Z) (target_bitrate : option string) (audio_bitrate : string)
    (dry_run no_repl : bool) (extra_video_args : list string) (force : bool)
    (temp_dir : option string) (ffmpeg_bin : string)
    (f : gmap Path File) (printed : list string)
    (results : list (Path * bool * string))
  : gmap Path File * list string * list (Path * bool * string) * bool :=
  match listing with
  | [] => (f, printed, results, false)
  | (p, env) :: rest =>
      if is_media_file p allowed f then
        let o := process_file drive_of env p cq target_bitrate audio_bitrate
                   dry_run no_repl extra_video_args force temp_dir ffmpeg_bin f in
        match out_result o with
        | PfReturn ok msg =>
            walk_files drive_of rest allowed cq target_bitrate audio_bitrate
              dry_run no_repl extra_video_args force temp_dir ffmpeg_bin
              (out_fs o) (printed ++ out_printed o) (results ++ [(p, ok, msg)])
        | PfRaise => (out_fs o, printed ++ out_printed o, results, true)
        end
      else
        walk_files drive_of rest allowed cq target_bitrate audio_bitrate
          dry_run no_repl extra_video_args force temp_dir ffmpeg_bin
          f printed results
  end.

Definition walk_and_process (drive_of : string → string)
    (listing : list (Path * pf_env)) (exts : option (list string))
    (cq : option Z) (target_bitrate : option string) (audio_bitrate : string)
    (dry_run no_repl : bool) (extra_video_args : list string) (force : bool)
    (temp_dir : option string) (ffmpeg_bin : string) (f : gmap Path File)
  : gmap Path File * list string * list (Path * bool * string) * bool :=
  walk_files drive_of listing (allowed_of exts) cq target_bitrate
    audio_bitrate dry_run no_repl extra_video_args force temp_dir ffmpeg_bin
    f [] [].

(** [target_bitrate] of line 594, from [args.bitrate] and [args.cq]. *)
Definition target_bitrate_of_args (bitrate : string) (cq : option Z)
  : option string :=
  match cq with
  | None => Some bitrate
  | Some _ => None
  end.

(** [ok_count] and [fail_count] of lines 611-612. *)
Definition ok_count (results : list (Path * bool * string)) : nat :=
  length (List.filter (fun r => r.1.2) results).

Definition fail_count (results : list (Path * bool * string)) : nat :=
  length (List.filter (fun r => negb r.1.2) results).

(** ** resolve_ffmpeg_dir and ffmpeg_paths *)

(** [c / n] for a directory path [c]. *)
Definition child (c : Path) (n : string) : Path := mkPath (str c) n.

(** The candidate directories of [resolve_ffmpeg_dir], in search order.
    [path_of] stands for the constructor [Path(...)], [environ] for
    [os.environ.get("AV1_ENCODER_FFMPEG_DIR")], [base_dir] for the directory
    of the bundle or of the package. *)
Definition candidates (path_of : string → Path)
    (explicit environ : option string) (base_dir : Path) : list Path :=
  (if Py.truthy explicit then [path_of (Py.or_str explicit "")] else [])
  ++ (if Py.truthy environ then [path_of (Py.or_str environ "")] else [])
  ++ [child base_dir "ffmpeg"].

(** The test of line 56; [ex] answers [p.exists()] for files and
    directories. *)
Definition complete (ex : Path → bool) (c : Path) : bool :=
  ex c && ex (child c "ffmpeg.exe") && ex (child c "ffprobe.exe").

Definition resolve_ffmpeg_dir (path_of : string → Path) (ex : Path → bool)
    (explicit environ : option string) (base_dir : Path) : option Path :=
  List.find (complete ex) (candidates path_of explicit environ base_dir).

Definition ffmpeg_paths (ffmpeg_dir : option Path) : string * string :=
  match ffmpeg_dir with
  | Some d => (str (child d "ffmpeg.exe"), str (child d "ffprobe.exe"))
  | None => ("ffmpeg", "ffprobe")
  end.

(** ** main *)

(** The namespace returned by [parse_args]. *)
Record Args : Type := mkArgs {
  a_input : string;
  a_ext : option (list string);
  a_bitrate : string;
  a_cq : option Z;
  a_audio_bitrate : string;
  a_dry_run : bool;
  a_no_replace : bool;
  a_extra_video_args : option (list string);
  a_force : bool;
  a_temp_dir : option string;
  a_ffmpeg_dir : option string
}.

(** The environment of a run of [main]. *)
Record main_env : Type := mkMainEnv {
  me_path_of : string → Path;          (* Path(...)                        *)
  me_exists : Path → bool;             (* p.exists(), files and directories *)
  me_environ : option string;          (* AV1_ENCODER_FFMPEG_DIR           *)
  me_base_dir : Path;                  (* the bundle or package directory  *)
  me_has_ffprobe : string → bool;      (* has_ffprobe(ffprobe_bin)         *)
  me_has_av1_nvenc : string → bool;    (* has_av1_nvenc(ffmpeg_bin)        *)
  me_drive_of : string → string;
  me_listing : list (Path * pf_env)    (* the files os.walk(root) yields   *)
}.

(** An object handed to [print]: a string, or the triple of the summary
    loop (line 615), which is printed as a tuple. *)
Inductive printed : Type :=
| PLine (s : string)
| PTuple (a b c : string).

(** How [main] ends: [sys.exit(code)], a normal return, or an exception
    that left [walk_and_process]. *)
Inductive main_end : Type :=
| MainExit (code : Z)
| MainDone
| MainRaise.

Definition main (env : main_env) (args : Args) (fs0 : gmap Path File)
  : gmap Path File * list printed * main_end :=
  let root := me_path_of env (a_input args) in
  if negb (me_exists env root) then
    (fs0, [PLine ("Input not found: " +:+ str root)], MainExit 2)
  else
  let extra_video_args := default [] (a_extra_video_args args) in
  let ffmpeg_dir := resolve_ffmpeg_dir (me_path_of env) (me_exists env)
                      (a_ffmpeg_dir args) (me_environ env) (me_base_dir env) in
  let ffmpeg_bin := (ffmpeg_paths ffmpeg_dir).1 in
  let ffprobe_bin := (ffmpeg_paths ffmpeg_dir).2 in
  if negb (me_has_ffprobe env ffprobe_bin) then
    (fs0,
     [PLine "ffprobe not found (looked for). Provide --ffmpeg-dir with ffmpeg.exe & ffprobe.exe or add to PATH."],
     MainExit 3)
  else if negb (a_dry_run args) && negb (me_has_av1_nvenc env ffmpeg_bin) then
    (fs0,
     [PLine "av1_nvenc encoder not available. Ensure you have an FFmpeg build with NVIDIA NVENC support and an RTX 40-series (or newer) GPU."],
     MainExit 4)
  else
  let target_bitrate := target_bitrate_of_args (a_bitrate args) (a_cq args) in
  let temp_dir :=
    if Py.truthy (a_temp_dir args)
    then Some (str (me_path_of env (Py.or_str (a_temp_dir args) "")))
    else None in
  let w := walk_and_process (me_drive_of env) (me_listing env) (a_ext args)
             (a_cq args) target_bitrate (a_audio_bitrate args)
             (a_dry_run args) (a_no_replace args) extra_video_args
             (a_force args) temp_dir ffmpeg_bin fs0 in
  if w.2 then (w.1.1.1, map PLine w.1.1.2, MainRaise)
  else
    let results := w.1.2 in
    (w.1.1.1,
     map PLine w.1.1.2
     ++ map (fun r : Path * bool * string =>
               PTuple (if r.1.2 then "OK" else "FAIL") (name r.1.1) r.2)
          results
     ++ [PLine ("Done: " +:+ Py.str_of_int (Z.of_nat (ok_count results))
                +:+ " OK, "
                +:+ Py.str_of_int (Z.of_nat (fail_count results))
                +:+ " failed")],
     MainDone).

(** ** Sample inputs *)

Definition hevc_stream : StreamDict :=
  mkStreamDict (Some "video") (Some "hevc") (Some 0%Z) None None None
    None None None (Some "yuv420p").

Definition aac_stream : StreamDict :=
  mkStreamDict (Some "audio") (Some "aac") (Some 1%Z) (Some 2%Z)
    (Some "stereo") None None None None None.

Definition hevc_aac_probe : ProbeData :=
  mkProbeData (Some [hevc_stream; aac_stream]) true.

(** An environment for [movie_mp4] whose temporary file is [movie_tmp]. *)
Definition env_with (mkdir : verdict) (ff : ffmpeg_outcome)
    (cleanup : verdict) (rep : pc → verdict) (nr : nr_env) : pf_env :=
  mkPfEnv (Some hevc_aac_probe) ∅ "4242" "0a1b2c3d" mkdir ff cleanup rep nr
    "refused".

Definition calm_env : pf_env :=
  env_with Succeed (FfExit 0 (Some "encoded")) Succeed (fun _ => Succeed)
    (mkNrEnv Succeed MoveOk Succeed).

(** A platform without drive letters, all paths under one anchor. *)
Definition no_drive : string → string := fun _ => "/".

Definition movie_avi : Path := mkPath "videos" "movie.avi".

Definition movie_MKV : Path := mkPath "videos" "movie.MKV".

(** ** Sample inputs of main *)

(** A run on the folder "/videos" in which [os.walk] finds [movie_mp4]; the
    bundled directory "/app/ffmpeg" holds both binaries, ffprobe answers,
    and no AV1 encoder is available. *)
Definition sample_args (dry_run : bool) : Args :=
  mkArgs "videos" None "3000k" None "128k" dry_run false None false None None.

Definition sample_main_env : main_env :=
  mkMainEnv (fun s => mkPath "" s)
    (fun p => bool_decide (p ∈ [mkPath "" "videos";
                                mkPath "/app" "ffmpeg";
                                mkPath "/app/ffmpeg" "ffmpeg.exe";
                                mkPath "/app/ffmpeg" "ffprobe.exe"]))
    None (mkPath "" "app")
    (fun bin => String.eqb bin "/app/ffmpeg/ffprobe.exe")
    (fun _ => false)
    no_drive
    [(movie_mp4, calm_env)].

(** ** Properties of the compliance test *)

Lemma all_opus_spec (l : list string) :
  all_opus l = true ↔ ∀ ac, ac ∈ l → ac ≠ "" → ac = "opus".
Proof.
  unfold all_opus. rewrite forallb_forall. split.
  - intros H ac Hin Hne. apply String.eqb_eq, H.
    apply filter_In. split; [by apply list_elem_of_In|].
    by destruct ac.
  - intros H ac [Hin Hne]%filter_In. apply String.eqb_eq, H.
    + by apply list_elem_of_In.
    + by destruct ac.
Qed.

(** C2. [already_compliant] answers true exactly for a description that has
    video, whose video streams are all AV1, and whose non-empty audio codec
    names are all "opus"; without audio streams the audio condition holds,
    and without video the answer is false whatever the audio codecs are. *)
Theorem already_compliant_iff (d : MediaInfo) :
  (already_compliant (Some d) = true ↔
     has_video d = true ∧ all_video_av1 d = true
     ∧ ∀ ac, ac ∈ audio_codecs d → ac ≠ "" → ac = "opus")
  ∧ (audio_codecs d = [] →
     already_compliant (Some d) = has_video d && all_video_av1 d)
  ∧ (has_video d = false → already_compliant (Some d) = false).
Proof.
  unfold already_compliant. split; [split|split].
  - destruct (has_video d); [|done]. destruct (all_video_av1 d); [|done].
    simpl. destruct (all_opus (audio_codecs d)) eqn:E; [|done].
    intros _. repeat split. by apply all_opus_spec.
  - intros (-> & -> & H). simpl. apply all_opus_spec in H. by rewrite H.
  - intros ->. by destruct (has_video d), (all_video_av1 d).
  - by intros ->.
Qed.

Lemma already_compliant_iff_witness :
  let d := mkMediaInfo false true ["aac"] [] 0 0 None None None None in
  has_video d = false ∧ already_compliant (Some d) = false.
Proof.
  intros d. split; [reflexivity|].
  apply (already_compliant_iff d). reflexivity.
Defined.

(** C8, as stated, fails: an audio codec name replaced by the empty name (the
    name [probe_media] records for a stream without [codec_name]) is not
    "opus", and the description stays compliant. *)
Lemma empty_codec_stays_compliant :
  let d := mkMediaInfo true true ["opus"; "opus"] [] 0 0 None None None None in
  already_compliant (Some d) = true
  ∧ "" ≠ "opus"
  ∧ already_compliant (Some (set_audio_codec 0 "" d)) = true.
Proof. repeat split. discriminate. Qed.

(** C8, amended. In a compliant description, replacing the codec name of any
    one audio stream by a non-empty name other than "opus" gives a
    description that is not compliant. *)
Theorem changed_codec_not_compliant (d : MediaInfo) (k : nat) (c : string) :
  already_compliant (Some d) = true →
  k < length (audio_codecs d) →
  c ≠ "" → c ≠ "opus" →
  already_compliant (Some (set_audio_codec k c d)) = false.
Proof.
  intros _ Hk Hne Hno. unfold already_compliant, set_audio_codec. simpl.
  destruct (has_video d); [|done]. destruct (all_video_av1 d); [|done]. simpl.
  destruct (all_opus _) eqn:E; [|done].
  exfalso. apply Hno. eapply all_opus_spec; [exact E| |exact Hne].
  apply list_elem_of_lookup. exists k. by apply list_lookup_insert_eq.
Qed.

Lemma changed_codec_not_compliant_witness :
  let d := mkMediaInfo true true ["opus"; "opus"] [] 0 0 None None None None in
  already_compliant (Some d) = true
  ∧ already_compliant (Some (set_audio_codec 1 "aac" d)) = false.
Proof.
  intros d. split; [reflexivity|].
  apply (changed_codec_not_compliant d 1 "aac");
    [reflexivity | simpl; lia | discriminate | discriminate].
Defined.

(** ** Strings *)

Lemma append_inj_r (p a b : string) : p +:+ a = p +:+ b → a = b.
Proof. induction p as [|c p IH]; simpl; [done|]. intros [=]. auto. Qed.

Lemma append_length (a b : string) :
  String.length (a +:+ b) = String.length a + String.length b.
Proof. induction a as [|c a IH]; simpl; [done|]. by rewrite IH. Qed.

Lemma str_of_int_parse (z : Z) :
  NilZero.int_of_string (Py.str_of_int z) = Some (Z.to_int z).
Proof.
  unfold Py.str_of_int. apply NilZero.isi.
  - intros E. pose proof (DecimalZ.of_to z) as H. rewrite E in H.
    simpl in H. subst z. discriminate E.
  - intros E. pose proof (DecimalZ.of_to z) as H. rewrite E in H.
    simpl in H. subst z. discriminate E.
Qed.

Lemma str_of_int_inj (a b : Z) : Py.str_of_int a = Py.str_of_int b → a = b.
Proof.
  intros E. apply DecimalZ.to_int_inj.
  pose proof (str_of_int_parse a) as Ha. rewrite E, str_of_int_parse in Ha.
  congruence.
Qed.

(** A string that does not read as a decimal numeral is not the text of an
    integer. *)
Lemma str_of_int_neq (z : Z) (s : string) :
  NilZero.int_of_string s = None → Py.str_of_int z ≠ s.
Proof. intros Hs E. rewrite <- E, str_of_int_parse in Hs. discriminate. Qed.

Lemma str_in_spec (s : string) (l : list string) :
  Py.str_in s l = true ↔ s ∈ l.
Proof.
  unfold Py.str_in. rewrite existsb_exists, list_elem_of_In. split.
  - intros (x & Hin & ->%String.eqb_eq). done.
  - intros Hin. exists s. split; [done|apply String.eqb_refl].
Qed.

(** ** The shape of the argument vector *)

Lemma audio_loop_spec (streams : list AudioStream) (i : nat)
    (st : list string * list string) :
  audio_loop i streams st =
    (st.1 ++ concat (imap (fun k a => (audio_stream_args (i + k) a).1) streams),
     st.2 ++ concat (imap (fun k a => (audio_stream_args (i + k) a).2) streams)).
Proof.
  revert i st. induction streams as [|a rest IH]; intros i [c w]; simpl.
  - by rewrite !app_nil_r.
  - rewrite IH. simpl. rewrite Nat.add_0_r, <- !app_assoc.
    f_equal; do 3 f_equal; apply imap_ext; intros k x _; simpl;
      by replace (i + S k) with (S (i + k)) by lia.
Qed.

Lemma build_ffmpeg_cmd_shape (nvenc_opts : gset string) (src dst : Path)
    (info : MediaInfo) (cq : option Z) (target_bitrate : option string)
    (audio_bitrate : string) (extra_video_args : list string)
    (ffmpeg_bin : string) :
  build_ffmpeg_cmd nvenc_opts src dst info cq target_bitrate audio_bitrate
    extra_video_args ffmpeg_bin
  = (input_args ffmpeg_bin src
     ++ builtin_v_args nvenc_opts info cq target_bitrate extra_video_args
     ++ extra_video_args
     ++ codec_args audio_bitrate
     ++ audio_args (audio_streams info)
     ++ [str dst],
     audio_warnings (audio_streams info)).
Proof.
  unfold build_ffmpeg_cmd. rewrite audio_loop_spec. simpl.
  unfold audio_args, audio_warnings, codec_args.
  f_equal. rewrite <- !app_assoc. simpl. reflexivity.
Qed.

(** ** Per-stream channel mapping *)

Lemma audio_stream_args_table (i : nat) (a : AudioStream) :
  (audio_stream_args i a).1 = action_args i (stream_action a)
  ∧ length (audio_stream_args i a).2 = action_warnings (stream_action a).
Proof.
  unfold audio_stream_args, stream_action, spec_audio_table, Py.str_in.
  set (ch := Py.int_or_0 _). set (layout := Py.lower _). simpl existsb.
  rewrite ?orb_false_r, ?orb_assoc.
  repeat match goal with
         | |- context [if ?b then _ else _] =>
             match b with
             | context [if _ then _ else _] => fail 1
             | _ => destruct b eqn:?; simpl
             end
         end; try done.
Qed.

Lemma audio_warnings_length (streams : list AudioStream) (k : nat) :
  length (concat (imap (fun i a => (audio_stream_args (k + i) a).2) streams))
  = sum_list (map (fun a => action_warnings (stream_action a)) streams).
Proof.
  revert k. induction streams as [|a rest IH]; intros k; [done|].
  cbn [imap concat map sum_list]. rewrite length_app.
  destruct (audio_stream_args_table (k + 0) a) as [_ ->]. f_equal.
  rewrite <- (IH (S k)). do 2 f_equal. apply imap_ext. intros i x _. simpl.
  by replace (k + S i) with (S (k + i)) by lia.
Qed.

Lemma option_name_ordinal (opt : string) (i j : nat) :
  opt +:+ Py.str_of_int (Z.of_nat i) = opt +:+ Py.str_of_int (Z.of_nat j) →
  i = j.
Proof. intros E%append_inj_r%str_of_int_inj. lia. Qed.

(** The concrete cases of the specification, and a file with a stereo and a
    5.1(side) stream. *)
Lemma audio_table_examples :
  audio_stream_args 0 (mkAudioStream (Some 1%Z) (Some 2%Z) (Some "stereo"))
  = (["-mapping_family:a:0"; "0"], [])
  ∧ audio_stream_args 0 (mkAudioStream (Some 1%Z) (Some 6%Z) (Some "5.1"))
    = (["-mapping_family:a:0"; "1"], [])
  ∧ audio_stream_args 2 (mkAudioStream (Some 3%Z) (Some 5%Z) (Some "unknown"))
    = (["-mapping_family:a:2"; "1"],
       ["[WARN] Audio stream 2: 5ch layout 'unknown' may not be Opus standard; check output."])
  ∧ audio_stream_args 1 (mkAudioStream (Some 2%Z) (Some 10%Z) None)
    = (["-ac:a:1"; "2"; "-mapping_family:a:1"; "0"],
       ["[WARN] Audio stream 1: 10ch layout '' not recognized, downmixing to stereo."])
  ∧ audio_args [mkAudioStream (Some 1%Z) (Some 2%Z) (Some "stereo");
                mkAudioStream (Some 2%Z) (Some 6%Z) (Some "5.1(side)")]
    = ["-mapping_family:a:0"; "0";
       "-mapping_family:a:1"; "1"; "-filter:a:1";
       "channelmap=map=FL-FL|FR-FR|FC-FC|LFE-LFE|SL-BL|SR-BR"].
Proof. repeat split. Qed.

(** C1, as stated, fails: the table is not matched on the layout label as the
    description stores it. A six-channel stream labelled "5.1(SIDE)" is in
    none of the table's rows, so the table sends it to the downmix; the loop
    body lower-cases the label first and emits mapping family 1 with the
    channelmap filter. *)
Lemma uppercase_label_not_downmixed :
  let a := mkAudioStream (Some 1%Z) (Some 6%Z) (Some "5.1(SIDE)") in
  stated_action a = DownmixWarn
  ∧ action_args 0 DownmixWarn = ["-ac:a:0"; "2"; "-mapping_family:a:0"; "0"]
  ∧ audio_stream_args 0 a =
      (["-mapping_family:a:0"; "1"; "-filter:a:0";
        "channelmap=map=FL-FL|FR-FR|FC-FC|LFE-LFE|SL-BL|SR-BR"], []).
Proof. repeat split. Qed.

(** C1, amended. Each audio stream is resolved on its own, by its position in
    the list of audio streams, with the first-match table of the
    specification applied to its channel count (a missing count is 0) and to
    its layout label in lower case (a missing label is empty): the arguments
    written for the streams are, in list order, those of the table's action
    at the stream's position, one warning is printed for each stream that
    falls in one of the two warning rows, and the per-stream option names of
    two different positions differ. *)
Theorem audio_resolution_per_stream (nvenc_opts : gset string) (src dst : Path)
    (info : MediaInfo) (cq : option Z) (target_bitrate : option string)
    (audio_bitrate : string) (extra_video_args : list string)
    (ffmpeg_bin : string) :
  let r := build_ffmpeg_cmd nvenc_opts src dst info cq target_bitrate
             audio_bitrate extra_video_args ffmpeg_bin in
  r.1 = input_args ffmpeg_bin src
        ++ builtin_v_args nvenc_opts info cq target_bitrate extra_video_args
        ++ extra_video_args
        ++ codec_args audio_bitrate
        ++ concat (imap (fun i a => action_args i (stream_action a))
                     (audio_streams info))
        ++ [str dst]
  ∧ length r.2
    = sum_list (map (fun a => action_warnings (stream_action a))
                  (audio_streams info))
  ∧ (∀ i a, audio_streams info !! i = Some a →
       (audio_stream_args i a).1 = action_args i (stream_action a)
       ∧ length (audio_stream_args i a).2 = action_warnings (stream_action a))
  ∧ (∀ opt i j, opt ∈ per_stream_options → i ≠ j →
       opt +:+ Py.str_of_int (Z.of_nat i) ≠ opt +:+ Py.str_of_int (Z.of_nat j)).
Proof.
  intros r. subst r. rewrite build_ffmpeg_cmd_shape. cbn [fst snd].
  split; [|split; [|split]].
  - do 4 f_equal. unfold audio_args. do 2 f_equal. apply imap_ext.
    intros i a _. apply audio_stream_args_table.
  - unfold audio_warnings. apply (audio_warnings_length _ 0).
  - intros i a _. apply audio_stream_args_table.
  - intros opt i j _ Hij E. by apply Hij, option_name_ordinal with opt.
Qed.

(** ** The video arguments *)

Lemma if_app {A} (b : bool) (l x : list A) :
  (if b then l ++ x else l) = l ++ (if b then x else []).
Proof. destruct b; [done|by rewrite app_nil_r]. Qed.

Lemma if_decide_app {A} (P : Prop) `{Decision P} (l x : list A) :
  (if decide P then l ++ x else l) = l ++ (if decide P then x else []).
Proof. destruct (decide P); [done|by rewrite app_nil_r]. Qed.

Lemma builtin_v_args_segments (nvenc_opts : gset string) (info : MediaInfo)
    (cq : option Z) (target_bitrate : option string)
    (extra_video_args : list string) :
  builtin_v_args nvenc_opts info cq target_bitrate extra_video_args
  = ["-c:v"; "av1_nvenc"] ++ preset_args extra_video_args
    ++ (if Py.truthy target_bitrate
        then bitrate_mode_args (Py.or_str target_bitrate "")
        else quality_mode_args cq)
    ++ aq_args nvenc_opts
    ++ ["-bf"; "3"; "-pix_fmt"; v_pix_of info]
    ++ color_args info.
Proof.
  unfold builtin_v_args, preset_args, aq_args, color_args. cbv zeta.
  rewrite !if_app, !if_decide_app.
  replace (if Py.truthy target_bitrate then _ else _)
    with ((["-c:v"; "av1_nvenc"]
           ++ (if negb (existsb (fun a => String.eqb a "-preset") extra_video_args)
               then ["-preset"; "p7"] else []))
          ++ (if Py.truthy target_bitrate
              then bitrate_mode_args (Py.or_str target_bitrate "")
              else quality_mode_args cq)).
  - by rewrite <- !app_assoc.
  - destruct (Py.truthy target_bitrate); [done|]. by destruct cq.
Qed.

Lemma elem_of_concat {A} (x : A) (ls : list (list A)) :
  x ∈ concat ls ↔ ∃ l, l ∈ ls ∧ x ∈ l.
Proof.
  rewrite list_elem_of_In, in_concat. split; intros (l & H1 & H2); exists l.
  - by rewrite !list_elem_of_In.
  - by rewrite <- !list_elem_of_In.
Qed.

Lemma audio_args_tokens (streams : list AudioStream) (x : string) :
  x ∈ audio_args streams →
  x ∈ common_tokens
  ∨ ∃ opt i, opt ∈ per_stream_options ∧ x = opt +:+ Py.str_of_int (Z.of_nat i).
Proof.
  unfold audio_args. intros (l & Hl & Hx)%elem_of_concat.
  apply elem_of_lookup_imap in Hl as (i & a & -> & _).
  destruct (audio_stream_args_table i a) as [E _]. rewrite E in Hx.
  assert (∀ o, o ∈ per_stream_options →
            ∃ opt j, opt ∈ per_stream_options
                     ∧ o +:+ Py.str_of_int (Z.of_nat i)
                       = opt +:+ Py.str_of_int (Z.of_nat j)) as Hopt
      by (intros o Ho; by exists o, i).
  assert ("-mapping_family:a:" ∈ per_stream_options) as H1
      by (apply (bool_decide_unpack _); vm_compute; exact I).
  assert ("-filter:a:" ∈ per_stream_options) as H2
      by (apply (bool_decide_unpack _); vm_compute; exact I).
  assert ("-ac:a:" ∈ per_stream_options) as H3
      by (apply (bool_decide_unpack _); vm_compute; exact I).
  destruct (stream_action a); unfold action_args in Hx;
    rewrite ?elem_of_cons, elem_of_nil in Hx;
    repeat destruct Hx as [->|Hx]; try done;
    first [ right; by apply Hopt
          | left; apply (bool_decide_unpack _); vm_compute; exact I ].
Qed.

Lemma v_pix_of_origin (info : MediaInfo) :
  v_pix_of info = "p010le" ∨ v_pix_of info = "yuv420p"
  ∨ v_pix_of info = Py.or_str (pix_fmt info) "".
Proof.
  unfold v_pix_of. destruct (hdr_of info); [by left|].
  right. destruct (pix_fmt info) as [[|c s]|]; simpl; auto.
Qed.

Lemma cmd_token_origin (nvenc_opts : gset string) (src dst : Path)
    (info : MediaInfo) (cq : option Z) (target_bitrate : option string)
    (audio_bitrate : string) (extra_video_args : list string)
    (ffmpeg_bin : string) (x : string) :
  x ∈ (build_ffmpeg_cmd nvenc_opts src dst info cq target_bitrate
         audio_bitrate extra_video_args ffmpeg_bin).1 →
  token_origin
    (caller_strings src dst info target_bitrate audio_bitrate
       extra_video_args ffmpeg_bin)
    (Py.truthy target_bitrate) cq x.
Proof.
  rewrite build_ffmpeg_cmd_shape, builtin_v_args_segments. cbn [fst].
  unfold token_origin.
  rewrite !elem_of_app. intros [H|[[H|[H|[H|[H|[H|H]]]]]|[H|[H|[H|H]]]]].
  - unfold input_args in H. rewrite ?elem_of_cons, elem_of_nil in H.
    repeat destruct H as [->|H]; try done;
      first [ literal_token | caller_token ].
  - rewrite ?elem_of_cons, elem_of_nil in H.
    repeat destruct H as [->|H]; try done; literal_token.
  - unfold preset_args in H. destruct (negb _);
      rewrite ?elem_of_cons, elem_of_nil in H;
      repeat destruct H as [->|H]; try done; literal_token.
  - destruct (Py.truthy target_bitrate) eqn:Et.
    + unfold bitrate_mode_args in H. rewrite ?elem_of_cons, elem_of_nil in H.
      repeat destruct H as [->|H]; try done;
        first [ literal_token | caller_token | right; right; left; tauto ].
    + unfold quality_mode_args in H. rewrite ?elem_of_cons, elem_of_nil in H.
      repeat destruct H as [->|H]; try done;
        first [ literal_token | do 3 right; left; tauto ].
  - unfold aq_args in H. rewrite elem_of_app in H.
    destruct (decide _), (decide _);
      rewrite ?elem_of_cons, ?elem_of_nil in H;
      repeat destruct H as [H|H]; try done; subst x; literal_token.
  - rewrite ?elem_of_cons, elem_of_nil in H.
    destruct H as [->|[->|[->|[->|H]]]]; try done; try literal_token.
    destruct (v_pix_of_origin info) as [E|[E|E]]; rewrite E;
      first [ literal_token | caller_token ].
  - unfold color_args in H. rewrite !elem_of_app in H.
    destruct (Py.truthy (color_primaries info)), (Py.truthy (color_trc info)),
      (Py.truthy (colorspace info));
      rewrite ?elem_of_cons, ?elem_of_nil in H;
      repeat destruct H as [H|H]; try done; subst x;
      first [ literal_token | caller_token ].
  - caller_token.
  - unfold codec_args in H. rewrite ?elem_of_cons, elem_of_nil in H.
    repeat destruct H as [->|H]; try done;
      first [ literal_token | caller_token ].
  - apply audio_args_tokens in H as [H|H]; [by right; left|by do 4 right].
  - apply list_elem_of_singleton in H as ->. caller_token.
Qed.

(** ** Rate control *)

Lemma prefix_append (p s : string) : String.prefix p (p +:+ s) = true.
Proof.
  induction p as [|c p IH]; simpl; [by destruct s|].
  by destruct (ascii_dec c c).
Qed.

Lemma per_stream_option_neq (x : string) :
  forallb (fun opt => negb (String.prefix opt x)) per_stream_options = true →
  ¬ ∃ opt i, opt ∈ per_stream_options ∧ x = opt +:+ Py.str_of_int (Z.of_nat i).
Proof.
  intros Hx (opt & i & Hopt & ->). rewrite forallb_forall in Hx.
  apply list_elem_of_In, Hx in Hopt. by rewrite prefix_append in Hopt.
Qed.

(** A token that is neither the caller's, nor common to both modes, nor a
    per-stream option name, nor a decimal numeral is in the vector only in
    the mode that writes it. *)
Lemma mode_token (caller : list string) (mode : bool) (cq : option Z)
    (x : string) :
  token_origin caller mode cq x →
  x ∉ caller →
  bool_decide (x ∈ common_tokens) = false →
  (¬ ∃ opt i, opt ∈ per_stream_options ∧ x = opt +:+ Py.str_of_int (Z.of_nat i)) →
  NilZero.int_of_string x = None →
  (mode = true ∧ (x = "-b:v" ∨ x = "-maxrate")) ∨ (mode = false ∧ x = "-cq").
Proof.
  intros [H|[H|[H|[[Hm [H|H]]|H]]]] Hc Hk Hp Hn; try done.
  - by apply bool_decide_eq_false in Hk.
  - by left.
  - by right.
  - exfalso. by apply (str_of_int_neq (default 30%Z cq) x).
Qed.

(** C5, as stated, fails: the extra video arguments are passed through, so a
    plan in bitrate mode contains a constant-quality argument whenever the
    caller supplies one there. *)
Lemma passthrough_cq_in_bitrate_mode :
  let info := mkMediaInfo true false ["aac"]
                [mkAudioStream (Some 1%Z) (Some 2%Z) (Some "stereo")]
                0 0 None None None (Some "yuv420p") in
  let cmd := (build_ffmpeg_cmd ∅ (mkPath "videos" "movie.mp4")
                (mkPath "videos" "movie.av1.4242.0a1b2c3d.tmp.mkv") info None
                (Some "3000k") "128k" ["-cq"; "20"] "ffmpeg").1 in
  "-b:v" ∈ cmd ∧ "-maxrate" ∈ cmd ∧ "-cq" ∈ cmd.
Proof.
  repeat split; apply (bool_decide_unpack _); vm_compute; exact I.
Qed.

(** C5, amended. The function writes exactly one rate-control block, chosen
    by the target bitrate: when a non-empty target bitrate is given, the
    bitrate-bounded VBR block with the maximum rate equal to the target and
    the 'middle' b_ref_mode; when the target bitrate is missing or empty, the
    constant-quality VBR block with the given quality value, or 30 when none
    is given. The block stands right after the preset arguments. A
    constant-quality option in the first case, or a bitrate or max-rate
    option in the second, is in the vector only if it is one of the strings
    handed in by the caller (the extra video arguments among them). *)
Theorem rate_control_exclusive (nvenc_opts : gset string) (src dst : Path)
    (info : MediaInfo) (cq : option Z) (target_bitrate : option string)
    (audio_bitrate : string) (extra_video_args : list string)
    (ffmpeg_bin : string) :
  let cmd := (build_ffmpeg_cmd nvenc_opts src dst info cq target_bitrate
                audio_bitrate extra_video_args ffmpeg_bin).1 in
  let caller := caller_strings src dst info target_bitrate audio_bitrate
                  extra_video_args ffmpeg_bin in
  let pre := input_args ffmpeg_bin src ++ ["-c:v"; "av1_nvenc"]
             ++ preset_args extra_video_args in
  let post := aq_args nvenc_opts ++ ["-bf"; "3"; "-pix_fmt"; v_pix_of info]
              ++ color_args info ++ extra_video_args
              ++ codec_args audio_bitrate
              ++ audio_args (audio_streams info) ++ [str dst] in
  (∀ b, target_bitrate = Some b → b ≠ "" →
     cmd = pre
           ++ ["-rc"; "vbr"; "-b:v"; b; "-maxrate"; b; "-b_ref_mode"; "middle"]
           ++ post
     ∧ ("-cq" ∉ caller → "-cq" ∉ cmd))
  ∧ (target_bitrate = None ∨ target_bitrate = Some "" →
     cmd = pre
           ++ ["-cq"; Py.str_of_int (default 30%Z cq); "-rc"; "vbr";
               "-b_ref_mode"; "middle"]
           ++ post
     ∧ ("-b:v" ∉ caller → "-b:v" ∉ cmd)
     ∧ ("-maxrate" ∉ caller → "-maxrate" ∉ cmd)).
Proof.
  intros cmd caller pre post.
  assert (∀ x, x ∈ cmd → token_origin caller (Py.truthy target_bitrate) cq x)
    as Horigin by (intros x; apply cmd_token_origin).
  assert (cmd = pre
                ++ (if Py.truthy target_bitrate
                    then bitrate_mode_args (Py.or_str target_bitrate "")
                    else quality_mode_args cq)
                ++ post) as Hcmd.
  { subst cmd pre post. rewrite build_ffmpeg_cmd_shape, builtin_v_args_segments.
    cbn [fst]. by rewrite <- !app_assoc. }
  split.
  - intros b -> Hb.
    assert (Py.truthy (Some b) = true) as Ht by (by destruct b).
    split.
    + rewrite Hcmd, Ht. by destruct b.
    + intros Hc Hin. apply Horigin in Hin. rewrite Ht in Hin.
      eapply mode_token in Hin as [[_ [?|?]]|[? _]]; try done.
      by apply per_stream_option_neq.
  - intros Hnone.
    assert (Py.truthy target_bitrate = false) as Ht
        by (by destruct Hnone as [->| ->]).
    split; [|split].
    + by rewrite Hcmd, Ht.
    + intros Hc Hin. apply Horigin in Hin. rewrite Ht in Hin.
      eapply mode_token in Hin as [[? _]|[_ ?]]; try done.
      by apply per_stream_option_neq.
    + intros Hc Hin. apply Horigin in Hin. rewrite Ht in Hin.
      eapply mode_token in Hin as [[? _]|[_ ?]]; try done.
      by apply per_stream_option_neq.
Qed.

Lemma rate_control_exclusive_witness :
  let info := mkMediaInfo true false ["aac"]
                [mkAudioStream (Some 1%Z) (Some 2%Z) (Some "stereo")]
                0 0 None None None (Some "yuv420p") in
  "-cq" ∉ (build_ffmpeg_cmd ∅ (mkPath "videos" "movie.mp4")
             (mkPath "videos" "movie.av1.4242.0a1b2c3d.tmp.mkv") info None
             (Some "3000k") "128k" ["-tune"; "hq"] "ffmpeg").1.
Proof.
  intros info.
  assert ("3000k" ≠ "") as Hb by discriminate.
  destruct (proj1 (rate_control_exclusive ∅ (mkPath "videos" "movie.mp4")
                     (mkPath "videos" "movie.av1.4242.0a1b2c3d.tmp.mkv") info
                     None (Some "3000k") "128k" ["-tune"; "hq"] "ffmpeg")
              "3000k" eq_refl Hb) as [_ H].
  apply H. apply (bool_decide_unpack _). vm_compute. exact I.
Defined.

(** ** Pixel format *)

Lemma hdr_of_marker (info : MediaInfo) :
  hdr_of info = true ↔ has_bt2020_marker info.
Proof.
  unfold hdr_of, has_bt2020_marker.
  set (a := Py.startswith (Py.or_str (color_primaries info) "") "bt2020").
  set (b := Py.startswith (Py.or_str (colorspace info) "") "bt2020").
  assert (Py.truthy (color_primaries info) = false → a = false) as Ha
      by (subst a; by destruct (color_primaries info) as [[|c s]|]).
  assert (Py.truthy (colorspace info) = false → b = false) as Hb
      by (subst b; by destruct (colorspace info) as [[|c s]|]).
  destruct (Py.truthy (color_primaries info)), (Py.truthy (color_trc info)),
    (Py.truthy (colorspace info)), a, b; simpl;
    try (by specialize (Ha eq_refl)); try (by specialize (Hb eq_refl));
    intuition congruence.
Qed.

(** C6, as stated, fails in one direction: a source that reports the pixel
    format "p010le" itself and carries no wide-gamut marker gets the
    pixel-format argument "p010le". *)
Lemma reported_p010le_without_marker :
  let info := mkMediaInfo true false [] [] 0 0
                (Some "bt709") (Some "bt709") (Some "bt709") (Some "p010le") in
  ¬ has_bt2020_marker info
  ∧ builtin_v_args ∅ info None (Some "3000k") []
    = ["-c:v"; "av1_nvenc"; "-preset"; "p7"; "-rc"; "vbr"; "-b:v"; "3000k";
       "-maxrate"; "3000k"; "-b_ref_mode"; "middle"; "-bf"; "3";
       "-pix_fmt"; "p010le";
       "-color_primaries"; "bt709"; "-color_trc"; "bt709"; "-colorspace"; "bt709"].
Proof.
  split; [|reflexivity]. by intros [?|?].
Qed.

(** C6, amended. The pixel-format argument is written after "-bf 3" and
    before the colour metadata. It is "p010le" whenever the colour primaries
    or the colour space begin with "bt2020"; in every other case it is the
    reported pixel format when there is a non-empty one, and "yuv420p" when
    there is none. So it is "p010le" exactly when a marker is present or the
    reported pixel format is itself "p010le". *)
Theorem pixel_format_policy (nvenc_opts : gset string) (info : MediaInfo)
    (cq : option Z) (target_bitrate : option string)
    (extra_video_args : list string) :
  (∃ pre, builtin_v_args nvenc_opts info cq target_bitrate extra_video_args
          = pre ++ ["-bf"; "3"; "-pix_fmt"; v_pix_of info] ++ color_args info)
  ∧ (has_bt2020_marker info → v_pix_of info = "p010le")
  ∧ (¬ has_bt2020_marker info →
     (∀ s, pix_fmt info = Some s → s ≠ "" → v_pix_of info = s)
     ∧ (pix_fmt info = None ∨ pix_fmt info = Some "" → v_pix_of info = "yuv420p"))
  ∧ (v_pix_of info = "p010le"
     ↔ has_bt2020_marker info ∨ pix_fmt info = Some "p010le").
Proof.
  split; [|split; [|split]].
  - rewrite builtin_v_args_segments. eexists. by rewrite !app_assoc.
  - intros H%hdr_of_marker. unfold v_pix_of. by rewrite H.
  - intros H. unfold v_pix_of. destruct (hdr_of info) eqn:E.
    { by apply hdr_of_marker in E. }
    split.
    + intros s -> Hs. by destruct s.
    + by intros [->| ->].
  - unfold v_pix_of. destruct (hdr_of info) eqn:E.
    + apply hdr_of_marker in E. tauto.
    + split.
      * intros H. right. destruct (pix_fmt info) as [[|c s]|]; simpl in H;
          try discriminate. by rewrite H.
      * intros [H%hdr_of_marker| ->]; [congruence|done].
Qed.

Lemma pixel_format_policy_witness :
  let info := mkMediaInfo true false [] [] 0 0
                (Some "bt2020nc") (Some "bt2020") (Some "smpte2084")
                (Some "yuv420p10le") in
  has_bt2020_marker info ∧ v_pix_of info = "p010le".
Proof.
  intros info. assert (has_bt2020_marker info) as H by (left; reflexivity).
  split; [exact H|].
  exact (proj1 (proj2 (pixel_format_policy ∅ info None None [])) H).
Defined.

(** ** The default preset *)

Lemma has_preset_token (extra_video_args : list string) :
  existsb (fun a => String.eqb a "-preset") extra_video_args = true
  ↔ "-preset" ∈ extra_video_args.
Proof.
  rewrite existsb_exists, list_elem_of_In. split.
  - by intros (x & Hin & ->%String.eqb_eq).
  - intros Hin. by exists "-preset".
Qed.

(** C10, as stated, fails in one direction: when the caller passes
    "-preset p7" itself, the vector contains the preset arguments although
    the extra video arguments contain the token "-preset". *)
Lemma caller_preset_p7_in_vector :
  let info := mkMediaInfo true false [] [] 0 0 None None None None in
  let extra := ["-preset"; "p7"] in
  "-preset" ∈ extra
  ∧ contains_preset_p7
      (build_ffmpeg_cmd ∅ (mkPath "videos" "movie.mp4")
         (mkPath "videos" "movie.av1.4242.0a1b2c3d.tmp.mkv") info None
         (Some "3000k") "128k" extra "ffmpeg").1.
Proof.
  split; [apply (bool_decide_unpack _); vm_compute; exact I|].
  exists (input_args "ffmpeg" (mkPath "videos" "movie.mp4")
          ++ ["-c:v"; "av1_nvenc"; "-rc"; "vbr"; "-b:v"; "3000k";
              "-maxrate"; "3000k"; "-b_ref_mode"; "middle";
              "-bf"; "3"; "-pix_fmt"; "yuv420p"]),
         (codec_args "128k" ++ ["videos/movie.av1.4242.0a1b2c3d.tmp.mkv"]).
  reflexivity.
Qed.

(** Two adjacent elements of a list made of three parts lie both in the
    middle part, or one of them lies in an outer part. *)
Lemma pair_in_middle {A} (l1 m l2 pre post : list A) (a b : A) :
  l1 ++ m ++ l2 = pre ++ [a; b] ++ post →
  (∃ pre' post', m = pre' ++ [a; b] ++ post')
  ∨ a ∈ l1 ++ l2 ∨ b ∈ l1 ++ l2.
Proof.
  intros E.
  assert ((l1 ++ m ++ l2) !! length pre = Some a) as Ha.
  { rewrite E. by rewrite lookup_app_r, Nat.sub_diag by lia. }
  assert ((l1 ++ m ++ l2) !! S (length pre) = Some b) as Hb.
  { rewrite E. rewrite lookup_app_r by lia.
    by replace (S (length pre) - length pre) with 1 by lia. }
  destruct (decide (length pre < length l1)) as [H1|H1].
  { right. left. rewrite lookup_app_l in Ha by done.
    apply elem_of_app. left. by eapply list_elem_of_lookup_2. }
  rewrite lookup_app_r in Ha by lia. rewrite lookup_app_r in Hb by lia.
  replace (S (length pre) - length l1) with (S (length pre - length l1))
    in Hb by lia.
  set (j := length pre - length l1) in *.
  destruct (decide (S j < length m)) as [H2|H2].
  - left. rewrite lookup_app_l in Ha by lia.
    rewrite lookup_app_l in Hb by lia.
    exists (firstn j m), (skipn (S (S j)) m).
    rewrite <- (firstn_skipn j m) at 1. f_equal.
    rewrite (drop_S m a j Ha). f_equal.
    by rewrite (drop_S m b (S j) Hb).
  - right. right. rewrite lookup_app_r in Hb by lia.
    apply elem_of_app. right. by eapply list_elem_of_lookup_2.
Qed.

(** Outside the extra arguments and the default preset, the tokens
    "-preset" and "p7" are in the vector only as strings handed in. *)
Lemma preset_token_handed_in (nvenc_opts : gset string) (src dst : Path)
    (info : MediaInfo) (cq : option Z) (target_bitrate : option string)
    (audio_bitrate : string) (ffmpeg_bin : string) (x : string) :
  x = "-preset" ∨ x = "p7" →
  x ∈ (input_args ffmpeg_bin src ++ ["-c:v"; "av1_nvenc"]
       ++ (if Py.truthy target_bitrate
           then bitrate_mode_args (Py.or_str target_bitrate "")
           else quality_mode_args cq)
       ++ aq_args nvenc_opts ++ ["-bf"; "3"; "-pix_fmt"; v_pix_of info]
       ++ color_args info)
      ++ (codec_args audio_bitrate ++ audio_args (audio_streams info)
          ++ [str dst]) →
  x ∈ caller_strings src dst info target_bitrate audio_bitrate [] ffmpeg_bin.
Proof.
  intros Hx.
  assert (NilZero.int_of_string x = None) as Hnum
      by (destruct Hx as [-> | ->]; reflexivity).
  assert (¬ ∃ opt i, opt ∈ per_stream_options
                     ∧ x = opt +:+ Py.str_of_int (Z.of_nat i)) as Hopt
      by (apply per_stream_option_neq; destruct Hx as [-> | ->]; reflexivity).
  unfold caller_strings. rewrite app_nil_r.
  rewrite !elem_of_app.
  intros [[H|[H|[H|[H|[H|H]]]]]|[H|[H|H]]].
  - unfold input_args in H. rewrite ?elem_of_cons, elem_of_nil in H.
    rewrite ?elem_of_cons.
    repeat destruct H as [H|H]; try tauto;
      destruct Hx as [-> | ->]; discriminate H.
  - rewrite ?elem_of_cons, elem_of_nil in H.
    repeat destruct H as [H|H]; try done;
      destruct Hx as [-> | ->]; discriminate H.
  - destruct (Py.truthy target_bitrate).
    + unfold bitrate_mode_args in H. rewrite ?elem_of_cons, elem_of_nil in H.
      rewrite ?elem_of_cons.
      repeat destruct H as [H|H]; try tauto;
        destruct Hx as [-> | ->]; discriminate H.
    + unfold quality_mode_args in H. rewrite ?elem_of_cons, elem_of_nil in H.
      repeat destruct H as [H|H]; try done.
      all: try (destruct Hx as [-> | ->]; discriminate H).
      exfalso. by apply (str_of_int_neq (default 30%Z cq) x).
  - unfold aq_args in H. rewrite elem_of_app in H.
    destruct (decide _), (decide _);
      rewrite ?elem_of_cons, ?elem_of_nil in H;
      repeat destruct H as [H|H]; try done;
      destruct Hx as [-> | ->]; discriminate H.
  - rewrite ?elem_of_cons, elem_of_nil in H. rewrite ?elem_of_cons.
    destruct H as [H|[H|[H|[H|H]]]]; try done.
    1-3: destruct Hx as [-> | ->]; discriminate H.
    destruct (v_pix_of_origin info) as [E|[E|E]]; rewrite E in H;
      first [ tauto | destruct Hx as [-> | ->]; discriminate H ].
  - unfold color_args in H. rewrite !elem_of_app in H.
    rewrite ?elem_of_cons.
    destruct (Py.truthy (color_primaries info)),
             (Py.truthy (color_trc info)), (Py.truthy (colorspace info));
      rewrite ?elem_of_cons, ?elem_of_nil in H;
      repeat destruct H as [H|H]; try tauto;
      destruct Hx as [-> | ->]; discriminate H.
  - unfold codec_args in H. rewrite ?elem_of_cons, elem_of_nil in H.
    rewrite ?elem_of_cons.
    repeat destruct H as [H|H]; try tauto;
      destruct Hx as [-> | ->]; discriminate H.
  - exfalso. unfold audio_args in H.
    apply elem_of_concat in H as (l & Hl & H).
    apply elem_of_lookup_imap in Hl as (i & a & -> & _).
    destruct (audio_stream_args_table i a) as [Et _]. rewrite Et in H.
    destruct (stream_action a); unfold action_args in H;
      rewrite ?elem_of_cons, elem_of_nil in H;
      repeat destruct H as [H|H]; try done;
      first [ apply Hopt; eexists _, i; split; [|exact H];
              apply (bool_decide_unpack _); vm_compute; exact I
            | destruct Hx as [-> | ->]; discriminate H ].
  - rewrite elem_of_cons, elem_of_nil in H. rewrite ?elem_of_cons.
    destruct H as [H|[]]. tauto.
Qed.

(** C10, amended. The function itself writes the preset arguments
    "-preset p7", right after "-c:v av1_nvenc", if and only if the extra
    video arguments do not contain the token "-preset"; the extra video
    arguments stand after all the video arguments the function writes, and
    before the audio arguments. When the extra arguments have no "-preset"
    token the vector therefore contains "-preset p7". When they have one,
    the function writes no preset token of its own, and the vector contains
    "-preset p7" only if the extra arguments contain that pair themselves,
    or one of the other strings handed in (the binary, the two paths, the
    bitrates, the probed pixel format and colour values) is "-preset" or
    "p7". *)
Theorem default_preset_iff (nvenc_opts : gset string) (src dst : Path)
    (info : MediaInfo) (cq : option Z) (target_bitrate : option string)
    (audio_bitrate : string) (extra_video_args : list string)
    (ffmpeg_bin : string) :
  let cmd := (build_ffmpeg_cmd nvenc_opts src dst info cq target_bitrate
                audio_bitrate extra_video_args ffmpeg_bin).1 in
  let v_args := builtin_v_args nvenc_opts info cq target_bitrate
                  extra_video_args in
  let handed_in := caller_strings src dst info target_bitrate audio_bitrate
                     [] ffmpeg_bin in
  ((∃ rest, v_args = ["-c:v"; "av1_nvenc"; "-preset"; "p7"] ++ rest)
   ↔ "-preset" ∉ extra_video_args)
  ∧ cmd = input_args ffmpeg_bin src ++ v_args ++ extra_video_args
          ++ codec_args audio_bitrate ++ audio_args (audio_streams info)
          ++ [str dst]
  ∧ ("-preset" ∉ extra_video_args → contains_preset_p7 cmd)
  ∧ ("-preset" ∈ extra_video_args →
     v_args = ["-c:v"; "av1_nvenc"]
              ++ (if Py.truthy target_bitrate
                  then ["-rc"; "vbr"; "-b:v"; Py.or_str target_bitrate "";
                        "-maxrate"; Py.or_str target_bitrate "";
                        "-b_ref_mode"; "middle"]
                  else ["-cq"; Py.str_of_int (default 30%Z cq); "-rc"; "vbr";
                        "-b_ref_mode"; "middle"])
              ++ aq_args nvenc_opts
              ++ ["-bf"; "3"; "-pix_fmt"; v_pix_of info]
              ++ color_args info
     ∧ (contains_preset_p7 cmd →
        contains_preset_p7 extra_video_args
        ∨ "-preset" ∈ handed_in ∨ "p7" ∈ handed_in)).
Proof.
  intros cmd v_args handed_in.
  assert (cmd = input_args ffmpeg_bin src ++ v_args ++ extra_video_args
                ++ codec_args audio_bitrate ++ audio_args (audio_streams info)
                ++ [str dst]) as Hcmd
      by (subst cmd v_args; by rewrite build_ffmpeg_cmd_shape).
  assert ("-preset" ∉ extra_video_args →
          ∃ rest, v_args = ["-c:v"; "av1_nvenc"; "-preset"; "p7"] ++ rest)
    as Hdefault.
  { intros Hno. subst v_args. rewrite builtin_v_args_segments.
    unfold preset_args.
    destruct (existsb _ extra_video_args) eqn:E.
    - by apply has_preset_token in E.
    - simpl. by eexists. }
  split; [split|split; [|split]]; try done.
  - intros [rest Hrest] Hin. apply has_preset_token in Hin.
    subst v_args. rewrite builtin_v_args_segments in Hrest.
    unfold preset_args in Hrest. rewrite Hin in Hrest.
    destruct (Py.truthy target_bitrate); discriminate Hrest.
  - intros [rest Hrest]%Hdefault. rewrite Hcmd, Hrest.
    exists (input_args ffmpeg_bin src ++ ["-c:v"; "av1_nvenc"]),
      (rest ++ extra_video_args ++ codec_args audio_bitrate
       ++ audio_args (audio_streams info) ++ [str dst]).
    by rewrite <- !app_assoc.
  - intros Hin.
    assert (v_args
            = ["-c:v"; "av1_nvenc"]
              ++ (if Py.truthy target_bitrate
                  then bitrate_mode_args (Py.or_str target_bitrate "")
                  else quality_mode_args cq)
              ++ aq_args nvenc_opts
              ++ ["-bf"; "3"; "-pix_fmt"; v_pix_of info]
              ++ color_args info) as Hv.
    { subst v_args. rewrite builtin_v_args_segments. unfold preset_args.
      apply has_preset_token in Hin. by rewrite Hin. }
    split; [exact Hv|].
    intros (pre & post & Hpair). rewrite Hcmd, Hv in Hpair.
    rewrite (app_assoc (input_args ffmpeg_bin src)) in Hpair.
    apply pair_in_middle in Hpair as [(pre' & post' & ->)|[H|H]].
    + left. by exists pre', post'.
    + right. left. subst handed_in.
      eapply preset_token_handed_in; [by left|exact H].
    + right. right. subst handed_in.
      eapply preset_token_handed_in; [by right|exact H].
Qed.

Lemma default_preset_iff_witness :
  let info := mkMediaInfo true false [] [] 0 0 None None None None in
  contains_preset_p7
    (build_ffmpeg_cmd ∅ (mkPath "videos" "movie.mp4")
       (mkPath "videos" "movie.av1.4242.0a1b2c3d.tmp.mkv") info (Some 28%Z)
       None "128k" ["-tune"; "hq"] "ffmpeg").1.
Proof.
  intros info.
  apply (default_preset_iff ∅ (mkPath "videos" "movie.mp4")
           (mkPath "videos" "movie.av1.4242.0a1b2c3d.tmp.mkv") info (Some 28%Z)
           None "128k" ["-tune"; "hq"] "ffmpeg").
  apply (bool_decide_unpack _). vm_compute. exact I.
Defined.

(** A probed pixel format that reads "-preset", followed by extra arguments
    that begin with "p7", also puts the pair in the vector: the last
    alternative of the amended claim is needed. *)
Lemma probed_preset_token_in_vector :
  let info := mkMediaInfo true false [] [] 0 0 None None None
                (Some "-preset") in
  let extra := ["p7"; "-preset"; "p1"] in
  "-preset" ∈ extra
  ∧ ¬ contains_preset_p7 extra
  ∧ contains_preset_p7
      (build_ffmpeg_cmd ∅ (mkPath "videos" "movie.mp4")
         (mkPath "videos" "movie.av1.4242.0a1b2c3d.tmp.mkv") info None
         (Some "3000k") "128k" extra "ffmpeg").1.
Proof.
  split; [apply (bool_decide_unpack _); vm_compute; exact I|]. split.
  - intros (pre & post & E).
    destruct pre as [|a [|b [|c pre]]]; simplify_eq/=.
    destruct pre; discriminate.
  - exists (input_args "ffmpeg" (mkPath "videos" "movie.mp4")
            ++ ["-c:v"; "av1_nvenc"; "-rc"; "vbr"; "-b:v"; "3000k";
                "-maxrate"; "3000k"; "-b_ref_mode"; "middle";
                "-bf"; "3"; "-pix_fmt"]),
           (["-preset"; "p1"] ++ codec_args "128k"
            ++ ["videos/movie.av1.4242.0a1b2c3d.tmp.mkv"]).
    reflexivity.
Qed.

(** ** The output container *)

(** C7, as stated, fails: for a source named "movie.MKV" the chosen
    extension is ".mkv", which is not the source's own extension ".MKV". *)
Lemma uppercase_extension_lowered :
  let p := mkPath "videos" "movie.MKV" in
  suffix p = ".MKV"
  ∧ Py.str_in (Py.lower (suffix p)) [".mkv"; ".webm"] = true
  ∧ choose_ext p = ".mkv"
  ∧ choose_ext p ≠ suffix p.
Proof. repeat split. discriminate. Qed.

(** C7, amended. The chosen extension is the source's extension in lower
    case when that is ".mkv" or ".webm", and ".mkv" in every other case; it
    is the source's own extension when that is written ".mkv" or ".webm"
    already, and it depends on the source path through its extension only. *)
Theorem choose_ext_policy (p q : Path) :
  choose_ext p
  = (if decide (Py.lower (suffix p) = ".mkv" ∨ Py.lower (suffix p) = ".webm")
     then Py.lower (suffix p) else ".mkv")
  ∧ (suffix p = ".mkv" ∨ suffix p = ".webm" → choose_ext p = suffix p)
  ∧ (suffix q = suffix p → choose_ext q = choose_ext p).
Proof.
  unfold choose_ext. split; [|split].
  - destruct (Py.str_in _ _) eqn:E.
    + apply str_in_spec in E. rewrite decide_True; [done|].
      rewrite !elem_of_cons, elem_of_nil in E. tauto.
    + rewrite decide_False; [done|]. intros H.
      assert (Py.str_in (Py.lower (suffix p)) [".mkv"; ".webm"] = true) as E'
          by (apply str_in_spec; rewrite !elem_of_cons; tauto).
      congruence.
  - by intros [->| ->].
  - by intros ->.
Qed.

Lemma choose_ext_policy_witness :
  let p := mkPath "videos" "clip.webm" in
  (suffix p = ".mkv" ∨ suffix p = ".webm") ∧ choose_ext p = suffix p.
Proof.
  intros p.
  assert (suffix p = ".mkv" ∨ suffix p = ".webm") as H by (right; reflexivity).
  split; [exact H|].
  exact (proj1 (proj2 (choose_ext_policy p p)) H).
Defined.

(** ** Paths *)

Lemma take_drop (n : nat) (s : string) : take n s +:+ drop n s = s.
Proof.
  revert s. induction n as [|n IH]; intros [|c s]; simpl; try done.
  change (String c (take n s +:+ drop n s) = String c s). by rewrite IH.
Qed.

Lemma drop_length (n : nat) (s : string) :
  String.length (drop n s) = String.length s - n.
Proof. revert s. induction n as [|n IH]; intros [|c s]; simpl; auto. Qed.

Lemma take_all (s : string) : take (String.length s) s = s.
Proof. induction s as [|c s IH]; simpl; [done|]. by rewrite IH. Qed.

Lemma append_empty_r (s : string) : s +:+ "" = s.
Proof. induction s as [|c s IH]; [done|]. exact (f_equal (String c) IH). Qed.

Lemma append_assoc (a b c : string) : (a +:+ b) +:+ c = a +:+ (b +:+ c).
Proof. induction a as [|x a IH]; [done|]. exact (f_equal (String x) IH). Qed.

Lemma rfind_dot_lt (s : string) (i : nat) :
  rfind_dot s = Some i → i < String.length s.
Proof.
  revert i. induction s as [|c s IH]; intros i; simpl; [done|].
  destruct (rfind_dot s) as [j|].
  - intros [= <-]. specialize (IH j eq_refl). lia.
  - destruct (Ascii.eqb c "."); [|done]. intros [= <-]. lia.
Qed.

(** A name is its stem followed by its suffix. *)
Lemma stem_suffix (p : Path) : stem p +:+ suffix p = name p.
Proof.
  unfold stem, suffix, suffix_of.
  destruct (rfind_dot (name p)) as [i|] eqn:E.
  - destruct (_ && _).
    + rewrite drop_length. apply rfind_dot_lt in E.
      replace (String.length (name p) - (String.length (name p) - i)) with i
        by lia.
      apply take_drop.
    + simpl. by rewrite Nat.sub_0_r, take_all, append_empty_r.
  - simpl. by rewrite Nat.sub_0_r, take_all, append_empty_r.
Qed.

(** Replacing the suffix by itself gives the same path. *)
Lemma with_suffix_same (p : Path) : with_suffix p (suffix p) = p.
Proof. unfold with_suffix. rewrite stem_suffix. by destruct p. Qed.

Lemma backup_of_name (p : Path) : name (backup_of p) = name p +:+ ".bak".
Proof.
  unfold backup_of, with_suffix. simpl.
  by rewrite <- append_assoc, stem_suffix.
Qed.

Lemma backup_of_neq (p : Path) : backup_of p ≠ p.
Proof.
  intros E. apply (f_equal (fun q => String.length (name q))) in E.
  rewrite backup_of_name, append_length in E. simpl in E. lia.
Qed.

(** The temporary name differs from the name of the output beside the
    source. *)
Lemma tmp_name_neq (p : Path) (pid rnd ext : string) :
  tmp_name p pid rnd ext ≠ name (with_suffix p ext).
Proof.
  unfold tmp_name, with_suffix. simpl. intros E.
  apply (f_equal String.length) in E. rewrite !append_length in E.
  simpl in E. lia.
Qed.

(** ** replace_file *)

Lemma exists_true (p : Path) (f : gmap Path File) :
  exists_ p f = true ↔ is_Some (f !! p).
Proof. unfold exists_. apply bool_decide_eq_true. Qed.

Lemma exists_false (p : Path) (f : gmap Path File) :
  exists_ p f = false ↔ f !! p = None.
Proof.
  unfold exists_. rewrite bool_decide_eq_false. symmetry.
  apply eq_None_not_Some.
Qed.

(** Case analysis on the tests and file operations of a statement. *)
Ltac fs_cases :=
  repeat match goal with
         | |- context [exists_ ?p ?f] =>
             let E := fresh "E" in
             destruct (exists_ p f) eqn:E;
             [apply exists_true in E as [? E]|apply exists_false in E]
         | |- context [attempt ?v _] =>
             first [ is_var v; destruct v | idtac ]; progress cbn [attempt]
         | |- context [unlink ?p ?f] => unfold unlink
         | |- context [replace ?a ?b ?f] => unfold replace
         | |- context [match ?f !! ?p with _ => _ end] =>
             let E := fresh "E" in destruct (f !! p) eqn:E
         end.

Ltac fs_done :=
  simpl; simplify_map_eq;
  repeat match goal with
         | |- _ ∧ _ => split
         | |- is_Some (Some _) => by eexists
         | |- _ → _ => intros
         end;
  simplify_map_eq; try done; try tauto; eauto 8.

Lemma replace_inv_step (src tmp_out dest : Path) (fs0 : gmap Path File)
    (orig : File) (s s' : state) :
  fs0 !! src = Some orig →
  backup_of src ≠ dest →
  tmp_out ≠ src → tmp_out ≠ backup_of src → tmp_out ≠ dest →
  replace_inv src tmp_out dest fs0 orig s →
  step_rel src tmp_out dest s s' →
  replace_inv src tmp_out dest fs0 orig s'.
Proof.
  intros H0 Hbd Hts Htb Htd Hinv [Hnf [v ->]].
  pose proof (backup_of_neq src) as Hbs.
  destruct s as [p f]. unfold replace_inv in *. unfold step.
  destruct p; simpl in *; try done.
  - subst f. fs_cases; fs_done.
  - destruct Hinv as (H1 & H2 & H3). fs_cases; fs_done.
  - destruct Hinv as (H1 & H2 & H3). fs_cases; fs_done.
  - destruct Hinv as (H1 & H2 & H3 & H4). fs_cases; fs_done.
  - destruct Hinv as (H1 & H2 & H3 & H4 & H5).
    destruct (decide (dest = src)) as [->|Hds]; fs_cases; fs_done.
  - destruct Hinv as (H1 & [H2|H2]); fs_cases; simpl negb; cbn [andb];
      fs_cases; fs_done.
Qed.

Lemma replace_inv_reachable (src tmp_out dest : Path) (fs0 : gmap Path File)
    (orig : File) (s : state) :
  fs0 !! src = Some orig →
  backup_of src ≠ dest →
  tmp_out ≠ src → tmp_out ≠ backup_of src → tmp_out ≠ dest →
  reachable src tmp_out dest fs0 s →
  replace_inv src tmp_out dest fs0 orig s.
Proof.
  intros H0 Hbd Hts Htb Htd Hreach. unfold reachable in Hreach.
  revert s Hreach. apply rtc_ind_r; [done|].
  intros s1 s2 _ Hstep IH. by eapply replace_inv_step.
Qed.

(** The clean run on the example, up to the point between the promotion of
    the temporary file and the removal of the backup. *)
Lemma promoted_state_reachable :
  reachable movie_mp4 movie_tmp movie_mkv
    {[ movie_mp4 := "original"; movie_tmp := "encoded" ]}
    (mkState AtDropBackup
       {[ backup_of movie_mp4 := "original"; movie_mkv := "encoded" ]}).
Proof.
  unfold reachable.
  do 4 (eapply rtc_l; [split; [reflexivity|by exists Succeed]|]).
  match goal with
  | |- rtc _ ?a ?b => replace a with b by (vm_compute; reflexivity)
  end.
  apply rtc_refl.
Qed.

(** C3, as stated, fails: in the run without any failure, between the
    promotion of the temporary file and the removal of the backup, the
    destination and the backup are both present and the original path is
    empty, so none of the three cases holds. *)
Lemma promoted_state_in_no_case :
  let s := mkState AtDropBackup
             {[ backup_of movie_mp4 := "original"; movie_mkv := "encoded" ]} in
  reachable movie_mp4 movie_tmp movie_mkv
    {[ movie_mp4 := "original"; movie_tmp := "encoded" ]} s
  ∧ ¬ original_in_place movie_mp4 (fs s)
  ∧ ¬ backup_without_dest movie_mp4 movie_mkv (fs s)
  ∧ ¬ dest_alone movie_mp4 movie_mkv (fs s).
Proof.
  split; [apply promoted_state_reachable|].
  unfold original_in_place, backup_without_dest, dest_alone. simpl.
  split; [|split].
  - intros [x Hx]. vm_compute in Hx. discriminate.
  - intros [_ Hx]. vm_compute in Hx. discriminate.
  - intros (_ & Hx & _). vm_compute in Hx. discriminate.
Qed.

(** C3, amended. When [replace_file] is entered with the original at its
    path, at every point it can reach, failure branches included: the
    original file is at the original path, or it is at the backup path, or
    the call has returned with the encoded file at the destination, the
    backup gone and the temporary file gone (and the original path empty
    unless it is the destination). The three paths are never all empty. The
    original path and the backup path are both occupied only while the file
    system is still as it was on entry (a stale backup not yet removed) or
    when the destination is the original path. *)
Theorem replace_file_invariant (src tmp_out dest : Path)
    (fs0 : gmap Path File) (orig : File) (s : state) :
  fs0 !! src = Some orig →
  backup_of src ≠ dest →
  tmp_out ≠ src → tmp_out ≠ backup_of src → tmp_out ≠ dest →
  reachable src tmp_out dest fs0 s →
  (fs s !! src = Some orig
   ∨ fs s !! backup_of src = Some orig
   ∨ (at_ s = Returned
      ∧ is_Some (fs s !! dest) ∧ fs s !! dest = fs0 !! tmp_out
      ∧ fs s !! backup_of src = None ∧ fs s !! tmp_out = None
      ∧ (dest ≠ src → fs s !! src = None)))
  ∧ (is_Some (fs s !! src) ∨ is_Some (fs s !! backup_of src)
     ∨ is_Some (fs s !! dest))
  ∧ (is_Some (fs s !! src) → is_Some (fs s !! backup_of src) →
     fs s = fs0 ∨ dest = src).
Proof.
  intros H0 Hbd Hts Htb Htd Hreach.
  pose proof (replace_inv_reachable _ _ _ _ _ _ H0 Hbd Hts Htb Htd Hreach)
    as Hinv.
  destruct s as [p f]. unfold replace_inv in Hinv. simpl in *.
  assert (f !! src = Some orig
          ∨ f !! backup_of src = Some orig
          ∨ (p = Returned
             ∧ is_Some (f !! dest) ∧ f !! dest = fs0 !! tmp_out
             ∧ f !! backup_of src = None ∧ f !! tmp_out = None
             ∧ (dest ≠ src → f !! src = None))) as Hcases.
  { destruct p; try tauto.
    - subst f. tauto.
    - destruct Hinv as [->|[?|?]]; tauto. }
  split; [exact Hcases|]. split.
  - destruct Hcases as [->|[->|(_ & ? & _)]]; eauto.
  - intros [x Hx] [y Hy].
    destruct (decide (dest = src)) as [|Hds]; [by right|].
    destruct p;
      repeat match goal with
             | H : _ ∧ _ |- _ => destruct H
             | H : _ ∨ _ |- _ => destruct H
             | H : dest ≠ src → _ |- _ => specialize (H Hds)
             end;
      first [ by left | exfalso; congruence ].
Qed.

Lemma replace_file_invariant_witness :
  let fs0 : gmap Path File :=
    {[ movie_mp4 := "original"; movie_tmp := "encoded" ]} in
  let s := mkState AtDropBackup
             {[ backup_of movie_mp4 := "original"; movie_mkv := "encoded" ]} in
  reachable movie_mp4 movie_tmp movie_mkv fs0 s
  ∧ (is_Some (fs s !! movie_mp4) ∨ is_Some (fs s !! backup_of movie_mp4)
     ∨ is_Some (fs s !! movie_mkv)).
Proof.
  intros fs0 s. split; [apply promoted_state_reachable|].
  apply (replace_file_invariant movie_mp4 movie_tmp movie_mkv fs0 "original" s);
    first [ reflexivity
          | apply promoted_state_reachable
          | intros E; vm_compute in E; discriminate E ].
Defined.

(** ** Failure between the backup and the promotion *)

Lemma run_S (n : nat) (env : pc → verdict) (src tmp_out dest : Path)
    (s : state) :
  run (S n) env src tmp_out dest s
  = run n env src tmp_out dest (step (env (at_ s)) src tmp_out dest s).
Proof. reflexivity. Qed.

Lemma run_final (n : nat) (env : pc → verdict) (src tmp_out dest : Path)
    (s : state) :
  final (at_ s) = true → run n env src tmp_out dest s = s.
Proof.
  intros H. induction n as [|n IH]; [done|].
  rewrite run_S. destruct s as [[] f]; try done; exact IH.
Qed.

(** Every statement moves on, so a call always ends: it returns or raises
    within six statements, whatever the environment does. *)
Lemma step_rank (v : verdict) (src tmp_out dest : Path) (s : state) :
  final (at_ s) = false →
  (rank (at_ (step v src tmp_out dest s)) < rank (at_ s))%nat.
Proof.
  destruct s as [p f]. unfold step. cbn [at_ fs].
  destruct p; try done; intros _; fs_cases; cbn [negb andb]; fs_cases;
    simpl; lia.
Qed.

Lemma run_ends (n : nat) (env : pc → verdict) (src tmp_out dest : Path)
    (s : state) :
  (rank (at_ s) <= n)%nat → final (at_ (run n env src tmp_out dest s)) = true.
Proof.
  revert s. induction n as [|n IH]; intros s Hr.
  - destruct s as [[] f]; simpl in *; done || lia.
  - destruct (final (at_ s)) eqn:Hf.
    + by rewrite run_final.
    + rewrite run_S. apply IH.
      pose proof (step_rank (env (at_ s)) src tmp_out dest s Hf). lia.
Qed.

Lemma replace_file_ends (env : pc → verdict) (src tmp_out dest : Path)
    (fs0 : gmap Path File) :
  final (at_ (replace_file env src tmp_out dest fs0)) = true.
Proof. unfold replace_file. by apply run_ends. Qed.

(** The statements of [replace_file], one by one, in the runs that matter
    for the rollback. *)
Section Statements.
Context (src tmp_out dest : Path).

Lemma step_stale_backup (v : verdict) (f : gmap Path File) :
  f !! backup_of src = None ∨ v = Succeed →
  step v src tmp_out dest (mkState AtStaleBackup f)
  = mkState AtBackup (delete (backup_of src) f).
Proof.
  intros H. unfold step. cbn [at_ fs]. fs_cases; simplify_eq;
    first [ done | by rewrite delete_id | destruct H; congruence ].
Qed.

Lemma step_backup (f : gmap Path File) (orig : File) :
  f !! src = Some orig →
  step Succeed src tmp_out dest (mkState AtBackup f)
  = mkState AtClearDest (<[backup_of src := orig]> (delete src f)).
Proof.
  intros H. unfold step. cbn [at_ fs]. fs_cases; by simplify_eq.
Qed.

Lemma step_clear_dest_refused (f : gmap Path File) :
  is_Some (f !! dest) →
  step Raise src tmp_out dest (mkState AtClearDest f) = mkState AtRestore f.
Proof.
  intros [x H]. unfold step. cbn [at_ fs]. fs_cases; by simplify_eq.
Qed.

Lemma step_clear_dest (v : verdict) (f : gmap Path File) :
  f !! dest = None ∨ v = Succeed →
  step v src tmp_out dest (mkState AtClearDest f)
  = mkState AtPromote (delete dest f).
Proof.
  intros H. unfold step. cbn [at_ fs]. fs_cases; simplify_eq;
    first [ done | by rewrite delete_id | destruct H; congruence ].
Qed.

Lemma step_promote_refused (v : verdict) (f : gmap Path File) :
  v = Raise ∨ f !! tmp_out = None →
  step v src tmp_out dest (mkState AtPromote f) = mkState AtRestore f.
Proof.
  intros H. unfold step. cbn [at_ fs]. fs_cases; simplify_eq;
    first [ done | destruct H; congruence ].
Qed.

Lemma step_restore (f : gmap Path File) (orig : File) :
  f !! src = None → f !! backup_of src = Some orig →
  step Succeed src tmp_out dest (mkState AtRestore f)
  = mkState Raised (<[src := orig]> (delete (backup_of src) f)).
Proof.
  intros H1 H2. unfold step. cbn [at_ fs]. fs_cases; by simplify_eq.
Qed.

End Statements.

(** The state in which [replace_file] raises after a failure between the
    backup of the original and the promotion of the temporary file. *)
Lemma rollback_state (env : pc → verdict)
    (src tmp_out dest : Path) (fs0 : gmap Path File) (orig : File) :
  fs0 !! src = Some orig →
  backup_of src ≠ dest →
  tmp_out ≠ src → tmp_out ≠ backup_of src → tmp_out ≠ dest →
  (fs0 !! backup_of src = None ∨ env AtStaleBackup = Succeed) →
  env AtBackup = Succeed →
  ((dest ≠ src ∧ is_Some (fs0 !! dest) ∧ env AtClearDest = Raise)
   ∨ env AtPromote = Raise ∨ fs0 !! tmp_out = None) →
  env AtRestore = Succeed →
  let s := replace_file env src tmp_out dest fs0 in
  at_ s = Raised
  ∧ fs s !! src = Some orig
  ∧ fs s !! backup_of src = None
  ∧ fs s !! tmp_out = fs0 !! tmp_out
  ∧ (dest ≠ src →
     fs s !! dest = match env AtClearDest with
                    | Raise => fs0 !! dest
                    | Succeed => None
                    end).
Proof.
  intros H0 Hbd Hts Htb Htd Hstale Hbackup Hfail Hrestore s. subst s.
  pose proof (backup_of_neq src) as Hbs.
  unfold replace_file.
  rewrite run_S, step_stale_backup by done.
  rewrite run_S. cbn [at_]. rewrite Hbackup, (step_backup _ _ _ _ orig)
    by (by rewrite lookup_delete_ne).
  set (f1 := <[backup_of src := orig]> (delete src (delete (backup_of src) fs0))).
  assert (f1 !! src = None) as Hf1s by (subst f1; by simplify_map_eq).
  assert (f1 !! backup_of src = Some orig) as Hf1b by (subst f1; by simplify_map_eq).
  assert (f1 !! tmp_out = fs0 !! tmp_out) as Hf1t by (subst f1; by simplify_map_eq).
  assert (dest ≠ src → f1 !! dest = fs0 !! dest) as Hf1d
      by (intros; subst f1; by simplify_map_eq).
  assert (∀ n f, f !! src = None → f !! backup_of src = Some orig →
            run (S n) env src tmp_out dest (mkState AtRestore f)
            = mkState Raised (<[src := orig]> (delete (backup_of src) f)))
    as Hroll.
  { intros n f Hs Hb. rewrite run_S. cbn [at_].
    rewrite Hrestore, (step_restore _ _ _ _ orig) by done.
    by apply run_final. }
  assert (env AtPromote = Raise ∨ fs0 !! tmp_out = None →
          run 3 env src tmp_out dest (mkState AtPromote (delete dest f1))
          = mkState Raised
              (<[src := orig]> (delete (backup_of src) (delete dest f1))))
    as Hpromote.
  { intros Hp. rewrite run_S. cbn [at_]. rewrite step_promote_refused.
    - apply Hroll.
      + destruct (decide (dest = src)) as [->|?]; by simplify_map_eq.
      + by simplify_map_eq.
    - destruct Hp as [?|Hp]; [by left|right].
      rewrite lookup_delete_ne by done. by rewrite Hf1t. }
  rewrite run_S. cbn [at_].
  destruct (env AtClearDest) eqn:Hc.
  - rewrite step_clear_dest by (by right).
    destruct Hfail as [(_ & _ & ?)|Hp]; [done|]. rewrite (Hpromote Hp).
    cbn [at_ fs]. repeat split; intros; by simplify_map_eq.
  - destruct (f1 !! dest) as [d|] eqn:Hd.
    + rewrite step_clear_dest_refused by (by rewrite Hd).
      rewrite Hroll by done. cbn [at_ fs].
      assert (dest ≠ src) as Hds by (intros ->; by rewrite Hf1s in Hd).
      repeat split; intros; simplify_map_eq; try done.
      by rewrite <- Hf1d.
    + rewrite step_clear_dest by (by left).
      destruct Hfail as [(Hds & [d Hd'] & _)|Hp].
      { specialize (Hf1d Hds). rewrite Hd' in Hf1d. discriminate Hf1d. }
      rewrite (Hpromote Hp). cbn [at_ fs].
      repeat split; intros; simplify_map_eq; try done.
      by rewrite <- Hf1d.
Qed.

(** C4, as stated, fails: when the failure is the refusal to delete a file
    that is already at the destination, the original is restored and the
    destination is not empty: the file that was there is still there. *)
Lemma refused_unlink_leaves_dest :
  let fs0 : gmap Path File :=
    {[ movie_mp4 := "original"; movie_mkv := "older output";
       movie_tmp := "encoded" ]} in
  let env := refuse_at AtClearDest in
  let mid := run 2 env movie_mp4 movie_tmp movie_mkv
               (mkState AtStaleBackup fs0) in
  let s := replace_file env movie_mp4 movie_tmp movie_mkv fs0 in
  let r := in_place env Succeed movie_mp4 movie_tmp (choose_ext movie_mp4) fs0 in
  (at_ mid = AtClearDest ∧ fs mid !! movie_mp4 = None
   ∧ fs mid !! backup_of movie_mp4 = Some "original")
  ∧ at_ (step (env AtClearDest) movie_mp4 movie_tmp movie_mkv mid) = AtRestore
  ∧ (at_ s = Raised ∧ fs s !! movie_mp4 = Some "original"
     ∧ fs s !! movie_mkv = Some "older output")
  ∧ (r.2 = false ∧ r.1 !! movie_mkv = Some "older output").
Proof. vm_compute. repeat split. Qed.

(** C4, amended. When the original has been renamed to the backup path and
    then the deletion of a file already at the destination is refused, or the
    promotion of the temporary file fails, and the rename of the backup back
    to the original path is not refused, [replace_file] raises with the
    original file back at its original path, the backup path empty and the
    temporary file as it was; [process_file] then reports the failure. A
    destination other than the original path is empty when its deletion was
    not refused, and still holds the file that was there when it was. *)
Theorem rollback_restores_original (env : pc → verdict) (cleanup : verdict)
    (src tmp_out dest : Path) (chosen_ext : string) (fs0 : gmap Path File)
    (orig : File) :
  fs0 !! src = Some orig →
  backup_of src ≠ dest →
  tmp_out ≠ src → tmp_out ≠ backup_of src → tmp_out ≠ dest →
  (fs0 !! backup_of src = None ∨ env AtStaleBackup = Succeed) →
  env AtBackup = Succeed →
  ((dest ≠ src ∧ is_Some (fs0 !! dest) ∧ env AtClearDest = Raise)
   ∨ env AtPromote = Raise ∨ fs0 !! tmp_out = None) →
  env AtRestore = Succeed →
  let s := replace_file env src tmp_out dest fs0 in
  let r := in_place env cleanup src tmp_out chosen_ext fs0 in
  (at_ s = Raised
   ∧ fs s !! src = Some orig
   ∧ fs s !! backup_of src = None
   ∧ fs s !! tmp_out = fs0 !! tmp_out
   ∧ (dest ≠ src →
      fs s !! dest = match env AtClearDest with
                     | Raise => fs0 !! dest
                     | Succeed => None
                     end))
  ∧ (dest = dest_path_of src chosen_ext →
     r.2 = false ∧ r.1 !! src = Some orig ∧ r.1 !! backup_of src = None
     ∧ r.1 !! dest = fs s !! dest).
Proof.
  intros H0 Hbd Hts Htb Htd Hstale Hbackup Hfail Hrestore s r.
  pose proof (rollback_state env src tmp_out dest fs0 orig H0 Hbd Hts Htb Htd
                Hstale Hbackup Hfail Hrestore) as Hs.
  split; [exact Hs|]. intros Hdest. subst r. unfold in_place.
  rewrite <- Hdest. subst s. destruct Hs as (Hat & Hsrc & Hbak & _).
  rewrite Hat. fs_cases; cbn [fst snd]; simplify_map_eq; by repeat split.
Qed.

Lemma rollback_restores_original_witness :
  let fs0 : gmap Path File :=
    {[ movie_mp4 := "original"; movie_tmp := "encoded" ]} in
  let s := replace_file (refuse_at AtPromote) movie_mp4 movie_tmp movie_mkv fs0 in
  at_ s = Raised ∧ fs s !! movie_mp4 = Some "original"
  ∧ fs s !! backup_of movie_mp4 = None
  ∧ fs s !! movie_tmp = fs0 !! movie_tmp
  ∧ (movie_mkv ≠ movie_mp4 → fs s !! movie_mkv = None).
Proof.
  intros fs0 s.
  apply (rollback_restores_original (refuse_at AtPromote) Succeed
           movie_mp4 movie_tmp movie_mkv ".mkv" fs0 "original");
    first [ reflexivity
          | intros E; vm_compute in E; discriminate E
          | left; reflexivity
          | right; left; reflexivity ].
Defined.

(** ** The no-replace branch *)





Lemma no_replace_on_id (env : nr_env) (path tmp_out : Path)
    (chosen_ext : string) (fs0 : gmap Path File) :
  no_replace_on id env path tmp_out chosen_ext fs0
  = no_replace env path tmp_out chosen_ext fs0.
Proof. reflexivity. Qed.




(** The branch on the three files of the example: the older "movie.mkv" is
    replaced by the encoded file, "movie.mp4" is kept, the temporary file is
    gone. *)
Lemma no_replace_example :
  let fs0 : gmap Path File :=
    {[ mkPath "videos" "movie.mp4" := "original";
       mkPath "videos" "movie.mkv" := "older output";
       mkPath "videos" "movie.av1.4242.0a1b2c3d.tmp.mkv" := "encoded" ]} in
  let r := no_replace (mkNrEnv Succeed MoveOk Succeed)
             (mkPath "videos" "movie.mp4")
             (mkPath "videos" "movie.av1.4242.0a1b2c3d.tmp.mkv") ".mkv" fs0 in
  r.2 = true
  ∧ List.last r.1 fs0
    = {[ mkPath "videos" "movie.mp4" := "original";
         mkPath "videos" "movie.mkv" := "encoded" ]}.
Proof.
  intros fs0 r. split; [reflexivity|].
  apply map_eq. intros q. subst r fs0. unfold no_replace, move.
  cbn [nr_clear nr_move nr_cleanup].
  vm_compute. reflexivity.
Qed.

(** Where letter case is not distinguished, the output path of a source
    named "movie.MKV" is the source's own file: it is deleted, and the
    encoded file takes its place. *)
Lemma no_replace_folded_example :
  let tmp := mkPath "videos" "movie.av1.4242.0a1b2c3d.tmp.mkv" in
  let fs0 : gmap Path File :=
    {[ fold_case movie_MKV := "original"; fold_case tmp := "encoded" ]} in
  let r := no_replace_on fold_case (mkNrEnv Succeed MoveOk Succeed)
             movie_MKV tmp ".mkv" fs0 in
  with_suffix movie_MKV ".mkv" ≠ movie_MKV
  ∧ r.2 = true
  ∧ List.last r.1 fs0 = {[ fold_case movie_MKV := "encoded" ]}.
Proof.
  intros tmp fs0 r. split; [intros E; vm_compute in E; discriminate E|].
  split; [reflexivity|]. vm_compute. reflexivity.
Qed.

(** ** Names of the files of one transaction *)

Lemma rfind_dot_app (a b : string) :
  rfind_dot (a +:+ b)
  = match rfind_dot b with
    | Some i => Some (String.length a + i)
    | None => rfind_dot a
    end.
Proof.
  induction a as [|c a IH].
  - change ("" +:+ b) with b. by destruct (rfind_dot b).
  - change (String c a +:+ b) with (String c (a +:+ b)). simpl. rewrite IH.
    by destruct (rfind_dot b).
Qed.

Lemma drop_app_length (a b : string) : drop (String.length a) (a +:+ b) = b.
Proof. induction a as [|c a IH]; [by destruct b|exact IH]. Qed.

Lemma drop_drop (n m : nat) (s : string) : drop n (drop m s) = drop (m + n) s.
Proof.
  revert s. induction m as [|m IH]; intros s; [done|].
  destruct s as [|c s]; simpl; [by destruct n|apply IH].
Qed.

(** No dot after the last dot. *)
Lemma rfind_dot_last (s : string) (i : nat) :
  rfind_dot s = Some i → rfind_dot (drop (S i) s) = None.
Proof.
  revert i. induction s as [|c s IH]; intros i; simpl; [done|].
  destruct (rfind_dot s) as [j|] eqn:E.
  - intros [= <-]. by apply IH.
  - destruct (Ascii.eqb c "."); [|done]. intros [= <-]. by destruct s.
Qed.

Lemma suffix_of_cases (nm : string) :
  suffix_of nm = ""
  ∨ ∃ i, rfind_dot nm = Some i ∧ (0 < i)%nat ∧ suffix_of nm = drop i nm.
Proof.
  unfold suffix_of. destruct (rfind_dot nm) as [i|]; [|by left].
  destruct (0 <? i)%nat eqn:E; simpl; [|by left].
  destruct (i <? _)%nat; [|by left].
  right. exists i. apply Nat.ltb_lt in E. done.
Qed.

(** A suffix has its only dot in front. *)
Lemma suffix_of_one_dot (nm : string) :
  rfind_dot (drop 1 (suffix_of nm)) = None.
Proof.
  destruct (suffix_of_cases nm) as [->|(i & Hi & _ & ->)]; [done|].
  rewrite drop_drop. replace (i + 1) with (S i) by lia.
  by apply rfind_dot_last.
Qed.

Lemma stem_nonempty (p : Path) : name p ≠ "" → stem p ≠ "".
Proof.
  intros Hn. unfold stem, suffix.
  destruct (suffix_of_cases (name p)) as [->|(i & Hi & Hpos & ->)].
  - simpl. by rewrite Nat.sub_0_r, take_all.
  - apply rfind_dot_lt in Hi as Hlt. rewrite drop_length.
    replace (String.length (name p) - (String.length (name p) - i)) with i
      by lia.
    destruct i as [|i]; [lia|]. by destruct (name p).
Qed.

Lemma choose_ext_cases (p : Path) :
  choose_ext p = ".mkv" ∨ choose_ext p = ".webm".
Proof.
  unfold choose_ext. destruct (Py.str_in _ _) eqn:E; [|by left].
  apply str_in_spec in E. rewrite !elem_of_cons, elem_of_nil in E. tauto.
Qed.

Lemma suffix_of_app_ext (a e : string) :
  a ≠ "" → e = ".mkv" ∨ e = ".webm" → suffix_of (a +:+ e) = e.
Proof.
  intros Ha He. unfold suffix_of. rewrite rfind_dot_app.
  assert (rfind_dot e = Some 0 ∧ (2 <= String.length e)%nat) as [-> Hlen]
      by (destruct He as [-> | ->]; split; simpl; (done || lia)).
  rewrite Nat.add_0_r, append_length.
  assert (0 < String.length a)%nat as Hpos by (destruct a; [done|simpl; lia]).
  replace (0 <? String.length a)%nat with true
    by (symmetry; by apply Nat.ltb_lt).
  replace (String.length a <? String.length a + String.length e - 1)%nat
    with true by (symmetry; apply Nat.ltb_lt; lia).
  apply drop_app_length.
Qed.

(** The output beside the source has the chosen extension. *)
Lemma suffix_with_suffix (p : Path) :
  name p ≠ "" → suffix (with_suffix p (choose_ext p)) = choose_ext p.
Proof.
  intros Hn. unfold suffix, with_suffix. simpl.
  apply suffix_of_app_ext; [by apply stem_nonempty|apply choose_ext_cases].
Qed.

Lemma lower_choose_ext (p : Path) : Py.lower (choose_ext p) = choose_ext p.
Proof. by destruct (choose_ext_cases p) as [-> | ->]. Qed.

Lemma choose_ext_of_suffix (p q : Path) :
  Py.lower (suffix q) = choose_ext p → choose_ext q = choose_ext p.
Proof.
  intros E. unfold choose_ext at 1. rewrite E.
  by destruct (choose_ext_cases p) as [-> | ->].
Qed.

Lemma dest_path_of_cases (p : Path) :
  (Py.lower (suffix p) = choose_ext p ∧ dest_path_of p (choose_ext p) = p)
  ∨ (Py.lower (suffix p) ≠ choose_ext p
     ∧ dest_path_of p (choose_ext p) = with_suffix p (choose_ext p)).
Proof.
  unfold dest_path_of.
  destruct (String.eqb_spec (choose_ext p) (Py.lower (suffix p))).
  - by left.
  - right. split; [congruence|done].
Qed.

Lemma last_char_app (a b : string) :
  b ≠ "" → PyText.last_char (a +:+ b) = PyText.last_char b.
Proof.
  intros Hb. induction a as [|c a IH]; [done|].
  change (String c a +:+ b) with (String c (a +:+ b)). simpl. rewrite IH.
  destruct b as [|x b]; [done|]. simpl. by destruct (PyText.last_char b).
Qed.

Lemma last_char_choose_ext (p : Path) :
  PyText.last_char (choose_ext p) ≠ Some "k"%char.
Proof. by destruct (choose_ext_cases p) as [-> | ->]. Qed.

Lemma choose_ext_nonempty (p : Path) : choose_ext p ≠ "".
Proof. by destruct (choose_ext_cases p) as [-> | ->]. Qed.

Lemma rfind_dot_with_dot (a b : string) :
  rfind_dot (a +:+ String "." b) ≠ None.
Proof.
  rewrite rfind_dot_app. simpl. by destruct (rfind_dot b).
Qed.

(** The tail a temporary name adds to the stem. *)
Lemma tmp_name_tail (p : Path) (pid rnd ext : string) :
  tmp_name p pid rnd ext
  = stem p +:+ String "." ("av1." +:+ pid +:+ "." +:+ rnd +:+ ".tmp" +:+ ext).
Proof. reflexivity. Qed.

Lemma tmp_name_neq_name (p : Path) (pid rnd ext : string) :
  tmp_name p pid rnd ext ≠ name p.
Proof.
  rewrite tmp_name_tail, <- (stem_suffix p). intros E%append_inj_r.
  pose proof (suffix_of_one_dot (name p)) as Hdot. fold (suffix p) in Hdot.
  rewrite <- E in Hdot.
  change (rfind_dot ("av1" +:+ String "." (pid +:+ "." +:+ rnd +:+ ".tmp" +:+ ext))
          = None) in Hdot.
  by apply rfind_dot_with_dot in Hdot.
Qed.

Lemma tmp_name_last_char (p : Path) (pid rnd ext : string) :
  ext ≠ "" → PyText.last_char (tmp_name p pid rnd ext) = PyText.last_char ext.
Proof.
  intros He. unfold tmp_name.
  replace (stem p +:+ ".av1." +:+ pid +:+ "." +:+ rnd +:+ ".tmp" +:+ ext)
    with ((stem p +:+ ".av1." +:+ pid +:+ "." +:+ rnd +:+ ".tmp") +:+ ext)
    by (by rewrite !append_assoc).
  by apply last_char_app.
Qed.

Lemma tmp_name_neq_backup (p : Path) (pid rnd : string) :
  tmp_name p pid rnd (choose_ext p) ≠ name (backup_of p).
Proof.
  intros E. apply (f_equal PyText.last_char) in E.
  rewrite tmp_name_last_char, backup_of_name, last_char_app in E
    by (done || apply choose_ext_nonempty).
  by apply last_char_choose_ext in E.
Qed.

Lemma backup_neq_with_suffix (p : Path) :
  backup_of p ≠ with_suffix p (choose_ext p).
Proof.
  unfold backup_of, with_suffix. intros [= E%append_inj_r].
  apply (f_equal PyText.last_char) in E. rewrite last_char_app in E by done.
  symmetry in E. by apply last_char_choose_ext in E.
Qed.

(** X1. The paths of one transaction never collide: for every source path
    and every temporary directory, process id and random part, the backup
    path differs from the source and from the destination, and the temporary
    path differs from the source, the backup, the destination and the output
    beside the source. *)
Theorem transaction_paths_distinct (p : Path) (dir pid rnd : string) :
  let ext := choose_ext p in
  let tmp := mkPath dir (tmp_name p pid rnd ext) in
  let dest := dest_path_of p ext in
  backup_of p ≠ p ∧ backup_of p ≠ dest
  ∧ tmp ≠ p ∧ tmp ≠ backup_of p ∧ tmp ≠ dest ∧ tmp ≠ with_suffix p ext.
Proof.
  intros ext tmp dest.
  assert (tmp ≠ p) as H1.
  { intros E. apply (f_equal name) in E. by apply tmp_name_neq_name in E. }
  assert (tmp ≠ with_suffix p ext) as H2.
  { intros E. apply (f_equal name) in E. by apply tmp_name_neq in E. }
  assert (tmp ≠ backup_of p) as H3.
  { intros E. apply (f_equal name) in E. by apply tmp_name_neq_backup in E. }
  pose proof (backup_of_neq p) as H4.
  pose proof (backup_neq_with_suffix p) as H5.
  subst dest ext.
  destruct (dest_path_of_cases p) as [[_ ->]|[_ ->]]; by repeat split.
Qed.

(** X2. The destination of the in-place replacement is a fixed point of the
    naming policy: it has the chosen extension (up to case), the container
    choice for it is the same, and replacing it in place again targets the
    same path. *)
Theorem dest_path_fixed_point (p : Path) :
  name p ≠ "" →
  let d := dest_path_of p (choose_ext p) in
  Py.lower (suffix d) = choose_ext p
  ∧ choose_ext d = choose_ext p
  ∧ dest_path_of d (choose_ext d) = d.
Proof.
  intros Hn d.
  assert (Py.lower (suffix d) = choose_ext p) as H1.
  { subst d. destruct (dest_path_of_cases p) as [[E ->]|[_ ->]]; [done|].
    rewrite suffix_with_suffix by done. apply lower_choose_ext. }
  assert (choose_ext d = choose_ext p) as H2 by by apply choose_ext_of_suffix.
  repeat split; try done.
  unfold dest_path_of. rewrite H2, H1. by rewrite String.eqb_refl.
Qed.

Lemma dest_path_fixed_point_witness :
  let d := dest_path_of movie_mp4 (choose_ext movie_mp4) in
  d = movie_mkv ∧ choose_ext d = ".mkv" ∧ dest_path_of d (choose_ext d) = d.
Proof.
  intros d. split; [reflexivity|].
  assert (name movie_mp4 ≠ "") as Hn by discriminate.
  destruct (dest_path_fixed_point movie_mp4 Hn) as (_ & H2 & H3).
  split; [exact H2|exact H3].
Defined.

(** ** More on replace_file *)

Lemma step_frame (v : verdict) (src tmp_out dest : Path) (s : state) (q : Path) :
  q ≠ src → q ≠ backup_of src → q ≠ dest → q ≠ tmp_out →
  fs (step v src tmp_out dest s) !! q = fs s !! q.
Proof.
  intros H1 H2 H3 H4. destruct s as [p f]. unfold step. cbn [at_ fs].
  destruct p; try done; fs_cases; cbn [negb andb]; fs_cases; simpl;
    by simplify_map_eq.
Qed.

(** What a run under an environment goes through is reachable. *)
Lemma run_reachable (n : nat) (env : pc → verdict) (src tmp_out dest : Path)
    (s : state) :
  rtc (step_rel src tmp_out dest) s (run n env src tmp_out dest s).
Proof.
  revert s. induction n as [|n IH]; intros s; [apply rtc_refl|].
  destruct (final (at_ s)) eqn:Hf.
  - rewrite run_final by done. apply rtc_refl.
  - rewrite run_S. eapply rtc_l; [|apply IH]. split; [done|]. by eexists.
Qed.

Lemma replace_file_reachable (env : pc → verdict) (src tmp_out dest : Path)
    (fs0 : gmap Path File) :
  reachable src tmp_out dest fs0 (replace_file env src tmp_out dest fs0).
Proof. apply run_reachable. Qed.

(** X3. [replace_file] touches four paths only: at every point it can reach,
    failure branches included, every path other than the source, its backup,
    the destination and the temporary file holds what it held on entry. *)
Theorem replace_file_frame (src tmp_out dest : Path) (fs0 : gmap Path File)
    (s : state) (q : Path) :
  q ≠ src → q ≠ backup_of src → q ≠ dest → q ≠ tmp_out →
  reachable src tmp_out dest fs0 s →
  fs s !! q = fs0 !! q.
Proof.
  intros H1 H2 H3 H4 Hreach. unfold reachable in Hreach.
  revert s Hreach. apply rtc_ind_r; [done|].
  intros s1 s2 _ [_ [v ->]] IH. by rewrite step_frame.
Qed.

Lemma replace_file_frame_witness :
  let fs0 : gmap Path File :=
    {[ movie_mp4 := "original"; movie_tmp := "encoded";
       mkPath "videos" "notes.txt" := "keep" ]} in
  let s := replace_file (fun _ => Succeed) movie_mp4 movie_tmp movie_mkv fs0 in
  fs s !! mkPath "videos" "notes.txt" = Some "keep".
Proof.
  intros fs0 s. transitivity (fs0 !! mkPath "videos" "notes.txt").
  - apply (replace_file_frame movie_mp4 movie_tmp movie_mkv fs0 s
             (mkPath "videos" "notes.txt"));
      first [ apply replace_file_reachable
            | intros E; vm_compute in E; discriminate E ].
  - reflexivity.
Defined.

Lemma step_promote (src tmp_out dest : Path) (f : gmap Path File) (new : File) :
  f !! tmp_out = Some new →
  step Succeed src tmp_out dest (mkState AtPromote f)
  = mkState AtDropBackup (<[dest := new]> (delete tmp_out f)).
Proof.
  intros H. unfold step. cbn [at_ fs]. fs_cases; by simplify_eq.
Qed.

Lemma step_drop_backup (v : verdict) (src tmp_out dest : Path)
    (f : gmap Path File) :
  f !! backup_of src = None ∨ v = Succeed →
  step v src tmp_out dest (mkState AtDropBackup f)
  = mkState Returned (delete (backup_of src) f).
Proof.
  intros H. unfold step. cbn [at_ fs]. fs_cases; simplify_eq;
    first [ done | by rewrite delete_id | destruct H; congruence ].
Qed.

Lemma step_drop_backup_refused (src tmp_out dest : Path) (f : gmap Path File) :
  is_Some (f !! backup_of src) →
  step Raise src tmp_out dest (mkState AtDropBackup f) = mkState AtRestore f.
Proof.
  intros [x H]. unfold step. cbn [at_ fs]. fs_cases; by simplify_eq.
Qed.

Lemma step_restore_skipped (v : verdict) (src tmp_out dest : Path)
    (f : gmap Path File) :
  is_Some (f !! src) →
  step v src tmp_out dest (mkState AtRestore f) = mkState Raised f.
Proof.
  intros [x H]. unfold step. cbn [at_ fs]. fs_cases; cbn [negb andb];
    by simplify_eq.
Qed.

(** The run up to the point after the promotion, when nothing is refused
    until then. *)
Lemma run_to_promoted (env : pc → verdict) (src tmp_out dest : Path)
    (fs0 : gmap Path File) (orig new : File) (n : nat) :
  fs0 !! src = Some orig → fs0 !! tmp_out = Some new →
  backup_of src ≠ dest →
  tmp_out ≠ src → tmp_out ≠ backup_of src → tmp_out ≠ dest →
  env AtStaleBackup = Succeed → env AtBackup = Succeed →
  env AtClearDest = Succeed → env AtPromote = Succeed →
  ∃ f, run (4 + n) env src tmp_out dest (mkState AtStaleBackup fs0)
       = run n env src tmp_out dest (mkState AtDropBackup f)
       ∧ f !! backup_of src = Some orig ∧ f !! dest = Some new
       ∧ f !! tmp_out = None ∧ (dest ≠ src → f !! src = None)
       ∧ (∀ q, q ≠ src → q ≠ backup_of src → q ≠ dest → q ≠ tmp_out →
            f !! q = fs0 !! q).
Proof.
  intros H0 Ht Hbd Hts Htb Htd E1 E2 E3 E4.
  pose proof (backup_of_neq src) as Hbs.
  eexists. split.
  - change (4 + n) with (S (S (S (S n)))).
    rewrite run_S. cbn [at_]. rewrite E1, step_stale_backup by (by right).
    rewrite run_S. cbn [at_]. rewrite E2, (step_backup _ _ _ _ orig)
      by (by rewrite lookup_delete_ne).
    rewrite run_S. cbn [at_]. rewrite E3, step_clear_dest by (by right).
    rewrite run_S. cbn [at_]. rewrite E4, (step_promote _ _ _ _ new).
    + reflexivity.
    + destruct (decide (dest = src)) as [->|?]; by simplify_map_eq.
  - repeat split; intros; destruct (decide (dest = src)) as [->|?];
      by simplify_map_eq.
Qed.

(** X4. [replace_file] returns normally only with the transaction
    committed: the destination holds the encoded file, the backup and the
    temporary file are gone, and the source path is empty unless it is the
    destination. When no file operation is refused it does return. *)
Theorem replace_file_commit (env : pc → verdict) (src tmp_out dest : Path)
    (fs0 : gmap Path File) (orig new : File) :
  fs0 !! src = Some orig → fs0 !! tmp_out = Some new →
  backup_of src ≠ dest →
  tmp_out ≠ src → tmp_out ≠ backup_of src → tmp_out ≠ dest →
  let s := replace_file env src tmp_out dest fs0 in
  (at_ s = Returned →
   fs s !! dest = Some new ∧ fs s !! backup_of src = None
   ∧ fs s !! tmp_out = None ∧ (dest ≠ src → fs s !! src = None))
  ∧ ((∀ p, env p = Succeed) → at_ s = Returned).
Proof.
  intros H0 Ht Hbd Hts Htb Htd s. split.
  - pose proof (replace_inv_reachable src tmp_out dest fs0 orig s H0 Hbd Hts
                  Htb Htd (replace_file_reachable env src tmp_out dest fs0))
      as Hinv.
    clearbody s. destruct s as [p f]. unfold replace_inv in Hinv.
    cbn [at_ fs] in *. intros ->.
    destruct Hinv as (H1 & _ & H3 & H4 & H5). rewrite H3. by repeat split.
  - intros Hall. subst s. unfold replace_file.
    destruct (run_to_promoted env src tmp_out dest fs0 orig new 2)
      as (f & Hrun & Hb & _); try done.
    change 6 with (4 + 2). rewrite Hrun.
    rewrite run_S. cbn [at_]. rewrite step_drop_backup by (right; apply Hall).
    by rewrite run_final.
Qed.

Lemma replace_file_commit_witness :
  let fs0 : gmap Path File :=
    {[ movie_mp4 := "original"; movie_mkv := "older output";
       movie_tmp := "encoded" ]} in
  at_ (replace_file (fun _ => Succeed) movie_mp4 movie_tmp movie_mkv fs0)
  = Returned.
Proof.
  intros fs0.
  apply (replace_file_commit (fun _ => Succeed) movie_mp4 movie_tmp movie_mkv
           fs0 "original" "encoded");
    first [ reflexivity | intros E; vm_compute in E; discriminate E ].
Defined.

(** X5. When everything succeeds up to the promotion and the removal of the
    backup is then refused, [replace_file] raises although the encoded file
    is at the destination. With a destination other than the source the
    handler moves the backup back, so the original and the encoded file are
    both present afterwards; with the destination equal to the source the
    handler does nothing and the original stays at the backup path. *)
Theorem backup_removal_refused (env : pc → verdict) (src tmp_out dest : Path)
    (fs0 : gmap Path File) (orig new : File) :
  fs0 !! src = Some orig → fs0 !! tmp_out = Some new →
  backup_of src ≠ dest →
  tmp_out ≠ src → tmp_out ≠ backup_of src → tmp_out ≠ dest →
  env AtStaleBackup = Succeed → env AtBackup = Succeed →
  env AtClearDest = Succeed → env AtPromote = Succeed →
  env AtDropBackup = Raise → env AtRestore = Succeed →
  let s := replace_file env src tmp_out dest fs0 in
  at_ s = Raised ∧ fs s !! dest = Some new ∧ fs s !! tmp_out = None
  ∧ (dest ≠ src → fs s !! src = Some orig ∧ fs s !! backup_of src = None)
  ∧ (dest = src → fs s !! backup_of src = Some orig).
Proof.
  intros H0 Ht Hbd Hts Htb Htd E1 E2 E3 E4 E5 E6 s. subst s.
  pose proof (backup_of_neq src) as Hbs.
  unfold replace_file.
  destruct (run_to_promoted env src tmp_out dest fs0 orig new 2)
    as (f & Hrun & Hb & Hd & Htmp & Hsrc & _); try done.
  change 6 with (4 + 2). rewrite Hrun.
  rewrite run_S. cbn [at_]. rewrite E5, step_drop_backup_refused by by eexists.
  rewrite run_S. cbn [at_]. rewrite E6.
  destruct (decide (dest = src)) as [->|Hds].
  - rewrite step_restore_skipped by by eexists. cbn [run at_ fs].
    by repeat split.
  - rewrite (step_restore _ _ _ _ orig) by auto. cbn [run at_ fs].
    repeat split; intros; by simplify_map_eq.
Qed.

Lemma backup_removal_refused_witness :
  let fs0 : gmap Path File :=
    {[ movie_mp4 := "original"; movie_tmp := "encoded" ]} in
  let s := replace_file (refuse_at AtDropBackup) movie_mp4 movie_tmp movie_mkv
             fs0 in
  at_ s = Raised ∧ fs s !! movie_mkv = Some "encoded"
  ∧ fs s !! movie_tmp = None
  ∧ (movie_mkv ≠ movie_mp4 →
     fs s !! movie_mp4 = Some "original" ∧ fs s !! backup_of movie_mp4 = None)
  ∧ (movie_mkv = movie_mp4 → fs s !! backup_of movie_mp4 = Some "original").
Proof.
  intros fs0 s.
  apply (backup_removal_refused (refuse_at AtDropBackup) movie_mp4 movie_tmp
           movie_mkv fs0 "original" "encoded");
    first [ reflexivity | intros E; vm_compute in E; discriminate E ].
Defined.

(** ** The encoder's options *)

Lemma replace_char_no_dash (s : string) :
  PyText.has_char "-" (PyText.replace_char "-" "_" s) = false.
Proof.
  induction s as [|c s IH]; [done|]. simpl. rewrite IH.
  by destruct (Ascii.eqb_spec c "-"); [|destruct (Ascii.eqb_spec c "-")].
Qed.

Lemma replace_char_all (P : ascii → bool) (a b : ascii) (s : string) :
  P b = true → PyText.all_chars P s = true →
  PyText.all_chars P (PyText.replace_char a b s) = true.
Proof.
  intros Hb. induction s as [|c s IH]; [done|]. simpl.
  intros [Hc Hs]%andb_true_iff. rewrite IH by done.
  by destruct (Ascii.eqb c a); [rewrite Hb|rewrite Hc].
Qed.

Lemma lstrip_char_all (P : ascii → bool) (x : ascii) (s : string) :
  PyText.all_chars P s = true →
  PyText.all_chars P (PyText.lstrip_char x s) = true.
Proof.
  induction s as [|c s IH]; [done|]. simpl.
  intros H. destruct (Ascii.eqb c x); [|done].
  apply andb_true_iff in H as [_ H]. by apply IH.
Qed.

Lemma first_word_no_space (s : string) :
  PyText.all_chars (fun c => negb (PyText.isspace c)) (PyText.first_word s)
  = true.
Proof.
  induction s as [|c s IH]; [done|]. simpl.
  destruct (PyText.isspace c) eqn:E; [done|]. simpl. by rewrite E, IH.
Qed.

Lemma lstrip_id (c : ascii) (s : string) :
  PyText.isspace c = false → PyText.lstrip (String c s) = String c s.
Proof. intros H. simpl. by rewrite H. Qed.

Lemma prefix_cons (a b : ascii) (s1 s2 : string) :
  String.prefix (String a s1) (String b s2)
  = if Ascii.eqb a b then String.prefix s1 s2 else false.
Proof.
  change (String.prefix (String a s1) (String b s2))
    with (match ascii_dec a b with
          | left _ => String.prefix s1 s2
          | right _ => false
          end).
  destruct (ascii_dec a b), (Ascii.eqb_spec a b); congruence.
Qed.

Lemma startswith_dash (s : string) :
  Py.startswith s "-" = true → ∃ r, s = String "-" r.
Proof.
  unfold Py.startswith. destruct s as [|c s]; [done|].
  rewrite prefix_cons. destruct (Ascii.eqb_spec "-" c) as [<-|]; [|done].
  by eexists.
Qed.

(** The [IndexError] of [s.split()[0]] cannot happen: a line that passes the
    test has a first word. *)
Lemma scan_line_no_raise (line : string) : scan_line line ≠ LineRaise.
Proof.
  unfold scan_line. destruct (_ && _) eqn:E; [|done].
  apply andb_true_iff in E as [(r & ->)%startswith_dash _].
  unfold PyText.split_head. rewrite lstrip_id by done.
  by destruct (nonempty _).
Qed.

Lemma nonempty_neq (s : string) : nonempty s = true → s ≠ "".
Proof. by destruct s. Qed.

Lemma scan_line_add (line name : string) :
  scan_line line = LineAdd name →
  name ≠ "" ∧ PyText.has_char "-" name = false
  ∧ PyText.all_chars (fun c => negb (PyText.isspace c)) name = true.
Proof.
  unfold scan_line. destruct (_ && _); [|done].
  unfold PyText.split_head. destruct (PyText.lstrip _) as [|c t] eqn:E; [done|].
  destruct (nonempty _) eqn:Hn; [|done]. intros [= <-]. repeat split.
  - by apply nonempty_neq.
  - apply replace_char_no_dash.
  - apply replace_char_all; [done|]. apply lstrip_char_all.
    apply (first_word_no_space (String c t)).
Qed.

Lemma scan_lines_elem (lines : list string) (opts : gset string)
    (name : string) :
  name ∈ scan_lines lines opts
  ↔ name ∈ opts ∨ ∃ line, line ∈ lines ∧ scan_line line = LineAdd name.
Proof.
  revert opts. induction lines as [|l rest IH]; intros opts; simpl.
  - split; [by left|]. intros [?|(line & Hin & _)]; [done|].
    by apply elem_of_nil in Hin.
  - destruct (scan_line l) as [|n|] eqn:E.
    + rewrite IH. split.
      * intros [?|(line & Hin & Hl)]; [by left|right].
        exists line. split; [by right|done].
      * intros [?|(line & Hin & Hl)]; [by left|].
        apply elem_of_cons in Hin as [->|Hin]; [congruence|].
        right. by exists line.
    + rewrite IH, elem_of_union, elem_of_singleton. split.
      * intros [[->|?]|(line & Hin & Hl)].
        -- right. exists l. split; [by left|done].
        -- by left.
        -- right. exists line. split; [by right|done].
      * intros [?|(line & Hin & Hl)]; [left; by right|].
        apply elem_of_cons in Hin as [->|Hin].
        -- left. left. congruence.
        -- right. by exists line.
    + by apply scan_line_no_raise in E.
Qed.

(** X6. Every option name [get_av1_nvenc_options] computes is non-empty
    and contains neither a hyphen nor white space, whatever the encoder
    prints. *)
Theorem nvenc_option_names_wellformed
    (help : string → option (option string * option string))
    (ffmpeg_bin : string) (name : string) :
  name ∈ (get_av1_nvenc_options None help ffmpeg_bin).1 →
  name ≠ "" ∧ PyText.has_char "-" name = false
  ∧ PyText.all_chars (fun c => negb (PyText.isspace c)) name = true.
Proof.
  unfold get_av1_nvenc_options. cbn [fst].
  destruct (help ffmpeg_bin) as [[out err]|]; [|by intros ?%elem_of_empty].
  intros [?%elem_of_empty|(line & _ & Hl)]%scan_lines_elem; [done|].
  by apply scan_line_add in Hl.
Qed.

Lemma nvenc_option_names_wellformed_witness :
  let help := fun _ : string =>
    Some (Some "  -spatial-aq  <boolean>  set to 1 to enable", None) in
  "spatial_aq" ∈ (get_av1_nvenc_options None help "ffmpeg").1
  ∧ "spatial_aq" ≠ "".
Proof.
  intros help.
  assert ("spatial_aq" ∈ (get_av1_nvenc_options None help "ffmpeg").1) as H
      by (apply (bool_decide_unpack _); vm_compute; exact I).
  split; [exact H|].
  exact (proj1 (nvenc_option_names_wellformed help "ffmpeg" "spatial_aq" H)).
Defined.

Lemma prefix_nil (s : string) : String.prefix "" s = true.
Proof. by destruct s. Qed.

Lemma lstrip_indent (indent x : string) :
  PyText.all_chars PyText.isspace indent = true →
  PyText.lstrip (indent +:+ x) = PyText.lstrip x.
Proof.
  induction indent as [|c i IH]; [done|]. intros Ha. simpl in Ha.
  apply andb_true_iff in Ha as [Hc Hi].
  change (PyText.lstrip (String c (i +:+ x)) = PyText.lstrip x).
  simpl. rewrite Hc. by apply IH.
Qed.

Lemma rstrip_cons_nospace (c : ascii) (s : string) :
  PyText.isspace c = false →
  PyText.rstrip (String c s) = String c (PyText.rstrip s).
Proof. intros H. simpl. rewrite H. by destruct (PyText.rstrip s). Qed.

Lemma rstrip_nospace_app (a r : string) :
  PyText.all_chars (fun c => negb (PyText.isspace c)) a = true →
  PyText.rstrip (a +:+ r) = a +:+ PyText.rstrip r.
Proof.
  induction a as [|c a IH]; [done|]. intros Ha. simpl in Ha.
  apply andb_true_iff in Ha as [Hc Ha]. apply negb_true_iff in Hc.
  change (PyText.rstrip (String c (a +:+ r)) = String c (a +:+ PyText.rstrip r)).
  rewrite rstrip_cons_nospace by done. by rewrite IH.
Qed.

Lemma rstrip_space_led (r : string) : space_led r → space_led (PyText.rstrip r).
Proof.
  intros [->|(w & r' & -> & Hw)]; [by left|]. simpl. rewrite Hw.
  destruct (PyText.rstrip r'); [by left|]. right. by eexists _, _.
Qed.

Lemma first_word_app (a r : string) :
  PyText.all_chars (fun c => negb (PyText.isspace c)) a = true →
  space_led r → PyText.first_word (a +:+ r) = a.
Proof.
  intros Ha Hr. induction a as [|c a IH].
  - destruct Hr as [->|(w & r' & -> & Hw)]; [done|]. simpl. by rewrite Hw.
  - simpl in Ha. apply andb_true_iff in Ha as [Hc Ha].
    apply negb_true_iff in Hc.
    change (String c a +:+ r) with (String c (a +:+ r)). simpl.
    rewrite Hc. by rewrite IH.
Qed.

Lemma replace_char_nonempty (a b : ascii) (s : string) :
  s ≠ "" → nonempty (PyText.replace_char a b s) = true.
Proof. by destruct s. Qed.

(** What a well-formed option line gives. *)
Lemma scan_line_option (indent tok rest : string) :
  PyText.all_chars PyText.isspace indent = true →
  tok ≠ "" →
  PyText.all_chars (fun c => negb (PyText.isspace c)) tok = true →
  Py.startswith tok "-" = false →
  space_led rest →
  scan_line (indent +:+ String "-" (tok +:+ rest))
  = LineAdd (PyText.replace_char "-" "_" tok).
Proof.
  intros Hi Hne Htok Hdash Hrest. unfold scan_line, PyText.strip.
  rewrite lstrip_indent, lstrip_id, rstrip_cons_nospace, rstrip_nospace_app
    by done.
  pose proof (rstrip_space_led rest Hrest) as Hr.
  set (r := PyText.rstrip rest) in *.
  destruct tok as [|t tok]; [done|].
  unfold Py.startswith in *. rewrite prefix_cons, prefix_nil in Hdash.
  destruct (Ascii.eqb "-" t) eqn:Et; [done|]. clear Hdash.
  change (String t tok +:+ r) with (String t (tok +:+ r)).
  rewrite !prefix_cons, !prefix_nil, Et.
  replace (Ascii.eqb "-" "-") with true by done. cbn [andb negb].
  unfold PyText.split_head. rewrite lstrip_id by done.
  change (String t (tok +:+ r)) with (String t tok +:+ r).
  change (PyText.first_word (String "-" (String t tok +:+ r)))
    with (String "-" (PyText.first_word (String t tok +:+ r))).
  rewrite first_word_app by done.
  change (PyText.lstrip_char "-" (String "-" (String t tok)))
    with (PyText.lstrip_char "-" (String t tok)).
  assert (PyText.lstrip_char "-" (String t tok) = String t tok) as ->.
  { simpl. rewrite Ascii.eqb_sym. by rewrite Et. }
  by rewrite replace_char_nonempty.
Qed.

(** X7. A line of the encoder's help that consists of white space, one
    hyphen, a name without white space that does not begin with a hyphen,
    and then nothing or white space and a description, puts the name, with
    its hyphens turned into underscores, into the option set, wherever the
    line stands in the output. *)
Theorem nvenc_option_recognised
    (help : string → option (option string * option string))
    (ffmpeg_bin : string) (out err : option string)
    (indent tok rest : string) :
  help ffmpeg_bin = Some (out, err) →
  indent +:+ String "-" (tok +:+ rest)
    ∈ PyText.splitlines (help_text out err) →
  PyText.all_chars PyText.isspace indent = true →
  tok ≠ "" →
  PyText.all_chars (fun c => negb (PyText.isspace c)) tok = true →
  Py.startswith tok "-" = false →
  space_led rest →
  PyText.replace_char "-" "_" tok
    ∈ (get_av1_nvenc_options None help ffmpeg_bin).1.
Proof.
  intros Hh Hin Hi Hne Htok Hdash Hrest.
  unfold get_av1_nvenc_options. rewrite Hh. cbn [fst].
  apply scan_lines_elem. right. eexists. split; [exact Hin|].
  by apply scan_line_option.
Qed.

Lemma nvenc_option_recognised_witness :
  let help := fun _ : string =>
    Some (Some ("Encoder av1_nvenc:" +:+ PyText.newline
                +:+ "  -spatial-aq  <boolean>  set to 1 to enable"),
          Some "") in
  "spatial_aq" ∈ (get_av1_nvenc_options None help "ffmpeg").1.
Proof.
  intros help.
  apply (nvenc_option_recognised help "ffmpeg"
           (Some ("Encoder av1_nvenc:" +:+ PyText.newline
                  +:+ "  -spatial-aq  <boolean>  set to 1 to enable"))
           (Some "") "  " "spatial-aq" "  <boolean>  set to 1 to enable").
  - reflexivity.
  - apply (bool_decide_unpack _). vm_compute. exact I.
  - reflexivity.
  - discriminate.
  - reflexivity.
  - reflexivity.
  - right. eexists _, _. split; reflexivity.
Defined.

(** X8. The option set is computed once per process: every later call
    returns the set of the first call and leaves the cache as it is, whatever
    encoder it is asked about and whatever that encoder would print. So when
    the first query fails, no later plan carries an adaptive-quantisation
    flag. *)
Theorem nvenc_options_cached
    (help1 help2 : string → option (option string * option string))
    (bin1 bin2 : string) (info : MediaInfo) (cq : option Z)
    (target_bitrate : option string) (extra_video_args : list string) :
  let first := get_av1_nvenc_options None help1 bin1 in
  let later := get_av1_nvenc_options first.2 help2 bin2 in
  later = first
  ∧ (help1 bin1 = None →
     later.1 = ∅
     ∧ builtin_v_args later.1 info cq target_bitrate extra_video_args
       = ["-c:v"; "av1_nvenc"] ++ preset_args extra_video_args
         ++ (if Py.truthy target_bitrate
             then bitrate_mode_args (Py.or_str target_bitrate "")
             else quality_mode_args cq)
         ++ ["-bf"; "3"; "-pix_fmt"; v_pix_of info] ++ color_args info).
Proof.
  intros first later. split; [done|]. intros Hfail.
  assert (later.1 = ∅) as Hempty.
  { subst later first. unfold get_av1_nvenc_options. by rewrite Hfail. }
  split; [done|]. rewrite Hempty, builtin_v_args_segments. done.
Qed.

Lemma nvenc_options_cached_witness :
  let failing := fun _ : string => @None (option string * option string) in
  let working := fun _ : string =>
    Some (Some "-spatial_aq <boolean>", @None string) in
  (get_av1_nvenc_options
     (get_av1_nvenc_options None failing "ffmpeg").2 working "ffmpeg").1 = ∅.
Proof.
  intros failing working.
  exact (proj1 (proj2 (nvenc_options_cached failing working "ffmpeg" "ffmpeg"
                         (mkMediaInfo true false [] [] 0 0 None None None None)
                         None None []) eq_refl)).
Defined.

(** ** probe_media *)

(** The kinds of stream exclude each other. *)
Lemma has_type_excl (k k' : string) (st : StreamDict) :
  k ≠ k' → has_type k st = true → has_type k' st = false.
Proof.
  unfold has_type. destruct (st_codec_type st) as [t|]; [|done].
  intros Hk ->%String.eqb_eq. by apply String.eqb_neq.
Qed.

Ltac probe_kind st :=
  unfold probe_stream;
  destruct (has_type "video" st) eqn:?;
    [|destruct (has_type "audio" st) eqn:?;
      [|destruct (has_type "subtitle" st) eqn:?;
        [|destruct (has_type "attachment" st) eqn:?]]];
  cbn [acc_has_video acc_all_video_av1 acc_audio_codecs acc_audio_streams
       acc_subtitle_streams acc_attachments acc_colorspace
       acc_color_primaries acc_color_trc acc_pix_fmt].

Lemma probe_fold_has_video (l : list StreamDict) (acc : ProbeAcc) :
  acc_has_video (fold_left probe_stream l acc)
  = acc_has_video acc || existsb (has_type "video") l.
Proof.
  revert acc. induction l as [|st l IH]; intros acc; simpl.
  - by rewrite orb_false_r.
  - rewrite IH. probe_kind st; simpl; try done. by rewrite orb_true_r.
Qed.

Lemma probe_fold_all_av1 (l : list StreamDict) (acc : ProbeAcc) :
  acc_all_video_av1 (fold_left probe_stream l acc)
  = acc_all_video_av1 acc
    && forallb (fun st => negb (has_type "video" st) || has_codec "av1" st) l.
Proof.
  revert acc. induction l as [|st l IH]; intros acc; simpl.
  - by rewrite andb_true_r.
  - rewrite IH. probe_kind st; simpl; try done. unfold has_codec.
    destruct (st_codec_name st) as [c|]; [destruct (String.eqb c "av1")|];
      simpl; by rewrite ?andb_false_r.
Qed.

Lemma probe_fold_audio (l : list StreamDict) (acc : ProbeAcc) :
  acc_audio_codecs (fold_left probe_stream l acc)
  = acc_audio_codecs acc
    ++ map (fun st => Py.or_str (st_codec_name st) "")
         (List.filter (has_type "audio") l)
  ∧ acc_audio_streams (fold_left probe_stream l acc)
    = acc_audio_streams acc
      ++ map audio_entry (List.filter (has_type "audio") l).
Proof.
  revert acc. induction l as [|st l IH]; intros acc; simpl.
  - by rewrite !app_nil_r.
  - destruct (IH (probe_stream acc st)) as [-> ->].
    probe_kind st; simpl;
      rewrite ?(has_type_excl "video" "audio") by done;
      rewrite ?app_nil_r, <- ?app_assoc; done.
Qed.

Lemma probe_fold_counts (l : list StreamDict) (acc : ProbeAcc) :
  acc_subtitle_streams (fold_left probe_stream l acc)
  = (acc_subtitle_streams acc
     + Z.of_nat (length (List.filter (has_type "subtitle") l)))%Z
  ∧ acc_attachments (fold_left probe_stream l acc)
    = (acc_attachments acc
       + Z.of_nat (length (List.filter (has_type "attachment") l)))%Z.
Proof.
  revert acc. induction l as [|st l IH]; intros acc; simpl.
  - split; lia.
  - destruct (IH (probe_stream acc st)) as [-> ->].
    probe_kind st; simpl;
      rewrite ?(has_type_excl "video" "subtitle"),
        ?(has_type_excl "video" "attachment"),
        ?(has_type_excl "audio" "subtitle"),
        ?(has_type_excl "audio" "attachment"),
        ?(has_type_excl "subtitle" "attachment") by done;
      simpl; split; lia.
Qed.

Lemma probe_fold_colours (l : list StreamDict) (acc : ProbeAcc) :
  let video := List.filter (has_type "video") l in
  let r := fold_left probe_stream l acc in
  acc_colorspace r
  = fold_left or_opt (map st_color_space video) (acc_colorspace acc)
  ∧ acc_color_primaries r
    = fold_left or_opt (map st_color_primaries video) (acc_color_primaries acc)
  ∧ acc_color_trc r
    = fold_left or_opt (map st_color_transfer video) (acc_color_trc acc)
  ∧ acc_pix_fmt r
    = fold_left or_opt (map st_pix_fmt video) (acc_pix_fmt acc).
Proof.
  revert acc. induction l as [|st l IH]; intros acc; simpl; [done|].
  destruct (IH (probe_stream acc st)) as (-> & -> & -> & ->).
  probe_kind st; simpl; done.
Qed.

Lemma fold_or_opt_truthy (l : list (option string)) (a : option string) :
  Py.truthy a = true → fold_left or_opt l a = a.
Proof.
  intros Ha. induction l as [|x l IH]; [done|]. simpl.
  unfold or_opt at 2. by rewrite Ha.
Qed.

Lemma fold_or_opt_first (l : list (option string)) (a : option string) :
  Py.truthy a = false →
  match first_truthy l with
  | Some v => fold_left or_opt l a = v
  | None => Py.truthy (fold_left or_opt l a) = false
  end.
Proof.
  unfold first_truthy. revert a.
  induction l as [|x l IH]; intros a Ha; simpl; [done|].
  unfold or_opt at 2 4. rewrite Ha. destruct (Py.truthy x) eqn:Hx; simpl.
  - by apply fold_or_opt_truthy.
  - by apply IH.
Qed.

Lemma probe_media_Some (d : ProbeData) (info : MediaInfo) :
  probe_media (Some d) = Some info →
  let acc := fold_left probe_stream (default [] (pd_streams d)) probe_init in
  info = mkMediaInfo (acc_has_video acc)
           (if acc_has_video acc then acc_all_video_av1 acc else false)
           (acc_audio_codecs acc) (acc_audio_streams acc)
           (acc_subtitle_streams acc) (acc_attachments acc)
           (acc_colorspace acc) (acc_color_primaries acc)
           (acc_color_trc acc) (acc_pix_fmt acc).
Proof.
  unfold probe_media. destruct (pd_streams d), (pd_other_keys d); simpl;
    congruence.
Qed.

(** The video flags of a probe result, read off the fold over the
    streams. *)
Lemma probe_video_spec (d : ProbeData) (info : MediaInfo) :
  probe_media (Some d) = Some info →
  let streams := default [] (pd_streams d) in
  (has_video info = true
   ↔ ∃ st, st ∈ streams ∧ has_type "video" st = true)
  ∧ (all_video_av1 info = true
     ↔ has_video info = true
       ∧ ∀ st, st ∈ streams → has_type "video" st = true →
               st_codec_name st = Some "av1").
Proof.
  intros Hp streams. apply probe_media_Some in Hp. fold streams in Hp.
  subst info. cbn [has_video all_video_av1].
  rewrite probe_fold_has_video, probe_fold_all_av1. simpl.
  assert (existsb (has_type "video") streams = true
          ↔ ∃ st, st ∈ streams ∧ has_type "video" st = true) as Hex.
  { rewrite existsb_exists. split; intros (st & Hin & Hv); exists st;
      by rewrite ?list_elem_of_In in *. }
  split; [exact Hex|].
  destruct (existsb (has_type "video") streams) eqn:Hv.
  - rewrite forallb_forall. split.
    + intros Hall. split; [done|]. intros st Hin Hvs.
      apply list_elem_of_In, Hall in Hin. rewrite Hvs in Hin. simpl in Hin.
      unfold has_codec in Hin. destruct (st_codec_name st) as [c|]; [|done].
      by apply String.eqb_eq in Hin as ->.
    + intros [_ Hall] st Hin. apply list_elem_of_In in Hin.
      destruct (has_type "video" st) eqn:Hvs; [|done]. simpl.
      unfold has_codec. by rewrite (Hall st Hin Hvs).
  - split; [done|]. by intros [? _].
Qed.


(** X9. The two video flags of a probe result: [has_video] holds exactly
    when some stream is a video stream, and [all_video_av1] exactly when
    there is a video stream and every video stream has the codec name "av1"
    (a video stream without a codec name does not count as AV1). So
    [all_video_av1] implies [has_video]. *)
Theorem probe_video_flags (d : ProbeData) (info : MediaInfo) :
  probe_media (Some d) = Some info →
  let streams := default [] (pd_streams d) in
  (has_video info = true
   ↔ ∃ st, st ∈ streams ∧ has_type "video" st = true)
  ∧ (all_video_av1 info = true
     ↔ has_video info = true
       ∧ ∀ st, st ∈ streams → has_type "video" st = true →
               st_codec_name st = Some "av1").
Proof. exact (probe_video_spec d info). Qed.

Lemma probe_video_flags_witness :
  let video := mkStreamDict (Some "video") (Some "hevc") (Some 0%Z) None None
                 None None None None (Some "yuv420p") in
  let d := mkProbeData (Some [video]) true in
  ∃ info, probe_media (Some d) = Some info
          ∧ has_video info = true ∧ all_video_av1 info = false.
Proof.
  intros video d. eexists. split; [reflexivity|].
  split; [|reflexivity].
  destruct (probe_video_flags d _ eq_refl) as [[_ H] _]. apply H.
  exists video. split; [by left|reflexivity].
Defined.

Lemma probe_audio_codecs_spec (d : ProbeData) (info : MediaInfo) :
  probe_media (Some d) = Some info →
  audio_codecs info
  = map (fun st => Py.or_str (st_codec_name st) "")
      (List.filter (has_type "audio") (default [] (pd_streams d))).
Proof.
  intros Hp. apply probe_media_Some in Hp. subst info. cbn [audio_codecs].
  by destruct (probe_fold_audio (default [] (pd_streams d)) probe_init)
    as [-> _].
Qed.

(** X10. A probe result keeps the audio streams in the order of the probe:
    its codec names and its audio entries are those of the audio streams of
    the input, one for one, a missing codec name being recorded as the empty
    name; so the two lists have the same length. The subtitle and attachment
    counts are the numbers of such streams. *)
Theorem probe_audio_streams (d : ProbeData) (info : MediaInfo) :
  probe_media (Some d) = Some info →
  let streams := default [] (pd_streams d) in
  let audio := List.filter (has_type "audio") streams in
  audio_codecs info = map (fun st => Py.or_str (st_codec_name st) "") audio
  ∧ audio_streams info = map audio_entry audio
  ∧ length (audio_codecs info) = length (audio_streams info)
  ∧ subtitle_streams info
    = Z.of_nat (length (List.filter (has_type "subtitle") streams))
  ∧ attachments info
    = Z.of_nat (length (List.filter (has_type "attachment") streams)).
Proof.
  intros Hp streams audio. apply probe_media_Some in Hp. fold streams in Hp.
  subst info. cbn [audio_codecs audio_streams subtitle_streams attachments].
  destruct (probe_fold_audio streams probe_init) as [-> ->].
  destruct (probe_fold_counts streams probe_init) as [-> ->].
  simpl. by rewrite !length_map.
Qed.

Lemma probe_audio_streams_witness :
  let audio := mkStreamDict (Some "audio") None (Some 1%Z) (Some 2%Z)
                 None (Some "stereo") None None None None in
  let d := mkProbeData (Some [audio]) true in
  ∃ info, probe_media (Some d) = Some info
          ∧ audio_codecs info = [""]
          ∧ audio_streams info
            = [mkAudioStream (Some 1%Z) (Some 2%Z) (Some "stereo")].
Proof.
  intros audio d. eexists. split; [reflexivity|].
  destruct (probe_audio_streams d _ eq_refl) as (H1 & H2 & _).
  split; [exact H1|exact H2].
Defined.

(** X11. Each of the four colour and pixel-format fields of a probe result
    is the first non-empty value among the video streams, in their order;
    when no video stream has a non-empty value the field is missing or
    empty. Audio and other streams never contribute. *)
Theorem probe_first_colour (d : ProbeData) (info : MediaInfo) :
  probe_media (Some d) = Some info →
  let video := List.filter (has_type "video") (default [] (pd_streams d)) in
  let first (get : StreamDict → option string) (field : option string) :=
    match first_truthy (map get video) with
    | Some v => field = v
    | None => Py.truthy field = false
    end in
  first st_color_space (colorspace info)
  ∧ first st_color_primaries (color_primaries info)
  ∧ first st_color_transfer (color_trc info)
  ∧ first st_pix_fmt (pix_fmt info).
Proof.
  intros Hp video first. apply probe_media_Some in Hp. subst info.
  cbn [colorspace color_primaries color_trc pix_fmt].
  destruct (probe_fold_colours (default [] (pd_streams d)) probe_init)
    as (-> & -> & -> & ->).
  subst first. repeat split; by apply fold_or_opt_first.
Qed.

Lemma probe_first_colour_witness :
  let v1 := mkStreamDict (Some "video") (Some "hevc") (Some 0%Z) None None
              None (Some "") None None None in
  let v2 := mkStreamDict (Some "video") (Some "mjpeg") (Some 1%Z) None None
              None (Some "bt709") None None (Some "yuvj420p") in
  let d := mkProbeData (Some [v1; v2]) true in
  ∃ info, probe_media (Some d) = Some info
          ∧ colorspace info = Some "bt709"
          ∧ Py.truthy (color_primaries info) = false.
Proof.
  intros v1 v2 d. eexists. split; [reflexivity|].
  destruct (probe_first_colour d _ eq_refl) as (H1 & H2 & _).
  split; [exact H1|exact H2].
Defined.

(** X12. Which files [process_file] skips, in terms of the probe: the
    compliance test on a probe result succeeds exactly when the probe lists
    a video stream, every video stream has the codec name "av1", and every
    audio stream has the codec name "opus", an empty one, or none. A failed
    probe is never compliant. *)
Theorem probe_compliant_iff (d : ProbeData) :
  let streams := default [] (pd_streams d) in
  (already_compliant (probe_media (Some d)) = true
   ↔ (∃ st, st ∈ streams ∧ has_type "video" st = true)
     ∧ (∀ st, st ∈ streams → has_type "video" st = true →
              st_codec_name st = Some "av1")
     ∧ (∀ st, st ∈ streams → has_type "audio" st = true →
              st_codec_name st = None ∨ st_codec_name st = Some ""
              ∨ st_codec_name st = Some "opus"))
  ∧ already_compliant (probe_media None) = false.
Proof.
  intros streams. split; [|done].
  destruct (probe_media (Some d)) as [info|] eqn:Hp.
  - destruct (probe_video_spec d info Hp) as [Hv Ha].
    pose proof (probe_audio_codecs_spec d info Hp) as Hc.
    fold streams in Hv, Ha, Hc.
    unfold already_compliant.
    destruct (has_video info) eqn:E1; simpl.
    2: { split; [done|]. intros [Hex _]. apply Hv in Hex. done. }
    destruct (all_video_av1 info) eqn:E2; simpl.
    2: { split; [done|]. intros (_ & Hall & _).
         assert (false = true) by (apply Ha; by split). done. }
    destruct (all_opus (audio_codecs info)) eqn:E3.
    + split; [|done]. intros _. split; [by apply Hv|].
      split; [by apply Ha|]. intros st Hin Hau.
      pose proof (proj1 (all_opus_spec _) E3
                    (Py.or_str (st_codec_name st) "")) as Ho.
      assert (Py.or_str (st_codec_name st) "" ∈ audio_codecs info) as Hmem.
      { rewrite Hc. apply list_elem_of_In.
        apply (in_map (fun st => Py.or_str (st_codec_name st) "")).
        apply filter_In. split; [by apply list_elem_of_In|done]. }
      specialize (Ho Hmem).
      destruct (st_codec_name st) as [[|c s]|]; auto.
      right. right. f_equal. by apply Ho.
    + split; [done|]. intros (_ & _ & Hau).
      assert (all_opus (audio_codecs info) = true); [|congruence].
      apply all_opus_spec. intros ac Hin Hne. rewrite Hc in Hin.
      apply list_elem_of_In, in_map_iff in Hin as (st & <- & Hst).
      apply filter_In in Hst as [Hst Hty]. apply list_elem_of_In in Hst.
      destruct (Hau st Hst Hty) as [E|[E|E]]; rewrite E in *; done.
  - unfold probe_media in Hp.
    destruct (pd_streams d) as [l|] eqn:El, (pd_other_keys d); try done.
    subst streams. rewrite ?El. simpl. split; [done|].
    intros [(st & Hin & _) _]. by apply elem_of_nil in Hin.
Qed.

(** ** process_file *)

(** The temporary file of a call is none of the other paths the call
    touches. *)
Lemma tmp_out_distinct (drive_of : string → string) (env : pf_env)
    (path : Path) (temp_dir : option string) :
  let tmp := tmp_out_of drive_of env path temp_dir in
  tmp ≠ path ∧ tmp ≠ backup_of path
  ∧ tmp ≠ with_suffix path (choose_ext path)
  ∧ tmp ≠ dest_path_of path (choose_ext path).
Proof.
  intros tmp. subst tmp. unfold tmp_out_of.
  assert (∀ q : Path,
            tmp_name path (pf_pid env) (pf_rnd env) (choose_ext path) ≠ name q →
            mkPath (chosen_tmp_dir drive_of temp_dir (parent path))
              (tmp_name path (pf_pid env) (pf_rnd env) (choose_ext path)) ≠ q)
    as Hn.
  { intros q Hq E. apply Hq. by rewrite <- E. }
  pose proof (tmp_name_neq_name path (pf_pid env) (pf_rnd env)
                (choose_ext path)) as H1.
  pose proof (tmp_name_neq_backup path (pf_pid env) (pf_rnd env)) as H2.
  pose proof (tmp_name_neq path (pf_pid env) (pf_rnd env) (choose_ext path))
    as H3.
  repeat split; try (by apply Hn).
  destruct (dest_path_of_cases path) as [[_ ->]|[_ ->]]; by apply Hn.
Qed.

Lemma backup_neq_dest (path : Path) :
  backup_of path ≠ dest_path_of path (choose_ext path).
Proof.
  destruct (dest_path_of_cases path) as [[_ ->]|[_ ->]].
  - apply backup_of_neq.
  - apply backup_neq_with_suffix.
Qed.

Lemma run_frame (n : nat) (env : pc → verdict) (src tmp_out dest : Path)
    (s : state) (q : Path) :
  q ≠ src → q ≠ backup_of src → q ≠ dest → q ≠ tmp_out →
  fs (run n env src tmp_out dest s) !! q = fs s !! q.
Proof.
  intros H1 H2 H3 H4. revert s. induction n as [|n IH]; intros s; [done|].
  cbn [run]. by rewrite IH, step_frame.
Qed.

Lemma replace_file_run_frame (env : pc → verdict) (src tmp_out dest : Path)
    (fs0 : gmap Path File) (q : Path) :
  q ≠ src → q ≠ backup_of src → q ≠ dest → q ≠ tmp_out →
  fs (replace_file env src tmp_out dest fs0) !! q = fs0 !! q.
Proof.
  intros H1 H2 H3 H4. unfold replace_file.
  by rewrite (run_frame 6 env src tmp_out dest _ q H1 H2 H3 H4).
Qed.

Lemma cleanup_quiet_frame (v : verdict) (tmp_out : Path) (f : gmap Path File)
    (q : Path) :
  q ≠ tmp_out → cleanup_quiet v tmp_out f !! q = f !! q.
Proof.
  intros Hq. unfold cleanup_quiet. fs_cases; by simplify_map_eq.
Qed.

Lemma cleanup_bare_frame (v : verdict) (tmp_out : Path)
    (f f' : gmap Path File) (q : Path) :
  q ≠ tmp_out → cleanup_bare v tmp_out f = Some f' → f' !! q = f !! q.
Proof.
  intros Hq. unfold cleanup_bare. fs_cases; intros; by simplify_map_eq.
Qed.

Lemma in_place_frame (env : pc → verdict) (cleanup : verdict)
    (path tmp_out : Path) (chosen_ext : string) (fs0 : gmap Path File)
    (q : Path) :
  q ≠ path → q ≠ backup_of path → q ≠ dest_path_of path chosen_ext →
  q ≠ tmp_out →
  (in_place env cleanup path tmp_out chosen_ext fs0).1 !! q = fs0 !! q.
Proof.
  intros H1 H2 H3 H4. unfold in_place.
  pose proof (replace_file_run_frame env path tmp_out
                (dest_path_of path chosen_ext) fs0 q H1 H2 H3 H4) as Hf.
  destruct (replace_file env path tmp_out (dest_path_of path chosen_ext) fs0)
    as [p f]. cbn [at_ fs] in *.
  destruct p; cbn [fst]; try done; fs_cases; cbn [fst]; by simplify_map_eq.
Qed.

Lemma no_replace_frame (env : nr_env) (path tmp_out : Path)
    (chosen_ext : string) (fs0 : gmap Path File) (q : Path) :
  q ≠ with_suffix path chosen_ext → q ≠ tmp_out →
  List.last (no_replace env path tmp_out chosen_ext fs0).1 fs0 !! q = fs0 !! q.
Proof.
  intros H1 H2. unfold no_replace, move.
  destruct (nr_clear env), (nr_move env), (nr_cleanup env); fs_cases;
    cbn [fst snd List.last app]; by simplify_map_eq.
Qed.

(** The paths a call does not touch. *)
Lemma process_file_other_paths (drive_of : string → string) (env : pf_env)
    (path : Path) (cq : option Z) (target_bitrate : option string)
    (audio_bitrate : string) (dry_run no_repl : bool)
    (extra_video_args : list string) (force : bool)
    (temp_dir : option string) (ffmpeg_bin : string)
    (fs0 : gmap Path File) (q : Path) :
  q ≠ path → q ≠ backup_of path →
  q ≠ with_suffix path (choose_ext path) →
  q ≠ tmp_out_of drive_of env path temp_dir →
  out_fs (process_file drive_of env path cq target_bitrate audio_bitrate
            dry_run no_repl extra_video_args force temp_dir ffmpeg_bin fs0)
    !! q = fs0 !! q.
Proof.
  intros H1 H2 H3 H4.
  assert (q ≠ dest_path_of path (choose_ext path)) as H5.
  { by destruct (dest_path_of_cases path) as [[_ ->]|[_ ->]]. }
  unfold process_file.
  destruct (probe_media (pf_probe env)) as [info|]; [|done].
  destruct (already_compliant (Some info) && negb force); [done|].
  destruct (pf_mkdir env); [|done].
  destruct dry_run; [done|].
  destruct (pf_ffmpeg env) as [code written| |e].
  - set (fs1 := match written with
                | Some w => <[tmp_out_of drive_of env path temp_dir := w]> fs0
                | None => fs0
                end).
    assert (fs1 !! q = fs0 !! q) as Hfs1.
    { subst fs1. destruct written; by simplify_map_eq. }
    destruct (negb (code =? 0)%Z).
    + cbn [out_fs]. by rewrite cleanup_quiet_frame.
    + destruct no_repl; cbn [out_fs].
      * by rewrite no_replace_frame.
      * by rewrite in_place_frame.
  - destruct (cleanup_bare _ _ _) as [f'|] eqn:E; [|reflexivity].
    cbn [out_fs]. exact (cleanup_bare_frame _ _ _ _ _ H4 E).
  - destruct (cleanup_bare _ _ _) as [f'|] eqn:E; [|reflexivity].
    cbn [out_fs]. exact (cleanup_bare_frame _ _ _ _ _ H4 E).
Qed.

(** X13. One call of [process_file] changes no file other than the source,
    its [.bak] sibling, its sibling with the chosen extension, and the
    temporary file: whatever the probe, the encoder and the file operations
    do, and in every mode, all other paths hold afterwards what they held
    before. *)
Theorem process_file_frame (drive_of : string → string) (env : pf_env)
    (path : Path) (cq : option Z) (target_bitrate : option string)
    (audio_bitrate : string) (dry_run no_repl : bool)
    (extra_video_args : list string) (force : bool)
    (temp_dir : option string) (ffmpeg_bin : string)
    (fs0 : gmap Path File) (q : Path) :
  q ≠ path → q ≠ backup_of path →
  q ≠ with_suffix path (choose_ext path) →
  q ≠ tmp_out_of drive_of env path temp_dir →
  out_fs (process_file drive_of env path cq target_bitrate audio_bitrate
            dry_run no_repl extra_video_args force temp_dir ffmpeg_bin fs0)
    !! q = fs0 !! q.
Proof.
  exact (process_file_other_paths drive_of env path cq target_bitrate
           audio_bitrate dry_run no_repl extra_video_args force temp_dir
           ffmpeg_bin fs0 q).
Qed.

Lemma process_file_frame_witness :
  let env := env_with Succeed (FfExit 0 (Some "encoded")) Succeed
               (refuse_at AtDropBackup) (mkNrEnv Succeed MoveOk Succeed) in
  let fs0 : gmap Path File :=
    {[ movie_mp4 := "original"; mkPath "videos" "notes.txt" := "keep" ]} in
  out_fs (process_file no_drive env movie_mp4 None (Some "3000k") "128k"
            false false [] false None "ffmpeg" fs0)
    !! mkPath "videos" "notes.txt" = Some "keep".
Proof.
  intros env fs0. transitivity (fs0 !! mkPath "videos" "notes.txt").
  - apply (process_file_frame no_drive env movie_mp4 None (Some "3000k")
             "128k" false false [] false None "ffmpeg" fs0
             (mkPath "videos" "notes.txt"));
      intros E; vm_compute in E; discriminate E.
  - reflexivity.
Defined.



(** X15. When the encoder does not exit with code 0 (it exits with another
    code, cannot be started, or raises), [process_file] leaves every file
    but the temporary one as it was, so the source is untouched, and it
    reports no success other than the skip of a compliant file. When the
    removal of the temporary file is not refused, no file is left at the
    temporary path unless the file system is unchanged altogether. *)
Theorem encode_failure_keeps_files (drive_of : string → string)
    (env : pf_env) (path : Path) (cq : option Z)
    (target_bitrate : option string) (audio_bitrate : string)
    (dry_run no_repl : bool) (extra_video_args : list string) (force : bool)
    (temp_dir : option string) (ffmpeg_bin : string)
    (fs0 : gmap Path File) :
  (∀ w, pf_ffmpeg env ≠ FfExit 0 w) →
  dry_run = false →
  let tmp := tmp_out_of drive_of env path temp_dir in
  let o := process_file drive_of env path cq target_bitrate audio_bitrate
             dry_run no_repl extra_video_args force temp_dir ffmpeg_bin fs0 in
  (∀ q, q ≠ tmp → out_fs o !! q = fs0 !! q)
  ∧ (∀ msg, out_result o = PfReturn true msg →
            msg = "Skip (already AV1 + Opus): " +:+ str path)
  ∧ (pf_cleanup env = Succeed → out_fs o = fs0 ∨ out_fs o !! tmp = None).
Proof.
  intros Hff -> tmp o. subst o. unfold process_file.
  destruct (probe_media (pf_probe env)) as [info|];
    [|cbn [out_fs out_result]; repeat split; try done; auto].
  destruct (already_compliant (Some info) && negb force);
    [cbn [out_fs out_result]; repeat split; try done; auto;
     by intros msg [= <-]|].
  destruct (pf_mkdir env);
    [|cbn [out_fs out_result]; repeat split; try done; auto].
  fold tmp.
  assert (∀ f', cleanup_bare Succeed tmp fs0 = Some f' →
                f' = fs0 ∨ f' !! tmp = None) as Hbare.
  { intros f'. unfold cleanup_bare. cbn [attempt]. unfold unlink.
    destruct (exists_ tmp _) eqn:E.
    - apply exists_true in E as [x E]. rewrite E. intros [= <-].
      right. by simplify_map_eq.
    - intros [= <-]. by left. }
  destruct (pf_ffmpeg env) as [code written| |e] eqn:Eff.
  - destruct (negb (code =? 0)%Z) eqn:Ec.
    2: { apply negb_false_iff, Z.eqb_eq in Ec as ->. by destruct (Hff written). }
    cbn [out_fs out_result]. repeat split; try done.
    + intros q Hq. rewrite cleanup_quiet_frame by done.
      destruct written; by simplify_map_eq.
    + intros ->. unfold cleanup_quiet. cbn [attempt]. unfold unlink.
      destruct (exists_ tmp _) eqn:E.
      * apply exists_true in E as [x E]. rewrite E. right. by simplify_map_eq.
      * apply exists_false in E. by right.
  - destruct (cleanup_bare (pf_cleanup env) tmp fs0) as [f'|] eqn:E;
      cbn [out_fs out_result]; repeat split; try done; auto.
    + intros q Hq. exact (cleanup_bare_frame _ _ _ _ _ Hq E).
    + intros Hc. rewrite Hc in E. by apply Hbare.
  - destruct (cleanup_bare (pf_cleanup env) tmp fs0) as [f'|] eqn:E;
      cbn [out_fs out_result]; repeat split; try done; auto.
    + intros q Hq. exact (cleanup_bare_frame _ _ _ _ _ Hq E).
    + intros Hc. rewrite Hc in E. by apply Hbare.
Qed.

Lemma encode_failure_keeps_files_witness :
  let env := env_with Succeed (FfExit 1 (Some "partial")) Raise
               (fun _ => Succeed) (mkNrEnv Succeed MoveOk Succeed) in
  let fs0 : gmap Path File := {[ movie_mp4 := "original" ]} in
  let o := process_file no_drive env movie_mp4 None (Some "3000k") "128k"
             false false [] false None "ffmpeg" fs0 in
  out_fs o !! movie_mp4 = Some "original"
  ∧ out_result o = PfReturn false "ffmpeg failed: videos/movie.mp4".
Proof.
  intros env fs0 o. split; [|reflexivity].
  destruct (encode_failure_keeps_files no_drive env movie_mp4 None
              (Some "3000k") "128k" false false [] false None "ffmpeg" fs0)
    as (Hframe & _); [by intros w [=]|reflexivity|].
  transitivity (fs0 !! movie_mp4); [|reflexivity].
  apply Hframe. intros E. vm_compute in E. discriminate E.
Defined.

(** A replacement in which no file operation is refused. *)
Lemma replace_file_all_succeed (env : pc → verdict) (src tmp_out dest : Path)
    (fs0 : gmap Path File) (orig new : File) :
  fs0 !! src = Some orig → fs0 !! tmp_out = Some new →
  backup_of src ≠ dest →
  tmp_out ≠ src → tmp_out ≠ backup_of src → tmp_out ≠ dest →
  (∀ p, env p = Succeed) →
  ∃ f, replace_file env src tmp_out dest fs0 = mkState Returned f
       ∧ f !! dest = Some new ∧ f !! backup_of src = None
       ∧ f !! tmp_out = None ∧ (dest ≠ src → f !! src = None).
Proof.
  intros H0 Ht Hbd Hts Htb Htd Hall.
  pose proof (backup_of_neq src) as Hbs.
  destruct (run_to_promoted env src tmp_out dest fs0 orig new 2)
    as (f & Hrun & Hb & Hd & Htmp & Hsrc & _); try done.
  exists (delete (backup_of src) f). split.
  - unfold replace_file. change 6 with (4 + 2). rewrite Hrun.
    rewrite run_S. cbn [at_]. rewrite step_drop_backup by (right; apply Hall).
    by rewrite run_final.
  - split; [by rewrite lookup_delete_ne|].
    split; [by rewrite lookup_delete_eq|].
    split; [by rewrite lookup_delete_ne|].
    intros Hds. rewrite lookup_delete_ne by done. auto.
Qed.

(** The in-place path when nothing is refused. *)
Lemma process_file_in_place_ok (drive_of : string → string) (env : pf_env)
    (path : Path) (cq : option Z) (target_bitrate : option string)
    (audio_bitrate : string) (extra_video_args : list string) (force : bool)
    (temp_dir : option string) (ffmpeg_bin : string)
    (fs0 : gmap Path File) (info : MediaInfo) (orig new : File) :
  probe_media (pf_probe env) = Some info →
  force = true ∨ already_compliant (Some info) = false →
  pf_mkdir env = Succeed →
  pf_ffmpeg env = FfExit 0 (Some new) →
  (∀ p, pf_replace env p = Succeed) →
  fs0 !! path = Some orig →
  let dest := dest_path_of path (choose_ext path) in
  let o := process_file drive_of env path cq target_bitrate audio_bitrate
             false false extra_video_args force temp_dir ffmpeg_bin fs0 in
  out_result o = PfReturn true ("Replaced: " +:+ str dest)
  ∧ out_fs o !! dest = Some new
  ∧ out_fs o !! backup_of path = None
  ∧ out_fs o !! tmp_out_of drive_of env path temp_dir = None
  ∧ (dest ≠ path → out_fs o !! path = None).
Proof.
  intros Hp Hskip Hmk Hff Hrep H0 dest o. subst o. unfold process_file.
  rewrite Hp.
  replace (already_compliant (Some info) && negb force) with false
    by (destruct Hskip as [->| ->]; by rewrite ?andb_false_r).
  rewrite Hmk, Hff. cbn [negb Z.eqb].
  destruct (tmp_out_distinct drive_of env path temp_dir)
    as (Hts & Htb & _ & Htd).
  set (tmp := tmp_out_of drive_of env path temp_dir) in *.
  destruct (replace_file_all_succeed (pf_replace env) path tmp dest
              (<[tmp := new]> fs0) orig new)
    as (f & Hrun & Hd & Hb & Htmp & Hsrc);
    [by simplify_map_eq|by simplify_map_eq|apply backup_neq_dest|done..|].
  unfold in_place. fold dest. rewrite Hrun. cbn [at_ fs fst snd out_fs out_result].
  by repeat split.
Qed.

(** X16. The in-place path end to end: for a file that is not skipped,
    when the encoder exits with code 0 having written its output and no file
    operation of the replacement is refused, [process_file] reports
    "Replaced:" with the destination path; afterwards the destination holds
    the encoder's output, neither the backup nor the temporary file exists,
    and when the destination differs from the source (the extension
    changed) the source path is empty. *)
Theorem in_place_success (drive_of : string → string) (env : pf_env)
    (path : Path) (cq : option Z) (target_bitrate : option string)
    (audio_bitrate : string) (extra_video_args : list string) (force : bool)
    (temp_dir : option string) (ffmpeg_bin : string)
    (fs0 : gmap Path File) (info : MediaInfo) (orig new : File) :
  probe_media (pf_probe env) = Some info →
  force = true ∨ already_compliant (Some info) = false →
  pf_mkdir env = Succeed →
  pf_ffmpeg env = FfExit 0 (Some new) →
  (∀ p, pf_replace env p = Succeed) →
  fs0 !! path = Some orig →
  let dest := dest_path_of path (choose_ext path) in
  let o := process_file drive_of env path cq target_bitrate audio_bitrate
             false false extra_video_args force temp_dir ffmpeg_bin fs0 in
  out_result o = PfReturn true ("Replaced: " +:+ str dest)
  ∧ out_fs o !! dest = Some new
  ∧ out_fs o !! backup_of path = None
  ∧ out_fs o !! tmp_out_of drive_of env path temp_dir = None
  ∧ (dest ≠ path → out_fs o !! path = None).
Proof.
  exact (process_file_in_place_ok drive_of env path cq target_bitrate
           audio_bitrate extra_video_args force temp_dir ffmpeg_bin fs0 info
           orig new).
Qed.

Lemma in_place_success_witness :
  let fs0 : gmap Path File := {[ movie_mp4 := "original" ]} in
  let o := process_file no_drive calm_env movie_mp4 None (Some "3000k")
             "128k" false false [] false None "ffmpeg" fs0 in
  out_result o = PfReturn true "Replaced: videos/movie.mkv"
  ∧ out_fs o !! movie_mkv = Some "encoded"
  ∧ out_fs o !! movie_mp4 = None.
Proof.
  intros fs0 o.
  destruct (in_place_success no_drive calm_env movie_mp4 None (Some "3000k")
              "128k" [] false None "ffmpeg" fs0
              (default (mkMediaInfo false false [] [] 0 0 None None None None)
                 (probe_media (pf_probe calm_env)))
              "original" "encoded")
    as (H1 & H2 & _ & _ & H5);
    [reflexivity|by right|reflexivity|reflexivity|done|reflexivity|].
  split; [exact H1|]. split; [exact H2|].
  apply H5. intros E. vm_compute in E. discriminate E.
Defined.

(** The in-place branch keeps the original at the source or the backup
    path unless it reports success. *)
Lemma in_place_original (env : pc → verdict) (cleanup : verdict)
    (path tmp : Path) (chosen_ext : string) (fs1 : gmap Path File)
    (orig : File) :
  fs1 !! path = Some orig →
  backup_of path ≠ dest_path_of path chosen_ext →
  tmp ≠ path → tmp ≠ backup_of path → tmp ≠ dest_path_of path chosen_ext →
  let r := in_place env cleanup path tmp chosen_ext fs1 in
  r.1 !! path = Some orig
  ∨ r.1 !! backup_of path = Some orig
  ∨ (r.2 = true ∧ is_Some (r.1 !! dest_path_of path chosen_ext)).
Proof.
  intros H1 Hbd Hts Htb Htd r. subst r. unfold in_place.
  set (dest := dest_path_of path chosen_ext) in *.
  pose proof (replace_inv_reachable path tmp dest fs1 orig _ H1 Hbd Hts Htb
                Htd (replace_file_reachable env path tmp dest fs1)) as Hinv.
  destruct (replace_file env path tmp dest fs1) as [p f].
  unfold replace_inv in Hinv. cbn [at_ fs] in *.
  assert (f !! path = Some orig ∨ f !! backup_of path = Some orig →
          let r := if exists_ tmp f
                   then match attempt cleanup (unlink tmp f) with
                        | Some f' => (f', false)
                        | None => (f, false)
                        end
                   else (f, false) in
          r.1 !! path = Some orig ∨ r.1 !! backup_of path = Some orig
          ∨ (r.2 = true ∧ is_Some (r.1 !! dest))) as Hclean.
  { intros Hf r.
    assert (r.1 !! path = f !! path
            ∧ r.1 !! backup_of path = f !! backup_of path)
      as [-> ->]; [|tauto].
    subst r. fs_cases; cbn [fst]; by simplify_map_eq. }
  cbv zeta in Hclean.
  destruct p; cbn beta iota in Hinv; cbn beta iota.
  - apply Hclean. left. by rewrite Hinv.
  - apply Hclean. tauto.
  - apply Hclean. tauto.
  - apply Hclean. tauto.
  - apply Hclean. tauto.
  - apply Hclean. tauto.
  - cbn [fst snd]. right. right. split; [done|]. tauto.
  - apply Hclean. destruct Hinv as [->|[[? _]|[? _]]]; auto.
Qed.

(** X17. In in-place mode the original is never lost, whatever the
    encoder and the file operations do: if the source held [orig] before the
    call, then afterwards [orig] is at the source path or at the backup
    path, unless the call reports "Replaced:" and a file is at the
    destination. *)
Theorem in_place_keeps_original (drive_of : string → string) (env : pf_env)
    (path : Path) (cq : option Z) (target_bitrate : option string)
    (audio_bitrate : string) (dry_run : bool)
    (extra_video_args : list string) (force : bool)
    (temp_dir : option string) (ffmpeg_bin : string)
    (fs0 : gmap Path File) (orig : File) :
  fs0 !! path = Some orig →
  let dest := dest_path_of path (choose_ext path) in
  let o := process_file drive_of env path cq target_bitrate audio_bitrate
             dry_run false extra_video_args force temp_dir ffmpeg_bin fs0 in
  out_fs o !! path = Some orig
  ∨ out_fs o !! backup_of path = Some orig
  ∨ (out_result o = PfReturn true ("Replaced: " +:+ str dest)
     ∧ is_Some (out_fs o !! dest)).
Proof.
  intros H0 dest o.
  destruct (tmp_out_distinct drive_of env path temp_dir)
    as (Hts & Htb & _ & Htd).
  set (tmp := tmp_out_of drive_of env path temp_dir) in *.
  subst o. unfold process_file. fold tmp.
  destruct (probe_media (pf_probe env)) as [info|]; [|by left].
  destruct (already_compliant (Some info) && negb force); [by left|].
  destruct (pf_mkdir env); [|by left].
  destruct dry_run; [by left|].
  destruct (pf_ffmpeg env) as [code written| |e].
  - set (fs1 := match written with
                | Some w => <[tmp := w]> fs0
                | None => fs0
                end).
    assert (fs1 !! path = Some orig) as H1.
    { subst fs1. destruct written; by simplify_map_eq. }
    destruct (negb (code =? 0)%Z).
    { left. cbn [out_fs]. by rewrite cleanup_quiet_frame. }
    cbn [out_fs out_result].
    destruct (in_place_original (pf_replace env) (pf_cleanup env) path tmp
                (choose_ext path) fs1 orig H1 (backup_neq_dest path) Hts Htb
                Htd) as [H|[H|[H1' H2]]]; [by left|by (right; left)|].
    right. right. fold dest in H2. by rewrite H1'.
  - left. destruct (cleanup_bare (pf_cleanup env) tmp fs0) as [f'|] eqn:E;
      cbn [out_fs]; [|done].
    by rewrite (cleanup_bare_frame _ _ _ _ _ (not_eq_sym Hts) E).
  - left. destruct (cleanup_bare (pf_cleanup env) tmp fs0) as [f'|] eqn:E;
      cbn [out_fs]; [|done].
    by rewrite (cleanup_bare_frame _ _ _ _ _ (not_eq_sym Hts) E).
Qed.

Lemma in_place_keeps_original_witness :
  let env := env_with Succeed (FfExit 0 (Some "encoded")) Raise
               (refuse_at AtPromote) (mkNrEnv Succeed MoveOk Succeed) in
  let fs0 : gmap Path File :=
    {[ movie_mp4 := "original"; movie_mkv := "older output" ]} in
  let o := process_file no_drive env movie_mp4 None (Some "3000k") "128k"
             false false [] false None "ffmpeg" fs0 in
  out_fs o !! movie_mp4 = Some "original"
  ∨ out_fs o !! backup_of movie_mp4 = Some "original"
  ∨ (out_result o = PfReturn true ("Replaced: " +:+ str movie_mkv)
     ∧ is_Some (out_fs o !! movie_mkv)).
Proof.
  intros env fs0 o.
  apply (in_place_keeps_original no_drive env movie_mp4 None (Some "3000k")
           "128k" false [] false None "ffmpeg" fs0 "original").
  reflexivity.
Defined.

(** X18. With [no_replace], a source whose extension differs from the
    chosen one even when letter case is ignored is never touched: whatever
    the encoder and the file operations do, the source path and its backup
    path hold afterwards what they held before. *)
Theorem no_replace_keeps_source (drive_of : string → string) (env : pf_env)
    (path : Path) (cq : option Z) (target_bitrate : option string)
    (audio_bitrate : string) (dry_run : bool)
    (extra_video_args : list string) (force : bool)
    (temp_dir : option string) (ffmpeg_bin : string)
    (fs0 : gmap Path File) :
  Py.lower (suffix path) ≠ choose_ext path →
  let o := process_file drive_of env path cq target_bitrate audio_bitrate
             dry_run true extra_video_args force temp_dir ffmpeg_bin fs0 in
  out_fs o !! path = fs0 !! path
  ∧ out_fs o !! backup_of path = fs0 !! backup_of path.
Proof.
  intros Hlow o.
  assert (with_suffix path (choose_ext path) ≠ path) as Hne.
  { intros E. apply (f_equal name) in E. unfold with_suffix in E.
    cbn [name] in E. rewrite <- (stem_suffix path) in E.
    apply append_inj_r in E. apply Hlow.
    by rewrite <- E, lower_choose_ext. }
  destruct (tmp_out_distinct drive_of env path temp_dir)
    as (Hts & Htb & _ & _).
  pose proof (backup_neq_with_suffix path) as Hbf.
  set (tmp := tmp_out_of drive_of env path temp_dir) in *.
  assert (∀ q, q ≠ tmp → q ≠ with_suffix path (choose_ext path) →
               out_fs o !! q = fs0 !! q) as Hframe.
  { intros q Hq1 Hq2. subst o. unfold process_file. fold tmp.
    destruct (probe_media (pf_probe env)) as [info|]; [|done].
    destruct (already_compliant (Some info) && negb force); [done|].
    destruct (pf_mkdir env); [|done].
    destruct dry_run; [done|].
    destruct (pf_ffmpeg env) as [code written| |e].
    - set (fs1 := match written with
                  | Some w => <[tmp := w]> fs0
                  | None => fs0
                  end).
      assert (fs1 !! q = fs0 !! q) as Hfs1.
      { subst fs1. destruct written; by simplify_map_eq. }
      destruct (negb (code =? 0)%Z); cbn [out_fs].
      + by rewrite cleanup_quiet_frame.
      + by rewrite no_replace_frame.
    - destruct (cleanup_bare (pf_cleanup env) tmp fs0) as [f'|] eqn:E;
        [|reflexivity].
      cbn [out_fs]. exact (cleanup_bare_frame _ _ _ _ _ Hq1 E).
    - destruct (cleanup_bare (pf_cleanup env) tmp fs0) as [f'|] eqn:E;
        [|reflexivity].
      cbn [out_fs]. exact (cleanup_bare_frame _ _ _ _ _ Hq1 E). }
  split; apply Hframe; done.
Qed.

Lemma no_replace_keeps_source_witness :
  let env := env_with Succeed (FfExit 0 (Some "encoded")) Succeed
               (fun _ => Succeed) (mkNrEnv Succeed MoveRaise Raise) in
  let fs0 : gmap Path File := {[ movie_mp4 := "original" ]} in
  let o := process_file no_drive env movie_mp4 None (Some "3000k") "128k"
             false true [] false None "ffmpeg" fs0 in
  out_fs o !! movie_mp4 = Some "original".
Proof.
  intros env fs0 o.
  destruct (no_replace_keeps_source no_drive env movie_mp4 None
              (Some "3000k") "128k" false [] false None "ffmpeg" fs0)
    as [H _]; [intros E; vm_compute in E; discriminate E|].
  exact H.
Defined.

(** X19. With [no_replace], a source that already has the chosen extension
    (a lower-case [.mkv] or [.webm] name) is its own output path, so it is
    not kept: once the encoder has exited with code 0 and the deletion of
    the output path is not refused, the source is deleted before the move.
    When the move succeeds the source path holds the encoder's output and
    the call reports "Wrote:"; when the move is refused without effect the
    source path is empty and the call reports "Move failed:". *)
Theorem no_replace_same_extension (drive_of : string → string)
    (env : pf_env) (path : Path) (cq : option Z)
    (target_bitrate : option string) (audio_bitrate : string)
    (extra_video_args : list string) (force : bool)
    (temp_dir : option string) (ffmpeg_bin : string)
    (fs0 : gmap Path File) (info : MediaInfo) (orig new : File) :
  suffix path = choose_ext path →
  probe_media (pf_probe env) = Some info →
  force = true ∨ already_compliant (Some info) = false →
  pf_mkdir env = Succeed →
  pf_ffmpeg env = FfExit 0 (Some new) →
  nr_clear (pf_nr env) = Succeed →
  fs0 !! path = Some orig →
  let o := process_file drive_of env path cq target_bitrate audio_bitrate
             false true extra_video_args force temp_dir ffmpeg_bin fs0 in
  match nr_move (pf_nr env) with
  | MoveOk =>
      out_fs o !! path = Some new
      ∧ out_result o = PfReturn true ("Wrote: " +:+ str path)
  | MoveRaise =>
      out_fs o !! path = None
      ∧ out_result o = PfReturn false ("Move failed: " +:+ pf_err env)
  | MoveRaiseWritten partial =>
      out_fs o !! path = Some partial
      ∧ out_result o = PfReturn false ("Move failed: " +:+ pf_err env)
  end.
Proof.
  intros Hsuf Hp Hskip Hmk Hff Hclear H0 o. subst o. unfold process_file.
  rewrite Hp.
  replace (already_compliant (Some info) && negb force) with false
    by (destruct Hskip as [->| ->]; by rewrite ?andb_false_r).
  rewrite Hmk, Hff. cbn [negb Z.eqb].
  destruct (tmp_out_distinct drive_of env path temp_dir) as (Hts & _).
  set (tmp := tmp_out_of drive_of env path temp_dir) in *.
  assert (with_suffix path (choose_ext path) = path) as Hsame.
  { rewrite <- Hsuf. apply with_suffix_same. }
  unfold no_replace. rewrite Hsame, Hclear. unfold move.
  assert (<[tmp := new]> fs0 !! path = Some orig) as H1 by by simplify_map_eq.
  assert (<[tmp := new]> fs0 !! tmp = Some new) as H2 by by simplify_map_eq.
  destruct (nr_move (pf_nr env)) as [| |partial], (nr_cleanup (pf_nr env));
    fs_cases; cbn [fst snd List.last app out_fs out_result];
    simplify_map_eq; done.
Qed.

Lemma no_replace_same_extension_witness :
  let env := env_with Succeed (FfExit 0 (Some "encoded")) Succeed
               (fun _ => Succeed) (mkNrEnv Succeed MoveRaise Succeed) in
  let fs0 : gmap Path File := {[ movie_mkv := "original" ]} in
  let o := process_file no_drive env movie_mkv None (Some "3000k") "128k"
             false true [] false None "ffmpeg" fs0 in
  out_fs o !! movie_mkv = None
  ∧ out_result o = PfReturn false "Move failed: refused".
Proof.
  intros env fs0 o.
  apply (no_replace_same_extension no_drive env movie_mkv None (Some "3000k")
           "128k" [] false None "ffmpeg" fs0
           (default (mkMediaInfo false false [] [] 0 0 None None None None)
              (probe_media (pf_probe env)))
           "original" "encoded");
    first [reflexivity | by right].
Defined.

(** ** walk_and_process *)

Lemma process_file_dry_run_fs (drive_of : string → string) (env : pf_env)
    (path : Path) (cq : option Z) (target_bitrate : option string)
    (audio_bitrate : string) (no_repl : bool)
    (extra_video_args : list string) (force : bool)
    (temp_dir : option string) (ffmpeg_bin : string)
    (fs0 : gmap Path File) :
  out_fs (process_file drive_of env path cq target_bitrate audio_bitrate
            true no_repl extra_video_args force temp_dir ffmpeg_bin fs0)
  = fs0.
Proof.
  unfold process_file.
  destruct (probe_media (pf_probe env)) as [info|]; [|done].
  destruct (already_compliant (Some info) && negb force); [done|].
  by destruct (pf_mkdir env).
Qed.

Lemma walk_files_dry_run (drive_of : string → string)
    (listing : list (Path * pf_env)) (allowed : option (gset string))
    (cq : option Z) (target_bitrate : option string) (audio_bitrate : string)
    (no_repl : bool) (extra_video_args : list string) (force : bool)
    (temp_dir : option string) (ffmpeg_bin : string)
    (f : gmap Path File) (printed : list string)
    (results : list (Path * bool * string)) :
  let w := walk_files drive_of listing allowed cq target_bitrate
             audio_bitrate true no_repl extra_video_args force temp_dir
             ffmpeg_bin f printed results in
  w.1.1.1 = f
  ∧ (w.2 = false →
     map (fun r => r.1.1) w.1.2
     = map (fun r => r.1.1) results
       ++ List.filter (fun p => is_media_file p allowed f) (map fst listing)).
Proof.
  revert printed results.
  induction listing as [|[p env] rest IH]; intros printed results; cbn zeta.
  - cbn [walk_files fst snd map List.filter]. by rewrite app_nil_r.
  - cbn [walk_files map fst List.filter].
    destruct (is_media_file p allowed f) eqn:Hm; [|apply IH].
    pose proof (process_file_dry_run_fs drive_of env p cq target_bitrate
                  audio_bitrate no_repl extra_video_args force temp_dir
                  ffmpeg_bin f) as Hfs.
    destruct (process_file drive_of env p cq target_bitrate audio_bitrate
                true no_repl extra_video_args force temp_dir ffmpeg_bin f)
      as [f' pr res]. cbn [out_fs out_result out_printed] in *. subst f'.
    destruct res as [ok msg|]; [|done].
    destruct (IH (printed ++ pr) (results ++ [(p, ok, msg)])) as [H1 H2].
    split; [exact H1|]. intros Hr. rewrite (H2 Hr), map_app.
    cbn [map fst]. by rewrite <- app_assoc.
Qed.

(** X20. A dry run over a whole tree changes no file, whatever the probes
    answer; and unless an exception ends the walk, the files reported are
    exactly the listed files that pass [is_media_file], once each and in
    the order of the listing. *)
Theorem walk_dry_run_no_effect (drive_of : string → string)
    (listing : list (Path * pf_env)) (exts : option (list string))
    (cq : option Z) (target_bitrate : option string) (audio_bitrate : string)
    (no_repl : bool) (extra_video_args : list string) (force : bool)
    (temp_dir : option string) (ffmpeg_bin : string) (fs0 : gmap Path File) :
  let w := walk_and_process drive_of listing exts cq target_bitrate
             audio_bitrate true no_repl extra_video_args force temp_dir
             ffmpeg_bin fs0 in
  w.1.1.1 = fs0
  ∧ (w.2 = false →
     map (fun r => r.1.1) w.1.2
     = List.filter (fun p => is_media_file p (allowed_of exts) fs0)
         (map fst listing)).
Proof.
  intros w. subst w. unfold walk_and_process.
  exact (walk_files_dry_run drive_of listing (allowed_of exts) cq
           target_bitrate audio_bitrate no_repl extra_video_args force
           temp_dir ffmpeg_bin fs0 [] []).
Qed.

Lemma count_partition (results : list (Path * bool * string)) :
  ok_count results + fail_count results = List.length results.
Proof.
  unfold ok_count, fail_count.
  induction results as [|[[p ok] msg] rest IH]; [done|].
  cbn [List.filter fst snd]. destruct ok; cbn [negb length]; lia.
Qed.

Lemma walk_files_results (drive_of : string → string)
    (listing : list (Path * pf_env)) (allowed : option (gset string))
    (cq : option Z) (target_bitrate : option string) (audio_bitrate : string)
    (dry_run no_repl : bool) (extra_video_args : list string) (force : bool)
    (temp_dir : option string) (ffmpeg_bin : string)
    (f : gmap Path File) (printed : list string)
    (results : list (Path * bool * string)) :
  ∃ new,
    (walk_files drive_of listing allowed cq target_bitrate audio_bitrate
       dry_run no_repl extra_video_args force temp_dir ffmpeg_bin f printed
       results).1.2 = results ++ new
    ∧ sublist (map (fun r => r.1.1) new) (map fst listing).
Proof.
  revert f printed results.
  induction listing as [|[p env] rest IH]; intros f printed results.
  - exists []. cbn [walk_files fst snd map]. by rewrite app_nil_r.
  - cbn [walk_files map fst].
    destruct (is_media_file p allowed f).
    2: { destruct (IH f printed results) as (new & -> & Hs).
         exists new. split; [done|]. by apply sublist_cons. }
    destruct (process_file drive_of env p cq target_bitrate audio_bitrate
                dry_run no_repl extra_video_args force temp_dir ffmpeg_bin f)
      as [f' pr res]. cbn [out_fs out_result out_printed].
    destruct res as [ok msg|].
    + destruct (IH f' (printed ++ pr) (results ++ [(p, ok, msg)]))
        as (new & -> & Hs).
      exists ((p, ok, msg) :: new). split; [by rewrite <- app_assoc|].
      cbn [map fst]. by apply sublist_skip.
    + exists []. cbn [fst snd map]. split; [by rewrite app_nil_r|].
      apply sublist_nil_l.
Qed.

(** X21. In every mode, the files reported by [walk_and_process] are
    listed files, each reported at most as often as it is listed and in the
    order of the listing; and the two counts of the summary add up to the
    number of reported files, which is at most the number of listed
    files. *)
Theorem walk_results_listed (drive_of : string → string)
    (listing : list (Path * pf_env)) (exts : option (list string))
    (cq : option Z) (target_bitrate : option string) (audio_bitrate : string)
    (dry_run no_repl : bool) (extra_video_args : list string) (force : bool)
    (temp_dir : option string) (ffmpeg_bin : string) (fs0 : gmap Path File) :
  let results := (walk_and_process drive_of listing exts cq target_bitrate
                    audio_bitrate dry_run no_repl extra_video_args force
                    temp_dir ffmpeg_bin fs0).1.2 in
  sublist (map (fun r => r.1.1) results) (map fst listing)
  ∧ ok_count results + fail_count results = List.length results
  ∧ (List.length results ≤ List.length listing)%nat.
Proof.
  intros results. subst results. unfold walk_and_process.
  destruct (walk_files_results drive_of listing (allowed_of exts) cq
              target_bitrate audio_bitrate dry_run no_repl extra_video_args
              force temp_dir ffmpeg_bin fs0 [] []) as (new & -> & Hs).
  cbn [app]. split; [exact Hs|]. split; [apply count_partition|].
  apply sublist_length in Hs. by rewrite !length_map in Hs.
Qed.

(** X26. Two sources that share a destination (the same folder and stem,
    such as [a.mp4] and [a.avi], both converted to [a.mkv]) collide in
    in-place mode: when both are processed one after the other and nothing
    is refused, both calls report "Replaced:" with the same path, and
    afterwards that path holds the output of the second encode only; both
    source paths are empty, so nothing of the first file is left. *)
Theorem shared_destination_collision (drive_of : string → string)
    (env1 env2 : pf_env) (p1 p2 : Path) (cq : option Z)
    (target_bitrate : option string) (audio_bitrate : string)
    (extra_video_args : list string) (force : bool)
    (temp_dir : option string) (ffmpeg_bin : string)
    (fs0 : gmap Path File) (info1 info2 : MediaInfo) (o1 o2 n1 n2 : File) :
  let d := dest_path_of p1 (choose_ext p1) in
  dest_path_of p2 (choose_ext p2) = d →
  d ≠ p1 → d ≠ p2 → p1 ≠ p2 →
  p2 ≠ backup_of p1 → p1 ≠ backup_of p2 →
  p2 ≠ tmp_out_of drive_of env1 p1 temp_dir →
  p1 ≠ tmp_out_of drive_of env2 p2 temp_dir →
  fs0 !! p1 = Some o1 → fs0 !! p2 = Some o2 →
  probe_media (pf_probe env1) = Some info1 →
  probe_media (pf_probe env2) = Some info2 →
  force = true
  ∨ (already_compliant (Some info1) = false
     ∧ already_compliant (Some info2) = false) →
  pf_mkdir env1 = Succeed → pf_mkdir env2 = Succeed →
  pf_ffmpeg env1 = FfExit 0 (Some n1) → pf_ffmpeg env2 = FfExit 0 (Some n2) →
  (∀ p, pf_replace env1 p = Succeed) → (∀ p, pf_replace env2 p = Succeed) →
  let r1 := process_file drive_of env1 p1 cq target_bitrate audio_bitrate
              false false extra_video_args force temp_dir ffmpeg_bin fs0 in
  let r2 := process_file drive_of env2 p2 cq target_bitrate audio_bitrate
              false false extra_video_args force temp_dir ffmpeg_bin
              (out_fs r1) in
  out_result r1 = PfReturn true ("Replaced: " +:+ str d)
  ∧ out_result r2 = PfReturn true ("Replaced: " +:+ str d)
  ∧ out_fs r2 !! d = Some n2
  ∧ out_fs r2 !! p1 = None
  ∧ out_fs r2 !! p2 = None.
Proof.
  intros d Hd Hd1 Hd2 H12 Hb1 Hb2 Ht1 Ht2 Ho1 Ho2 Hp1 Hp2 Hskip Hm1 Hm2
    Hf1 Hf2 Hr1 Hr2 r1 r2. subst d.
  destruct (process_file_in_place_ok drive_of env1 p1 cq target_bitrate
              audio_bitrate extra_video_args force temp_dir ffmpeg_bin fs0
              info1 o1 n1 Hp1) as (A1 & A2 & A3 & A4 & A5);
    [tauto|done..|].
  fold r1 in A1, A2, A3, A4, A5.
  assert (out_fs r1 !! p2 = Some o2) as Ho2'.
  { rewrite <- Ho2. subst r1. apply process_file_other_paths; try done.
    destruct (dest_path_of_cases p1) as [[_ E]|[_ E]]; congruence. }
  destruct (process_file_in_place_ok drive_of env2 p2 cq target_bitrate
              audio_bitrate extra_video_args force temp_dir ffmpeg_bin
              (out_fs r1) info2 o2 n2 Hp2) as (B1 & B2 & B3 & B4 & B5);
    [tauto|done..|].
  fold r2 in B1, B2, B3, B4, B5. rewrite Hd in B1, B2, B5.
  split; [exact A1|]. split; [exact B1|]. split; [exact B2|].
  split; [|by apply B5].
  transitivity (out_fs r1 !! p1); [|by apply A5].
  subst r2. apply process_file_other_paths; try done.
  destruct (dest_path_of_cases p2) as [[_ E]|[_ E]];
    rewrite Hd in E; congruence.
Qed.

Lemma shared_destination_collision_witness :
  let env2 := env_with Succeed (FfExit 0 (Some "second encode")) Succeed
                (fun _ => Succeed) (mkNrEnv Succeed MoveOk Succeed) in
  let fs0 : gmap Path File :=
    {[ movie_mp4 := "first original"; movie_avi := "second original" ]} in
  let r1 := process_file no_drive calm_env movie_mp4 None (Some "3000k")
              "128k" false false [] false None "ffmpeg" fs0 in
  let r2 := process_file no_drive env2 movie_avi None (Some "3000k")
              "128k" false false [] false None "ffmpeg" (out_fs r1) in
  out_result r1 = PfReturn true "Replaced: videos/movie.mkv"
  ∧ out_result r2 = PfReturn true "Replaced: videos/movie.mkv"
  ∧ out_fs r2 !! movie_mkv = Some "second encode"
  ∧ out_fs r2 !! movie_mp4 = None
  ∧ out_fs r2 !! movie_avi = None.
Proof.
  intros env2 fs0 r1 r2.
  apply (shared_destination_collision no_drive calm_env env2 movie_mp4
           movie_avi None (Some "3000k") "128k" [] false None "ffmpeg" fs0
           (default (mkMediaInfo false false [] [] 0 0 None None None None)
              (probe_media (pf_probe calm_env)))
           (default (mkMediaInfo false false [] [] 0 0 None None None None)
              (probe_media (pf_probe env2)))
           "first original" "second original" "encoded" "second encode");
    first [ reflexivity
          | intros E; vm_compute in E; discriminate E
          | right; split; reflexivity
          | intros p; reflexivity ].
Defined.

(** ** The extension whitelist *)

Lemma lower_ascii_idem (c : ascii) :
  Py.lower_ascii (Py.lower_ascii c) = Py.lower_ascii c.
Proof.
  destruct c as [[] [] [] [] [] [] [] []]; vm_compute; reflexivity.
Qed.

Lemma lower_idem (s : string) : Py.lower (Py.lower s) = Py.lower s.
Proof.
  induction s as [|c s IH]; [done|].
  cbn [Py.lower]. by rewrite lower_ascii_idem, IH.
Qed.

Lemma lower_ascii_dot (c : ascii) :
  Ascii.eqb "." (Py.lower_ascii c) = Ascii.eqb "." c.
Proof.
  destruct c as [[] [] [] [] [] [] [] []]; vm_compute; reflexivity.
Qed.

Lemma startswith_dot_lower (s : string) :
  Py.startswith (Py.lower s) "." = Py.startswith s ".".
Proof.
  unfold Py.startswith. destruct s as [|c s]; [done|].
  cbn [Py.lower]. by rewrite !prefix_cons, lower_ascii_dot, !prefix_nil.
Qed.

Lemma normalize_ext_lower (e : string) :
  normalize_ext (Py.lower e) = normalize_ext e.
Proof.
  unfold normalize_ext. by rewrite startswith_dot_lower, lower_idem.
Qed.

Lemma normalize_ext_dot (e : string) :
  Py.startswith e "." = false → normalize_ext ("." +:+ e) = normalize_ext e.
Proof.
  intros He. unfold normalize_ext. rewrite He.
  change ("." +:+ e) with (String "." e).
  unfold Py.startswith. rewrite prefix_cons, prefix_nil.
  reflexivity.
Qed.

(** X22. The extension filter. A file passes [is_media_file] under the
    whitelist that [walk_and_process] builds when it exists and its
    lower-cased suffix is the normal form of a listed extension; with no
    list, or an empty one, the eight default extensions apply. The normal
    form ignores the case of the listed extension and a missing leading
    dot, and is itself in normal form. *)
Theorem ext_whitelist (p : Path) (exts : option (list string))
    (f : gmap Path File) :
  (is_media_file p (allowed_of exts) f = true
   ↔ is_Some (f !! p)
     ∧ match exts with
       | Some (e :: es) =>
           ∃ e', e' ∈ e :: es ∧ Py.lower (suffix p) = normalize_ext e'
       | _ => Py.lower (suffix p) ∈ VIDEO_EXTS
       end)
  ∧ (∀ e, normalize_ext (Py.lower e) = normalize_ext e
          ∧ normalize_ext (normalize_ext e) = normalize_ext e
          ∧ (Py.startswith e "." = false →
             normalize_ext ("." +:+ e) = normalize_ext e)).
Proof.
  split.
  - unfold is_media_file. rewrite andb_true_iff, exists_true.
    rewrite bool_decide_eq_true.
    destruct exts as [[|e es]|]; cbn [allowed_of]; try done.
    destruct (decide (list_to_set (map normalize_ext (e :: es)) = ∅))
      as [Hemp|_].
    { exfalso. assert (normalize_ext e ∈ (∅ : gset string)) as Hin.
      { rewrite <- Hemp. apply elem_of_list_to_set. cbn [map]. by left. }
      by apply not_elem_of_empty in Hin. }
    rewrite elem_of_list_to_set.
    change (map normalize_ext (e :: es)) with (normalize_ext <$> e :: es).
    rewrite list_elem_of_fmap. split; intros [H1 (e' & H2 & H3)]; eauto.
  - intros e. split; [apply normalize_ext_lower|]. split.
    + unfold normalize_ext at 2.
      destruct (Py.startswith e ".") eqn:He.
      * rewrite normalize_ext_lower. unfold normalize_ext. by rewrite He.
      * change ("." +:+ Py.lower e) with (String "." (Py.lower e)).
        unfold normalize_ext, Py.startswith.
        rewrite prefix_cons, prefix_nil, Ascii.eqb_refl.
        cbn [Py.lower]. rewrite lower_idem.
        unfold Py.startswith in He. rewrite He.
        by change (Py.lower_ascii ".") with "."%char.
    + apply normalize_ext_dot.
Qed.

(** ** The command line *)

(** X23. The rate mode as the command line selects it: with [--cq] the
    built-in video arguments carry the constant-quality block with that
    value, whatever [--bitrate] is; without [--cq] they carry the bitrate
    block with the [--bitrate] value, except that an empty [--bitrate]
    falls back to the constant-quality block with the value 30. *)
Theorem cli_rate_mode (nvenc_opts : gset string) (info : MediaInfo)
    (bitrate : string) (cq : option Z) (extra_video_args : list string) :
  builtin_v_args nvenc_opts info cq (target_bitrate_of_args bitrate cq)
    extra_video_args
  = ["-c:v"; "av1_nvenc"] ++ preset_args extra_video_args
    ++ match cq with
       | Some c =>
           ["-cq"; Py.str_of_int c; "-rc"; "vbr"; "-b_ref_mode"; "middle"]
       | None =>
           if String.eqb bitrate ""
           then ["-cq"; "30"; "-rc"; "vbr"; "-b_ref_mode"; "middle"]
           else ["-rc"; "vbr"; "-b:v"; bitrate; "-maxrate"; bitrate;
                 "-b_ref_mode"; "middle"]
       end
    ++ aq_args nvenc_opts
    ++ ["-bf"; "3"; "-pix_fmt"; v_pix_of info]
    ++ color_args info.
Proof.
  rewrite builtin_v_args_segments. do 2 f_equal.
  destruct cq as [c|]; [done|]. by destruct bitrate.
Qed.

(** ** resolve_ffmpeg_dir *)

(** X24. The search for a bundled ffmpeg. A directory counts when it
    exists and holds both [ffmpeg.exe] and [ffprobe.exe]. The explicit
    directory is returned when it is given, non-empty, and counts; otherwise
    the directory of the environment variable when it is set, non-empty,
    and counts; otherwise the folder [ffmpeg] of the base directory when it
    counts; otherwise nothing. So an explicit directory that lacks a binary
    is passed over without notice, and a directory that is returned holds
    both binaries. [ffmpeg_paths] names the two binaries
    inside the directory found, and the bare names [ffmpeg] and [ffprobe]
    when none was found. *)
Theorem resolve_ffmpeg_dir_order (path_of : string → Path)
    (ex : Path → bool) (explicit environ : option string) (base_dir : Path) :
  let holds_both (c : Path) : Prop :=
    ex c = true ∧ ex (mkPath (str c) "ffmpeg.exe") = true
    ∧ ex (mkPath (str c) "ffprobe.exe") = true in
  let usable (x : option string) : Prop :=
    ∃ s, x = Some s ∧ s ≠ "" ∧ holds_both (path_of s) in
  let bundled := mkPath (str base_dir) "ffmpeg" in
  let r := resolve_ffmpeg_dir path_of ex explicit environ base_dir in
  (∀ e, explicit = Some e → e ≠ "" → holds_both (path_of e) →
        r = Some (path_of e))
  ∧ (¬ usable explicit →
     ∀ v, environ = Some v → v ≠ "" → holds_both (path_of v) →
          r = Some (path_of v))
  ∧ (¬ usable explicit → ¬ usable environ → holds_both bundled →
     r = Some bundled)
  ∧ (¬ usable explicit → ¬ usable environ → ¬ holds_both bundled →
     r = None)
  ∧ (∀ c, r = Some c → holds_both c)
  ∧ ffmpeg_paths r
    = match r with
      | Some d => (str (mkPath (str d) "ffmpeg.exe"),
                   str (mkPath (str d) "ffprobe.exe"))
      | None => ("ffmpeg", "ffprobe")
      end.
Proof.
  intros holds_both usable bundled r.
  assert (∀ c, complete ex c = true ↔ holds_both c) as Hc.
  { intros c. unfold complete, holds_both, child.
    rewrite !andb_true_iff. tauto. }
  assert (∀ x, ¬ usable x →
               (if Py.truthy x then [path_of (Py.or_str x "")] else [])
               = [] ∨ ∃ s, (if Py.truthy x
                            then [path_of (Py.or_str x "")] else [])
                           = [path_of s]
                           ∧ complete ex (path_of s) = false) as Hskip.
  { intros [[|a s]|] Hx; cbn [Py.truthy Py.or_str]; try by left.
    right. exists (String a s). split; [done|].
    destruct (complete ex (path_of (String a s))) eqn:E; [|done].
    exfalso. apply Hx. exists (String a s).
    split; [done|]. split; [done|]. by apply Hc. }
  subst r. unfold resolve_ffmpeg_dir, candidates.
  fold bundled. change (child base_dir "ffmpeg") with bundled.
  split; [|split; [|split; [|split; [|split]]]].
  - intros e -> He Hb. destruct e as [|a e]; [done|].
    cbn [Py.truthy Py.or_str app List.find].
    apply Hc in Hb. by rewrite Hb.
  - intros He v -> Hv Hb. destruct v as [|a v]; [done|].
    cbn [Py.truthy Py.or_str]. apply Hc in Hb.
    destruct (Hskip explicit He) as [-> | (s & -> & E)];
      cbn [app List.find]; by rewrite ?E, Hb.
  - intros He Hv Hb. apply Hc in Hb.
    destruct (Hskip explicit He) as [-> | (s & -> & E)],
             (Hskip environ Hv) as [-> | (s' & -> & E')];
      cbn [app List.find]; by rewrite ?E, ?E', Hb.
  - intros He Hv Hb.
    assert (complete ex bundled = false) as Hb'.
    { destruct (complete ex bundled) eqn:E; [|done].
      exfalso. by apply Hb, Hc. }
    destruct (Hskip explicit He) as [-> | (s & -> & E)],
             (Hskip environ Hv) as [-> | (s' & -> & E')];
      cbn [app List.find]; by rewrite ?E, ?E', Hb'.
  - intros c H. apply find_some in H as [_ H]. by apply Hc.
  - unfold ffmpeg_paths, child. by destruct (List.find _ _).
Qed.

Lemma resolve_ffmpeg_dir_order_witness :
  let path_of := fun s => mkPath "" s in
  let ex := fun p : Path =>
    bool_decide (p ∈ [mkPath "" "tools"; mkPath "/tools" "ffmpeg.exe";
                      mkPath "" "bundle"; mkPath "/bundle" "ffmpeg.exe";
                      mkPath "/bundle" "ffprobe.exe"]) in
  resolve_ffmpeg_dir path_of ex (Some "tools") (Some "bundle")
    (mkPath "" "app")
  = Some (mkPath "" "bundle").
Proof.
  intros path_of ex.
  apply (resolve_ffmpeg_dir_order path_of ex (Some "tools") (Some "bundle")
           (mkPath "" "app")).
  - intros (s & [= <-] & _ & _ & _ & H). vm_compute in H. discriminate H.
  - reflexivity.
  - discriminate.
  - repeat split; reflexivity.
Defined.

(** ** main *)

(** X25. How [main] starts. When the input does not exist it prints
    "Input not found:" with the input path and exits with status 2;
    otherwise, when ffprobe (as [resolve_ffmpeg_dir] and [ffmpeg_paths] name
    it) is not available, it prints one line and exits with status 3;
    otherwise, outside a dry run, when the AV1 encoder of the named ffmpeg
    is not available, it prints one line and exits with status 4. In these
    three cases no file is changed. In every other case it does not exit:
    it runs [walk_and_process] on the arguments of the command line, ends
    with the file system the walk left, normally unless an exception left
    the walk, and then prints the counts as its last line. A dry run never
    asks for the encoder and changes no file however it ends. *)
Theorem main_exits_before_work (env : main_env) (args : Args)
    (fs0 : gmap Path File) :
  let root := me_path_of env (a_input args) in
  let bins := ffmpeg_paths
                (resolve_ffmpeg_dir (me_path_of env) (me_exists env)
                   (a_ffmpeg_dir args) (me_environ env) (me_base_dir env)) in
  let m := main env args fs0 in
  (me_exists env root = false →
   m = (fs0, [PLine ("Input not found: " +:+ str root)], MainExit 2))
  ∧ (me_exists env root = true → me_has_ffprobe env bins.2 = false →
     m = (fs0,
          [PLine "ffprobe not found (looked for). Provide --ffmpeg-dir with ffmpeg.exe & ffprobe.exe or add to PATH."],
          MainExit 3))
  ∧ (me_exists env root = true → me_has_ffprobe env bins.2 = true →
     a_dry_run args = false → me_has_av1_nvenc env bins.1 = false →
     m = (fs0,
          [PLine "av1_nvenc encoder not available. Ensure you have an FFmpeg build with NVIDIA NVENC support and an RTX 40-series (or newer) GPU."],
          MainExit 4))
  ∧ (me_exists env root = true → me_has_ffprobe env bins.2 = true →
     a_dry_run args = true ∨ me_has_av1_nvenc env bins.1 = true →
     let w := walk_and_process (me_drive_of env) (me_listing env)
                (a_ext args) (a_cq args)
                (match a_cq args with
                 | None => Some (a_bitrate args)
                 | Some _ => None
                 end)
                (a_audio_bitrate args) (a_dry_run args) (a_no_replace args)
                (default [] (a_extra_video_args args)) (a_force args)
                (if Py.truthy (a_temp_dir args)
                 then Some (str (me_path_of env
                                   (Py.or_str (a_temp_dir args) "")))
                 else None)
                bins.1 fs0 in
     m.1.1 = w.1.1.1
     ∧ m.2 = (if w.2 then MainRaise else MainDone)
     ∧ (w.2 = false →
        List.last m.1.2 (PLine "")
        = PLine ("Done: " +:+ Py.str_of_int (Z.of_nat (ok_count w.1.2))
                 +:+ " OK, "
                 +:+ Py.str_of_int (Z.of_nat (fail_count w.1.2))
                 +:+ " failed")))
  ∧ (a_dry_run args = true → m.1.1 = fs0).
Proof.
  intros root bins m.
  split; [|split; [|split; [|split]]].
  - intros Hroot. subst m. unfold main. fold root. by rewrite Hroot.
  - intros Hroot Hprobe. subst m. unfold main. fold root. fold bins.
    by rewrite Hroot, Hprobe.
  - intros Hroot Hprobe Hdry Henc. subst m. unfold main. fold root. fold bins.
    by rewrite Hroot, Hprobe, Hdry, Henc.
  - intros Hroot Hprobe Hgo w. subst m. unfold main. fold root. fold bins.
    rewrite Hroot, Hprobe. cbn [negb].
    replace (negb (a_dry_run args) && negb (me_has_av1_nvenc env bins.1))
      with false
      by (destruct Hgo as [-> | ->]; by rewrite ?andb_false_r).
    change (walk_and_process _ _ _ _ _ _ _ _ _ _ _ _ _) with w.
    destruct w as [[[f pr] res] []]; cbn [fst snd]; [done|].
    split; [done|]. split; [done|]. intros _.
    rewrite !app_assoc. apply last_last.
  - intros Hdry. subst m. unfold main. fold root. fold bins.
    destruct (me_exists env root); cbn [negb]; [|done].
    destruct (me_has_ffprobe env bins.2); cbn [negb]; [|done].
    rewrite Hdry. cbn [negb andb].
    pose proof (walk_files_dry_run (me_drive_of env) (me_listing env)
                  (allowed_of (a_ext args)) (a_cq args)
                  (target_bitrate_of_args (a_bitrate args) (a_cq args))
                  (a_audio_bitrate args) (a_no_replace args)
                  (default [] (a_extra_video_args args)) (a_force args)
                  (if Py.truthy (a_temp_dir args)
                   then Some (str (me_path_of env
                                     (Py.or_str (a_temp_dir args) "")))
                   else None)
                  bins.1 fs0 [] []) as [Hw _].
    fold (walk_and_process (me_drive_of env) (me_listing env) (a_ext args)
            (a_cq args)
            (target_bitrate_of_args (a_bitrate args) (a_cq args))
            (a_audio_bitrate args) true (a_no_replace args)
            (default [] (a_extra_video_args args)) (a_force args)
            (if Py.truthy (a_temp_dir args)
             then Some (str (me_path_of env (Py.or_str (a_temp_dir args) "")))
             else None)
            bins.1 fs0) in Hw.
    destruct (walk_and_process _ _ _ _ _ _ _ _ _ _ _ _ _) as [[[f pr] res] []];
      cbn [fst snd] in *; by subst f.
Qed.

Lemma main_exits_before_work_witness :
  let fs0 : gmap Path File := {[ movie_mp4 := "original" ]} in
  main sample_main_env (sample_args false) fs0
  = (fs0,
     [PLine "av1_nvenc encoder not available. Ensure you have an FFmpeg build with NVIDIA NVENC support and an RTX 40-series (or newer) GPU."],
     MainExit 4).
Proof.
  intros fs0.
  apply (main_exits_before_work sample_main_env (sample_args false) fs0);
    reflexivity.
Defined.

(** A dry run of the same sample reaches the end: the one file is planned,
    reported as handled, and left as it is. *)
Lemma main_dry_run_example :
  let fs0 : gmap Path File := {[ movie_mp4 := "original" ]} in
  let m := main sample_main_env (sample_args true) fs0 in
  m.1.1 = fs0 ∧ m.2 = MainDone
  ∧ List.last m.1.2 (PLine "") = PLine "Done: 1 OK, 0 failed".
Proof. intros fs0 m. repeat split; vm_compute; reflexivity. Qed.
